(** * Alodek DNS server: wire codec, dispatcher, forwarder and record store

    A shallow embedding of [server/alodek-dns.js] (class [AlodekDNS]) and the
    properties its specification states about it.

    Conventions of the embedding.
    - A Node.js [Buffer] is a [list byte]; offsets are [nat]; the numbers read
      from or written to a buffer are [Z].
    - A JavaScript string is the list of its UTF-16 code units ([list Z]).
    - A JavaScript exception is the [Throw] outcome of the [result] monad;
      [try { .. } catch { .. }] is [try_catch].  The third outcome, [Diverge],
      is what a [while] loop of the model returns when its fuel runs out; the
      lemmas of section "Termination" show that it never happens.
    - The two engine primitives whose tables are not part of the repository,
      UTF-8 decoding ([Buffer#toString('utf8', ..)]) and
      [String#toLowerCase], are parameters of the development. *)

From Stdlib Require Import ZArith Lia Strings.Byte String Ascii.
From stdpp Require Import base option list gmap.

Local Open Scope Z_scope.

(** ** JavaScript values *)

Abbreviation Buffer := (list byte) (only parsing).
Abbreviation jsstring := (list Z) (only parsing).

(** An ASCII literal as a JavaScript string. *)
Definition js (s : string) : jsstring :=
  map (fun a => Z.of_N (N_of_ascii a)) (list_ascii_of_string s).

(** A JavaScript number as far as this program can tell numbers apart: [NaN]
    or an integer.  ([parseInt] rounds integers above 2^53 to the nearest
    double; rounding is monotone and the program only compares the result with
    0 and 255, so the exact integer is kept.) *)
Inductive number := NaN | Int (z : Z).

Inductive js_error :=
| RangeError                      (* ERR_OUT_OF_RANGE, ERR_BUFFER_OUT_OF_BOUNDS *)
| ERR_SOCKET_DGRAM_NOT_RUNNING.

Inductive result (A : Type) :=
| Ok (a : A)
| Throw (e : js_error)
| Diverge.
Arguments Ok {A} a.
Arguments Throw {A} e.
Arguments Diverge {A}.

#[global] Instance result_ret : MRet result := fun A a => Ok a.
#[global] Instance result_bind : MBind result := fun A B f r =>
  match r with
  | Ok a => f a
  | Throw e => Throw e
  | Diverge => Diverge
  end.

(** [try { body } catch (error) { handler }] *)
Definition try_catch {A} (body : result A) (handler : js_error -> result A) : result A :=
  match body with
  | Throw e => handler e
  | r => r
  end.

(** ** Buffer primitives (Node.js [lib/buffer.js], [lib/internal/buffer.js]) *)

Definition u8 (b : byte) : Z := Z.of_N (Byte.to_N b).

(** Storing a number in a [Uint8Array] element keeps its low eight bits. *)
Definition byte_of (z : Z) : byte :=
  match Byte.of_N (Z.to_N (z mod 256)) with
  | Some b => b
  | None => x00
  end.

(** [Buffer.alloc(size)]: zero-filled. *)
Definition alloc (size : nat) : Buffer := replicate size x00.

(** [buf.readUInt8(offset)]: [this[offset]], a range error when it is
    [undefined]. *)
Definition readUInt8 (buf : Buffer) (offset : nat) : result Z :=
  match buf !! offset with
  | Some b => Ok (u8 b)
  | None => Throw RangeError
  end.

(** [buf.readUInt16BE(offset)]: both bytes must exist. *)
Definition readUInt16BE (buf : Buffer) (offset : nat) : result Z :=
  match buf !! offset, buf !! (offset + 1)%nat with
  | Some hi, Some lo => Ok (u8 hi * 256 + u8 lo)
  | _, _ => Throw RangeError
  end.

(** [buf.writeUInt8(value, offset)]: throws when [value > 255 || value < 0]
    (both comparisons are false for [NaN], which is then stored as 0), then
    when [buf[offset]] is [undefined]. *)
Definition writeUInt8 (buf : Buffer) (value : number) (offset : nat) : result Buffer :=
  let stored := match value with NaN => 0 | Int z => z end in
  let out_of_range := match value with NaN => false | Int z => (z >? 255) || (z <? 0) end in
  if out_of_range then Throw RangeError
  else match buf !! offset with
       | None => Throw RangeError
       | Some _ => Ok (<[offset := byte_of stored]> buf)
       end.

(** [buf.writeUInt16BE(value, offset)]: range check on the value, then on
    [buf[offset]] and [buf[offset + 1]]. *)
Definition writeUInt16BE (buf : Buffer) (value : Z) (offset : nat) : result Buffer :=
  if (value >? 65535) || (value <? 0) then Throw RangeError
  else match buf !! offset, buf !! (offset + 1)%nat with
       | Some _, Some _ =>
           Ok (<[(offset + 1)%nat := byte_of value]>
               (<[offset := byte_of (Z.shiftr value 8)]> buf))
       | _, _ => Throw RangeError
       end.

(** [buf.writeUInt32BE(value, offset)]. *)
Definition writeUInt32BE (buf : Buffer) (value : Z) (offset : nat) : result Buffer :=
  if (value >? 4294967295) || (value <? 0) then Throw RangeError
  else match buf !! offset, buf !! (offset + 3)%nat with
       | Some _, Some _ =>
           Ok (<[(offset + 3)%nat := byte_of value]>
               (<[(offset + 2)%nat := byte_of (Z.shiftr value 8)]>
               (<[(offset + 1)%nat := byte_of (Z.shiftr value 16)]>
               (<[offset := byte_of (Z.shiftr value 24)]> buf))))
       | _, _ => Throw RangeError
       end.

(** [source.copy(target, targetStart, sourceStart, sourceEnd)]: a range error
    when [sourceStart] lies beyond the source; otherwise the number of bytes
    copied is clamped to what the source holds and the target has room for. *)
Definition copy (source target : Buffer) (targetStart sourceStart sourceEnd : nat)
  : result Buffer :=
  if (length source <? sourceStart)%nat then Throw RangeError
  else if (length target <=? targetStart)%nat || (sourceEnd <=? sourceStart)%nat then Ok target
  else
    let nb := Nat.min (sourceEnd - sourceStart)
                (Nat.min (length target - targetStart) (length source - sourceStart)) in
    Ok (take targetStart target ++ take nb (drop sourceStart source)
          ++ drop (targetStart + nb) target).

(** [buf.slice(0, end)]: [end] is clamped to the length. *)
Definition slice0 (buf : Buffer) (end_ : nat) : Buffer := take end_ buf.

(** ** Strings *)

(** [labels.join('.')] *)
Fixpoint join (sep : jsstring) (parts : list jsstring) : jsstring :=
  match parts with
  | [] => []
  | [p] => p
  | p :: rest => p ++ sep ++ join sep rest
  end.

(** [value.split('.')] for a one-character separator: always at least one
    part. *)
Fixpoint split (sep : Z) (s : jsstring) : list jsstring :=
  match s with
  | [] => [[]]
  | c :: s' =>
      if c =? sep then [] :: split sep s'
      else match split sep s' with
           | p :: ps => (c :: p) :: ps
           | [] => [[c]]
           end
  end.

(** The decimal numeral of a 16-bit number (at most five digits). *)
Fixpoint decimal (fuel : nat) (n : Z) (acc : jsstring) : jsstring :=
  match fuel with
  | O => acc
  | S fuel' =>
      let acc' := (48 + n mod 10) :: acc in
      if n <? 10 then acc' else decimal fuel' (n / 10) acc'
  end.

(** [parseInt(part)] with no radix (ECMA-262, 19.2.5): leading white space is
    skipped, then an optional sign, then an optional [0x]/[0X] selecting
    radix 16 instead of 10; the longest prefix of digits of that radix is the
    value, and [NaN] when it is empty. *)
Definition is_white_space (c : Z) : bool :=
  bool_decide (c ∈ [9; 10; 11; 12; 13; 32; 160; 5760; 8232; 8233; 8239; 8287; 12288; 65279])
  || ((8192 <=? c) && (c <=? 8202)).

Fixpoint skip_white_space (s : jsstring) : jsstring :=
  match s with
  | c :: s' => if is_white_space c then skip_white_space s' else s
  | [] => []
  end.

Definition digit_value (radix c : Z) : option Z :=
  let v := if (48 <=? c) && (c <=? 57) then c - 48
           else if (97 <=? c) && (c <=? 122) then c - 97 + 10
           else if (65 <=? c) && (c <=? 90) then c - 65 + 10
           else radix in
  if v <? radix then Some v else None.

(** The value of the longest digit prefix, [None] when there is no digit. *)
Fixpoint parse_digits (radix : Z) (s : jsstring) (acc : option Z) : option Z :=
  match s with
  | c :: s' =>
      match digit_value radix c with
      | Some v => parse_digits radix s' (Some (radix * default 0 acc + v))
      | None => acc
      end
  | [] => acc
  end.

Definition parseInt (s : jsstring) : number :=
  let s1 := skip_white_space s in
  let sign := match s1 with
              | c :: _ => if c =? 45 then -1 else 1
              | [] => 1
              end in
  let s2 := match s1 with
            | c :: r => if (c =? 45) || (c =? 43) then r else s1
            | [] => s1
            end in
  let hex := match s2 with
             | c0 :: c1 :: _ => (c0 =? 48) && ((c1 =? 120) || (c1 =? 88))
             | _ => false
             end in
  let radix := if hex then 16 else 10 in
  let s3 := if hex then drop 2 s2 else s2 in
  match parse_digits radix s3 None with
  | Some v => Int (sign * v)
  | None => NaN
  end.

(** ** The server *)

(** [header] of a parsed query. *)
Record DNSHeader := {
  hdr_id : Z; hdr_flags : Z; hdr_qdcount : Z;
  hdr_ancount : Z; hdr_nscount : Z; hdr_arcount : Z
}.

(** The object returned by [parseDNSQuery]. *)
Record DNSQuery := {
  header : DNSHeader;
  domain : jsstring;
  type : Z;
  class : Z;
  typeString : jsstring
}.

(** A value of the [dnsRecords] map: [{ type, value, ttl }]. *)
Record DNSRecord := {
  rtype : jsstring;
  value : jsstring;
  ttl : Z
}.

(** [rinfo] of the ['message'] event. *)
Record RemoteInfo := { address : jsstring; port : Z }.

(** What one call of [handleDNSQuery] does to the outside world before it
    returns: a datagram given to [this.server.send], or a hand-over to
    [forwardDNSQuery]. *)
Inductive effect :=
| ServerSend (payload : Buffer) (to_port : Z) (to_address : jsstring)
| ForwardDNSQuery (msg : Buffer) (rinfo : RemoteInfo) (query : DNSQuery).

(** [getTypeString(type)]: [types[type] || `TYPE${type}`]. *)
Definition getTypeString (type : Z) : jsstring :=
  if type =? 1 then js "A"
  else if type =? 28 then js "AAAA"
  else if type =? 5 then js "CNAME"
  else if type =? 15 then js "MX"
  else if type =? 2 then js "NS"
  else if type =? 12 then js "PTR"
  else if type =? 16 then js "TXT"
  else js "TYPE" ++ decimal 5 type [].

(** [createDNSErrorResponse(originalMsg)] *)
Definition createDNSErrorResponse (originalMsg : Buffer) : result Buffer :=
  let response := alloc (length originalMsg) in
  response ← copy originalMsg response 0 0 (length originalMsg);
  (* Set error flags (RCODE = 3, Name Error) *)
  response ← writeUInt16BE response 0x8183 2;
  Ok response.

(** The loop of [createDNSResponse] that copies the question name:
    [while (originalMsg.readUInt8(offset) !== 0) { response.writeUInt8(originalMsg.readUInt8(offset), offset); offset++; }] *)
Fixpoint copy_question_name (fuel : nat) (originalMsg response : Buffer) (offset : nat)
  : result (Buffer * nat) :=
  match fuel with
  | O => Diverge
  | S fuel' =>
      b ← readUInt8 originalMsg offset;
      if b =? 0 then Ok (response, offset)
      else
        b ← readUInt8 originalMsg offset;
        response ← writeUInt8 response (Int b) offset;
        copy_question_name fuel' originalMsg response (S offset)
  end.

(** [ipParts.forEach(part => { response.writeUInt8(parseInt(part), offset); offset++; })] *)
Fixpoint write_ip_parts (ipParts : list jsstring) (response : Buffer) (offset : nat)
  : result (Buffer * nat) :=
  match ipParts with
  | [] => Ok (response, offset)
  | part :: rest =>
      response ← writeUInt8 response (parseInt part) offset;
      write_ip_parts rest response (S offset)
  end.

(** [createDNSResponse(query, record, originalMsg)] *)
Definition createDNSResponse (query : DNSQuery) (record : DNSRecord) (originalMsg : Buffer)
  : result Buffer :=
  let response := alloc 512 in
  (* Copy header from original query *)
  response ← copy originalMsg response 0 0 12;
  (* Set response flags *)
  response ← writeUInt16BE response 0x8180 2;
  response ← writeUInt16BE response 1 6;
  (* Copy question section *)
  '(response, offset) ← copy_question_name (S (length originalMsg)) originalMsg response 12;
  response ← writeUInt8 response (Int 0) offset;
  let offset := S offset in
  (* Copy QTYPE and QCLASS *)
  response ← copy originalMsg response offset offset (offset + 4);
  let offset := (offset + 4)%nat in
  (* Domain name pointer to question *)
  response ← writeUInt16BE response 0xC00C offset;
  let offset := (offset + 2)%nat in
  (* Type *)
  response ← writeUInt16BE response (if decide (rtype record = js "A") then 1 else 1) offset;
  let offset := (offset + 2)%nat in
  (* Class (IN) *)
  response ← writeUInt16BE response 1 offset;
  let offset := (offset + 2)%nat in
  (* TTL *)
  response ← writeUInt32BE response (ttl record) offset;
  let offset := (offset + 4)%nat in
  (* Data length and IP address *)
  '(response, offset) ←
    (if decide (rtype record = js "A") then
       response ← writeUInt16BE response 4 offset;
       let offset := (offset + 2)%nat in
       write_ip_parts (split 46 (value record)) response offset
     else Ok (response, offset));
  Ok (slice0 response offset).

Section Server.

(** [msg.toString('utf8', start, end)] on the bytes it is given, and
    [s.toLowerCase()]. *)
Variable utf8Slice : list byte -> jsstring.
Variable toLowerCase : jsstring -> jsstring.

(** [buf.toString('utf8', start, end)]: empty when [start] is at or beyond
    the length, [end] clamped to the length. *)
Definition toString_utf8 (buf : Buffer) (start end_ : nat) : jsstring :=
  if (length buf <=? start)%nat then []
  else
    let end_ := Nat.min end_ (length buf) in
    if (end_ <=? start)%nat then []
    else utf8Slice (take (end_ - start) (drop start buf)).

(** The [while (true)] loop of [parseDNSQuery]; returns the labels and the
    offset after the terminating zero length. *)
Fixpoint parse_labels (fuel : nat) (msg : Buffer) (offset : nat) (labels : list jsstring)
  : result (list jsstring * nat) :=
  match fuel with
  | O => Diverge
  | S fuel' =>
      len ← readUInt8 msg offset;
      if len =? 0 then Ok (labels, S offset)
      else
        let label := toString_utf8 msg (offset + 1) (offset + 1 + Z.to_nat len) in
        parse_labels fuel' msg (offset + Z.to_nat len + 1) (labels ++ [label])
  end.

(** [parseDNSQuery(msg)] *)
Definition parseDNSQuery (msg : Buffer) : result DNSQuery :=
  id ← readUInt16BE msg 0;
  flags ← readUInt16BE msg 2;
  qdcount ← readUInt16BE msg 4;
  ancount ← readUInt16BE msg 6;
  nscount ← readUInt16BE msg 8;
  arcount ← readUInt16BE msg 10;
  let header := {| hdr_id := id; hdr_flags := flags; hdr_qdcount := qdcount;
                   hdr_ancount := ancount; hdr_nscount := nscount;
                   hdr_arcount := arcount |} in
  '(labels, offset) ← parse_labels (S (length msg)) msg 12 [];
  let domain := join (js ".") labels in
  type ← readUInt16BE msg offset;
  class_ ← readUInt16BE msg (offset + 2);
  Ok {| header := header; domain := domain; type := type; class := class_;
        typeString := getTypeString type |}.

(** [handleDNSQuery(msg, rinfo)] on the record map [dnsRecords]: [Ok e]
    when the handler returns after effect [e], [Throw] when an exception
    leaves the handler (and, the ['message'] listener having no other
    handler, the process). *)
Definition handleDNSQuery (dnsRecords : gmap jsstring DNSRecord)
    (msg : Buffer) (rinfo : RemoteInfo) : result effect :=
  try_catch
    (query ← parseDNSQuery msg;
     match dnsRecords !! toLowerCase (domain query) with
     | Some record =>
         (* We have a local record for this domain *)
         response ← createDNSResponse query record msg;
         Ok (ServerSend response (port rinfo) (address rinfo))
     | None =>
         (* Forward to upstream DNS *)
         Ok (ForwardDNSQuery msg rinfo query)
     end)
    (fun error =>
       (* Send DNS error response *)
       errorResponse ← createDNSErrorResponse msg;
       Ok (ServerSend errorResponse (port rinfo) (address rinfo))).

(** [addRecord(domain, type, value, ttl = 300)] *)
Definition addRecord (dnsRecords : gmap jsstring DNSRecord)
    (domain : jsstring) (type value : jsstring) (ttl : option Z)
  : gmap jsstring DNSRecord :=
  <[toLowerCase domain := {| rtype := type; value := value; ttl := default 300 ttl |}]>
    dnsRecords.

(** [removeRecord(domain)]: the map after [Map#delete] and the boolean the
    method returns ([Map#delete] answers whether the key was present). *)
Definition removeRecord (dnsRecords : gmap jsstring DNSRecord) (domain : jsstring)
  : gmap jsstring DNSRecord * bool :=
  let key := toLowerCase domain in
  (delete key dnsRecords, bool_decide (is_Some (dnsRecords !! key))).

(** The lookup of the dispatcher: [this.dnsRecords.get(domain.toLowerCase())]. *)
Definition lookup_record (dnsRecords : gmap jsstring DNSRecord) (domain : jsstring)
  : option DNSRecord :=
  dnsRecords !! toLowerCase domain.

End Server.

(** ** The upstream forwarder

    [forwardDNSQuery(msg, rinfo, query)] creates the socket [upstreamSocket],
    registers three callbacks and returns.  The state below is what the
    callbacks share; an [event] is the event loop running one of them. *)

Record Forward := {
  socket_open : bool;          (* [upstreamSocket] still has its handle *)
  timer_armed : bool;          (* the [setTimeout] callback has not run yet *)
  to_client : list Buffer;     (* datagrams given to [this.server.send] for [rinfo] *)
  uncaught : option js_error   (* an exception that left a callback *)
}.

Inductive event :=
| UpstreamMessage (response : Buffer)   (* ['message'] on [upstreamSocket] *)
| SendFailed                            (* the callback of [upstreamSocket.send] with [err] *)
| TimerFired.                           (* the 5000 ms timer *)

(** The state when [forwardDNSQuery] returns. *)
Definition forwardDNSQuery : Forward :=
  {| socket_open := true; timer_armed := true; to_client := []; uncaught := None |}.

(** [this.server.send(payload, rinfo.port, rinfo.address)] *)
Definition server_send (payload : Buffer) (st : Forward) : Forward :=
  {| socket_open := socket_open st; timer_armed := timer_armed st;
     to_client := to_client st ++ [payload]; uncaught := uncaught st |}.

(** [upstreamSocket.close()] (Node.js [lib/dgram.js]): [healthCheck] throws
    [ERR_SOCKET_DGRAM_NOT_RUNNING] when the socket has no handle any more. *)
Definition upstream_close (st : Forward) : result Forward :=
  if socket_open st
  then Ok {| socket_open := false; timer_armed := timer_armed st;
             to_client := to_client st; uncaught := uncaught st |}
  else Throw ERR_SOCKET_DGRAM_NOT_RUNNING.

(** An exception leaves the callback: the process has no handler for it. *)
Definition raise (e : js_error) (st : Forward) : Forward :=
  {| socket_open := socket_open st; timer_armed := timer_armed st;
     to_client := to_client st; uncaught := Some e |}.

(** The rest of a callback from state [st]: its final state, or [st] with the
    exception it threw. *)
Definition finish (st : Forward) (rest : result Forward) : Forward :=
  match rest with
  | Ok st' => st'
  | Throw e => raise e st
  | Diverge => st
  end.

(** The body of each callback. *)
Definition callback (msg : Buffer) (ev : event) (st : Forward) : Forward :=
  match ev with
  | UpstreamMessage response =>
      (* Forward response back to client *)
      let st := server_send response st in
      finish st (upstream_close st)
  | SendFailed =>
      finish st (errorResponse ← createDNSErrorResponse msg;
                 Ok (server_send errorResponse st))
  | TimerFired =>
      match upstream_close st with
      | Ok st =>
          finish st (errorResponse ← createDNSErrorResponse msg;
                     Ok (server_send errorResponse st))
      | Throw e => raise e st
      | Diverge => st
      end
  end.

(** Whether the event loop can run the callback: a closed socket emits no
    ['message'], a timer fires once, nothing runs after the process died.
    The callback of [upstreamSocket.send] is called with its error whether or
    not the socket has been closed in the meantime. *)
Definition enabled (ev : event) (st : Forward) : bool :=
  match uncaught st with
  | Some _ => false
  | None =>
      match ev with
      | UpstreamMessage _ => socket_open st
      | SendFailed => true
      | TimerFired => timer_armed st
      end
  end.

Definition disarm (ev : event) (st : Forward) : Forward :=
  match ev with
  | TimerFired => {| socket_open := socket_open st; timer_armed := false;
                     to_client := to_client st; uncaught := uncaught st |}
  | _ => st
  end.

(** One turn of the event loop. *)
Definition step (msg : Buffer) (st : Forward) (ev : event) : Forward :=
  if enabled ev st then callback msg ev (disarm ev st) else st.

Definition run (msg : Buffer) (events : list event) : Forward :=
  foldl (step msg) forwardDNSQuery events.

(** ** Instances of the engine primitives on 7-bit input

    On bytes below 128 UTF-8 decoding yields the byte as code unit, and
    [toLowerCase] shifts the letters A-Z; the examples below use only such
    input.  (A byte that starts no valid sequence decodes to U+FFFD.) *)
Definition ascii_utf8Slice (bytes : list byte) : jsstring :=
  map (fun b => if u8 b <? 128 then u8 b else 65533) bytes.

Definition ascii_toLowerCase (s : jsstring) : jsstring :=
  map (fun c => if (65 <=? c) && (c <=? 90) then c + 32 else c) s.

(** A buffer from its byte values. *)
Definition bytes (l : list Z) : Buffer := map byte_of l.

(** ** Vocabulary of the specification *)

(** Serialize-error, as the specification words it: the original datagram
    with only the flags field (bytes 2-3) changed, to response/name error. *)
Definition error_response_of (msg response : Buffer) : Prop :=
  length response = length msg /\
  (forall i : nat, i <> 2%nat -> i <> 3%nat -> response !! i = msg !! i) /\
  readUInt16BE response 2 = Ok 0x8183.

(** ** Sample data *)

Definition sample_rinfo : RemoteInfo := {| address := js "192.168.1.50"; port := 40000 |}.

(** The header of a standard query with transaction id 0x1234 and [qdcount]
    questions. *)
Definition query_header (qdcount : Z) : Buffer :=
  bytes [0x12; 0x34; 0x01; 0x00; 0x00; qdcount; 0; 0; 0; 0; 0; 0].

(** The question [svc.local IN A]. *)
Definition svc_question : Buffer :=
  bytes [3; 115; 118; 99; 5; 108; 111; 99; 97; 108; 0; 0; 1; 0; 1].

Definition svc_query : Buffer := query_header 1 ++ svc_question.

(** Scenario A of the specification: [svc.local -> A 127.0.0.1, ttl 300]. *)
Definition svc_store : gmap jsstring DNSRecord :=
  addRecord ascii_toLowerCase ∅ (js "svc.local") (js "A") (js "127.0.0.1") (Some 300).

(** A datagram of three bytes. *)
Definition tiny_datagram : Buffer := bytes [0x12; 0x34; 0x01].

(** A datagram of 513 bytes whose label lengths run past its end. *)
Definition oversized_datagram : Buffer := replicate 513 xff.

(** [svc.local] stored as an AAAA record. *)
Definition aaaa_store : gmap jsstring DNSRecord :=
  addRecord ascii_toLowerCase ∅ (js "svc.local") (js "AAAA") (js "::1") (Some 300).

(** What [parseDNSQuery] returns for [svc_query]. *)
Definition svc_parsed : DNSQuery :=
  {| header := {| hdr_id := 0x1234; hdr_flags := 0x0100; hdr_qdcount := 1;
                  hdr_ancount := 0; hdr_nscount := 0; hdr_arcount := 0 |};
     domain := js "svc.local"; type := 1; class := 1; typeString := js "A" |}.

Definition svc_record : DNSRecord :=
  {| rtype := js "A"; value := js "127.0.0.1"; ttl := 300 |}.

(** ** The wire format (RFC 1035, 4.1) *)

(** Big-endian fields. *)
Definition be16 (v : Z) : Buffer := [byte_of (Z.shiftr v 8); byte_of v].
Definition be32 (v : Z) : Buffer :=
  [byte_of (Z.shiftr v 24); byte_of (Z.shiftr v 16); byte_of (Z.shiftr v 8); byte_of v].

(** A domain name: every label preceded by its length, then the zero length
    of the root. *)
Definition name_octets (labels : list (list byte)) : Buffer :=
  concat (map (fun l => byte_of (Z.of_nat (length l)) :: l) labels).
Definition encode_name (labels : list (list byte)) : Buffer :=
  name_octets labels ++ [x00].

(** A well-formed query: a 12-byte header, the name of the first question as
    labels of 1 to 63 octets making a name of at most 255 octets, the four
    bytes of QTYPE and QCLASS, and whatever follows the first question
    (further questions, an OPT record). *)
Record well_formed_query (msg hdr : Buffer) (labels : list (list byte))
    (qtype_qclass rest : Buffer) : Prop := {
  wf_layout : msg = hdr ++ encode_name labels ++ qtype_qclass ++ rest;
  wf_header : length hdr = 12%nat;
  wf_labels : Forall (fun l : list byte => (1 <= length l <= 63)%nat) labels;
  wf_name : (length (encode_name labels) <= 255)%nat;
  wf_question : length qtype_qclass = 4%nat
}.

(** No label contains the octet 0 (true of every host name). *)
Definition no_zero_octet (labels : list (list byte)) : Prop :=
  Forall (Forall (fun b : byte => b <> x00)) labels.

(** The header of an answer to a query with header [hdr]: flags 0x8180,
    answer count 1. *)
Definition answer_header (hdr : Buffer) : Buffer :=
  <[7%nat := x01]> (<[6%nat := x00]> (<[3%nat := x80]> (<[2%nat := x81]> hdr))).

(** The resource record of an A answer: a pointer to offset 12, type 1,
    class 1, the TTL, data length 4 and the four octets of the address. *)
Definition a_record (ttl a b c d : Z) : Buffer :=
  [xc0; x0c; x00; x01; x00; x01] ++ be32 ttl
    ++ [x00; x04; byte_of a; byte_of b; byte_of c; byte_of d].

(** A decimal numeral for an octet: digits only, at least one, value at
    most 255. *)
Definition digits_value (s : jsstring) : Z :=
  foldl (fun acc c => 10 * acc + (c - 48)) 0 s.
Definition decimal_octet (s : jsstring) (n : Z) : Prop :=
  s <> [] /\ Forall (fun c => 48 <= c <= 57) s /\ digits_value s = n /\ n <= 255.

(** A dotted quad [a.b.c.d]. *)
Definition dotted_quad (s : jsstring) (a b c d : Z) : Prop :=
  exists sa sb sc sd,
    s = sa ++ [46] ++ sb ++ [46] ++ sc ++ [46] ++ sd /\
    decimal_octet sa a /\ decimal_octet sb b /\ decimal_octet sc c /\ decimal_octet sd d.

(** The statements of [createDNSResponse] from the comment "Answer section"
    to the end, on the buffer and offset the question echo left. *)
Definition answer_section (record : DNSRecord) (response : Buffer) (offset : nat)
  : result Buffer :=
  response ← writeUInt16BE response 0xC00C offset;
  let offset := (offset + 2)%nat in
  response ← writeUInt16BE response (if decide (rtype record = js "A") then 1 else 1) offset;
  let offset := (offset + 2)%nat in
  response ← writeUInt16BE response 1 offset;
  let offset := (offset + 2)%nat in
  response ← writeUInt32BE response (ttl record) offset;
  let offset := (offset + 4)%nat in
  '(response, offset) ←
    (if decide (rtype record = js "A") then
       response ← writeUInt16BE response 4 offset;
       let offset := (offset + 2)%nat in
       write_ip_parts (split 46 (value record)) response offset
     else Ok (response, offset));
  Ok (slice0 response offset).

(** ** Reading an answer back

    What a resolver does with the response: skip the header, walk the labels
    of the question name, skip QTYPE and QCLASS, and read the resource record
    found there, which has to end with the datagram. *)

Record ResourceRecord := {
  rr_name : Z;          (* the two octets of the name field *)
  rr_type : Z;
  rr_class : Z;
  rr_ttl : Z;
  rr_rdata : list Z
}.

(** [buf.readUInt32BE(offset)] *)
Definition readUInt32BE (buf : Buffer) (offset : nat) : result Z :=
  match buf !! offset, buf !! (offset + 1)%nat, buf !! (offset + 2)%nat,
        buf !! (offset + 3)%nat with
  | Some b0, Some b1, Some b2, Some b3 =>
      Ok (((u8 b0 * 256 + u8 b1) * 256 + u8 b2) * 256 + u8 b3)
  | _, _, _, _ => Throw RangeError
  end.

Definition decode_answer (utf8Slice : list byte -> jsstring) (response : Buffer)
  : result ResourceRecord :=
  '(_, offset) ← parse_labels utf8Slice (S (length response)) response 12 [];
  let offset := (offset + 4)%nat in
  name ← readUInt16BE response offset;
  type ← readUInt16BE response (offset + 2);
  class_ ← readUInt16BE response (offset + 4);
  ttl ← readUInt32BE response (offset + 6);
  rdlength ← readUInt16BE response (offset + 10);
  let rdata := drop (offset + 12) response in
  if decide (length rdata = Z.to_nat rdlength)
  then Ok {| rr_name := name; rr_type := type; rr_class := class_; rr_ttl := ttl;
             rr_rdata := map u8 rdata |}
  else Throw RangeError.

(** ** A name with a zero octet inside a label

    The question [<0>ab IN A]: one label of three octets, the first of them
    0.  It stays within every limit of RFC 1035 (labels are strings of
    arbitrary octets, RFC 2181 section 11). *)
Definition zero_label : list byte := bytes [0; 97; 98].
Definition zero_label_query : Buffer :=
  query_header 1 ++ encode_name [zero_label] ++ bytes [0; 1; 0; 1].

(** The record map after [addRecord("\u0000ab", "A", "10.0.0.5", 60)]. *)
Definition zero_label_store : gmap jsstring DNSRecord :=
  addRecord ascii_toLowerCase ∅ (ascii_utf8Slice zero_label) (js "A") (js "10.0.0.5") (Some 60).

(** What the server sends for [zero_label_query]. *)
Definition zero_label_response : Buffer :=
  bytes [0x12; 0x34; 0x81; 0x80; 0; 1; 0; 1; 0; 0; 0; 0;
         3; 0; 97; 98; 0; 0;
         0xC0; 0x0C; 0; 1; 0; 1; 0; 0; 0; 60; 0; 4; 10; 0; 0; 5].

(** ** Two questions in one query *)

(** The question [api.local IN A]. *)
Definition api_question : Buffer :=
  bytes [3; 97; 112; 105; 5; 108; 111; 99; 97; 108; 0; 0; 1; 0; 1].

Definition two_question_query : Buffer := query_header 2 ++ svc_question ++ api_question.

(** ** An A record whose value is a host name *)
Definition localhost_store : gmap jsstring DNSRecord :=
  addRecord ascii_toLowerCase ∅ (js "svc.local") (js "A") (js "localhost") (Some 300).

(** [r'] has the length of [r] and the same bytes below offset [n]. *)
Definition agree_below (n : nat) (r r' : Buffer) : Prop :=
  length r' = length r /\ forall i : nat, (i < n)%nat -> r' !! i = r !! i.

(** Lengths of buffers built by appending; [header_length] is the lemma that
    gives the length of the rewritten header. *)
Ltac buffer_length header_length :=
  rewrite ?length_app, ?header_length; cbn [length be16 be32]; lia.

(** ** Configuration and console

    The parts of [AlodekDNS] beside the query path: [loadDNSConfig] and the
    commands read from standard input. *)

(** [ttl || 300] on a TTL that is absent or a number: absent and 0 are
    falsy. *)
Definition or_300 (ttl : option Z) : Z :=
  match ttl with
  | None => 300
  | Some z => if z =? 0 then 300 else z
  end.

(** [parseInt(args[3]) || 300]: [NaN] and 0 are falsy. *)
Definition number_or_300 (n : number) : Z :=
  match n with
  | NaN => 300
  | Int z => if z =? 0 then 300 else z
  end.

(** A value of [config.domains]: [type] and [value] strings, [ttl] a number
    or absent. *)
Record ConfigRecord := {
  cfg_type : jsstring;
  cfg_value : jsstring;
  cfg_ttl : option Z
}.

(** [config]: the entries of [config.domains] in the order of
    [Object.entries], and [config.upstreamDNS] when present.  ([settings]
    only switches log lines, which the model does not have; a file without
    [domains] makes [Object.entries] throw and is not a [Config].) *)
Record Config := {
  domains : list (jsstring * ConfigRecord);
  upstreamDNS : option (list jsstring)
}.

Definition default_a (value : string) : ConfigRecord :=
  {| cfg_type := js "A"; cfg_value := js value; cfg_ttl := Some 300 |}.

(** [defaultConfig] of [loadDNSConfig]. *)
Definition defaultConfig : Config :=
  {| domains :=
       [ (js "gis-ctf.local", default_a "127.0.0.1");
         (js "api.gis-ctf.local", default_a "127.0.0.1");
         (js "backend.gis-ctf.local", default_a "127.0.0.1");
         (js "team1.gis-ctf.local", default_a "192.168.1.101");
         (js "team2.gis-ctf.local", default_a "192.168.1.102");
         (js "team3.gis-ctf.local", default_a "192.168.1.103");
         (js "team4.gis-ctf.local", default_a "192.168.1.104");
         (js "team5.gis-ctf.local", default_a "192.168.1.105") ];
     upstreamDNS := Some [js "8.8.8.8"; js "1.1.1.1"] |}.

(** [s.trim()]: white space and line terminators off both ends. *)
Definition trim (s : jsstring) : jsstring :=
  rev (skip_white_space (rev (skip_white_space s))).

(** Which branch of the console's [switch] ran. *)
Inductive command_outcome :=
| ShowedHelp
| ListedRecords
| AddedRecord
| ShowedAddUsage
| RemoveCalled (removed : bool)
| ShowedRemoveUsage
| StoppedServer
| UnknownCommand.

Section Console.

Variable toLowerCase : jsstring -> jsstring.

(** The [forEach] of [loadDNSConfig] over [Object.entries(config.domains)]. *)
Definition load_domains (entries : list (jsstring * ConfigRecord))
    (dnsRecords : gmap jsstring DNSRecord) : gmap jsstring DNSRecord :=
  foldl (fun m entry =>
           <[toLowerCase entry.1 :=
               {| rtype := cfg_type entry.2; value := cfg_value entry.2;
                  ttl := or_300 (cfg_ttl entry.2) |}]> m)
        dnsRecords entries.

(** [loadDNSConfig()] on a new instance: [configFile] is the parsed file, or
    [None] when there is no file or it cannot be read or parsed.  Returns
    [this.dnsRecords] and [this.upstreamDNS]. *)
Definition loadDNSConfig (configFile : option Config)
  : gmap jsstring DNSRecord * list jsstring :=
  let config := default defaultConfig configFile in
  (load_domains (domains config) ∅, default [js "8.8.8.8"] (upstreamDNS config)).

(** The listener of [process.stdin.on('data', ..)] on the record map:
    [const [command, ...args] = input.trim().split(' ')] and the [switch].
    (A TTL above 2^53 is stored rounded by JavaScript and exact here; either
    is beyond what [writeUInt32BE] accepts.) *)
Definition console_command (dnsRecords : gmap jsstring DNSRecord) (input : jsstring)
  : gmap jsstring DNSRecord * command_outcome :=
  match split 32 (trim input) with
  | [] => (dnsRecords, UnknownCommand)
  | command :: args =>
      if decide (command = js "help") then (dnsRecords, ShowedHelp)
      else if decide (command = js "list") then (dnsRecords, ListedRecords)
      else if decide (command = js "add") then
        if (3 <=? length args)%nat then
          (addRecord toLowerCase dnsRecords
             (default [] (args !! 0%nat)) (default [] (args !! 1%nat))
             (default [] (args !! 2%nat))
             (Some (number_or_300
                      (parseInt (default (js "undefined") (args !! 3%nat))))),
           AddedRecord)
        else (dnsRecords, ShowedAddUsage)
      else if decide (command = js "remove") then
        match args with
        | domain :: _ =>
            if decide (domain = []) then (dnsRecords, ShowedRemoveUsage)
            else
              let '(dnsRecords', removed) := removeRecord toLowerCase dnsRecords domain in
              (dnsRecords', RemoveCalled removed)
        | [] => (dnsRecords, ShowedRemoveUsage)
        end
      else if bool_decide (command = js "quit") || bool_decide (command = js "exit")
      then (dnsRecords, StoppedServer)
      else (dnsRecords, UnknownCommand)
  end.

End Console.

(** ** The octets written for the parts of a value *)

(** What [response.writeUInt8(parseInt(part), offset)] stores when it does
    not throw: the integer, or 0 for [NaN]. *)
Definition stored_octet (part : jsstring) : byte :=
  byte_of (match parseInt part with NaN => 0 | Int z => z end).

(** [writeUInt8] accepts the part: no integer, or one within 0-255. *)
Definition storable (part : jsstring) : Prop :=
  match parseInt part with
  | NaN => True
  | Int z => 0 <= z <= 255
  end.

(** ** The forwarder's runs, read off the event list *)

(** The exchange is over in [st]: the process died with an uncaught
    exception, or the socket is closed and the timer has fired.  No reply is
    relayed and the timer does not run any more; a send failure can still be
    reported. *)
Definition exchange_over (st : Forward) : Prop :=
  uncaught st <> None \/ (socket_open st = false /\ timer_armed st = false).

Definition is_timer (ev : event) : bool :=
  match ev with TimerFired => true | _ => false end.

(** The send failures among the events. *)
Fixpoint send_failures (events : list event) : list event :=
  match events with
  | [] => []
  | SendFailed :: events => SendFailed :: send_failures events
  | _ :: events => send_failures events
  end.

(** What the client is still sent once the timer has closed the socket: the
    error response for each send failure reported. *)
Definition sent_after_timer (errorResponse : Buffer) (events : list event) : list Buffer :=
  map (fun _ => errorResponse) (send_failures events).

(** What the client is still sent once a reply has been relayed: the error
    response for each send failure reported before the timer fires; the
    timer's callback then throws and the process is gone. *)
Fixpoint sent_after_reply (errorResponse : Buffer) (events : list event) : list Buffer :=
  match events with
  | [] => []
  | SendFailed :: events => errorResponse :: sent_after_reply errorResponse events
  | UpstreamMessage _ :: events => sent_after_reply errorResponse events
  | TimerFired :: _ => []
  end.

(** The datagrams a run gives the client: the error response for each send
    failure reported, and the first upstream reply or the error response of
    the timer, whichever of the two events comes first. *)
Fixpoint sent_to_client (errorResponse : Buffer) (events : list event) : list Buffer :=
  match events with
  | [] => []
  | SendFailed :: events => errorResponse :: sent_to_client errorResponse events
  | UpstreamMessage response :: events => response :: sent_after_reply errorResponse events
  | TimerFired :: events => errorResponse :: sent_after_timer errorResponse events
  end.

(** An upstream reply is delivered before the timer fires, and the timer
    fires. *)
Fixpoint reply_precedes_timer (events : list event) : bool :=
  match events with
  | [] => false
  | SendFailed :: events => reply_precedes_timer events
  | UpstreamMessage _ :: events => existsb is_timer events
  | TimerFired :: _ => false
  end.

(** * Bytes and buffer primitives *)

Lemma byte_of_u8 (b : byte) : byte_of (u8 b) = b.
Proof. destruct b; reflexivity. Qed.

Lemma u8_range (b : byte) : 0 <= u8 b < 256.
Proof. unfold u8. pose proof (Byte.to_N_bounded b). lia. Qed.

Lemma u8_byte_of (z : Z) : 0 <= z < 256 -> u8 (byte_of z) = z.
Proof.
  intros Hz. unfold byte_of, u8. rewrite Z.mod_small by lia.
  destruct (Byte.of_N (Z.to_N z)) as [b|] eqn:E.
  - apply Byte.to_of_N in E. rewrite E. lia.
  - apply Byte.of_N_None_iff in E. lia.
Qed.

Lemma u8_inj (a b : byte) : u8 a = u8 b -> a = b.
Proof. intros H. rewrite <- (byte_of_u8 a), <- (byte_of_u8 b). by rewrite H. Qed.

Lemma Ok_inj {A} (a b : A) : Ok a = Ok b -> a = b.
Proof. congruence. Qed.

Lemma bind_Ok_l {A B} (a : A) (f : A -> result B) : Ok a ≫= f = f a.
Proof. reflexivity. Qed.

Lemma bind_Ok {A B} (r : result A) (f : A -> result B) (b : B) :
  r ≫= f = Ok b -> exists a, r = Ok a /\ f a = Ok b.
Proof. destruct r as [a| |]; simpl; intros H; try discriminate. eauto. Qed.

Lemma bind_not_Diverge {A B} (r : result A) (f : A -> result B) :
  r <> Diverge -> (forall a, r = Ok a -> f a <> Diverge) -> r ≫= f <> Diverge.
Proof. destruct r as [a| |]; simpl; intros H1 H2; auto; discriminate. Qed.

Lemma readUInt8_Ok (buf : Buffer) (offset : nat) (z : Z) :
  readUInt8 buf offset = Ok z <-> exists b, buf !! offset = Some b /\ z = u8 b.
Proof.
  unfold readUInt8. destruct (buf !! offset) as [b|]; split.
  - intros [= <-]. eauto.
  - intros (b' & [= <-] & ->). done.
  - discriminate.
  - intros (b' & [=] & _).
Qed.

Lemma readUInt8_lt (buf : Buffer) (offset : nat) (z : Z) :
  readUInt8 buf offset = Ok z -> (offset < length buf)%nat.
Proof. intros (b & Hb & _)%readUInt8_Ok. by eapply lookup_lt_Some. Qed.

Lemma readUInt8_not_Diverge (buf : Buffer) (offset : nat) : readUInt8 buf offset <> Diverge.
Proof. unfold readUInt8. by destruct (buf !! offset). Qed.

Lemma readUInt16BE_not_Diverge (buf : Buffer) (offset : nat) :
  readUInt16BE buf offset <> Diverge.
Proof. unfold readUInt16BE. by destruct (buf !! offset), (buf !! (offset + 1)%nat). Qed.

Lemma readUInt16BE_Throw (buf : Buffer) (offset : nat) (e : js_error) :
  readUInt16BE buf offset = Throw e -> e = RangeError.
Proof.
  unfold readUInt16BE. destruct (buf !! offset); [|congruence].
  destruct (buf !! (offset + 1)%nat); congruence.
Qed.

Lemma readUInt16BE_short (buf : Buffer) (offset : nat) :
  (length buf <= offset + 1)%nat -> readUInt16BE buf offset = Throw RangeError.
Proof.
  intros H. unfold readUInt16BE.
  rewrite (proj2 (lookup_ge_None buf (offset + 1)) H). by destruct (buf !! offset).
Qed.

Lemma readUInt16BE_lt (buf : Buffer) (offset : nat) (z : Z) :
  readUInt16BE buf offset = Ok z -> (offset + 1 < length buf)%nat.
Proof.
  unfold readUInt16BE. destruct (buf !! offset); [|discriminate].
  destruct (buf !! (offset + 1)%nat) eqn:E; [|discriminate].
  intros _. by eapply lookup_lt_Some.
Qed.

(** A successful write: where it wrote, and that it keeps the length and
    every other byte. *)
Lemma writeUInt8_Ok (buf buf' : Buffer) (v : number) (offset : nat) :
  writeUInt8 buf v offset = Ok buf' ->
  (offset < length buf)%nat /\ length buf' = length buf /\
  forall i : nat, i <> offset -> buf' !! i = buf !! i.
Proof.
  unfold writeUInt8. case_match; [discriminate|].
  destruct (buf !! offset) eqn:E; [|discriminate]. intros [= <-].
  split; [by eapply lookup_lt_Some|]. split; [by rewrite length_insert|].
  intros i Hi. by rewrite list_lookup_insert_ne.
Qed.

Lemma writeUInt16BE_Ok (buf buf' : Buffer) (v : Z) (offset : nat) :
  writeUInt16BE buf v offset = Ok buf' ->
  (offset + 1 < length buf)%nat /\ length buf' = length buf /\
  (forall i : nat, i <> offset -> i <> (offset + 1)%nat -> buf' !! i = buf !! i) /\
  buf' !! offset = Some (byte_of (Z.shiftr v 8)) /\
  buf' !! (offset + 1)%nat = Some (byte_of v).
Proof.
  unfold writeUInt16BE. case_match; [discriminate|].
  destruct (buf !! offset) eqn:E0; [|discriminate].
  destruct (buf !! (offset + 1)%nat) eqn:E1; [|discriminate]. intros [= <-].
  apply lookup_lt_Some in E1.
  split; [done|]. split; [by rewrite !length_insert|]. split; [|split].
  - intros i H0 H1. by rewrite !list_lookup_insert_ne.
  - rewrite list_lookup_insert_ne by lia. apply list_lookup_insert_eq. lia.
  - apply list_lookup_insert_eq. rewrite length_insert. lia.
Qed.

Lemma writeUInt32BE_Ok (buf buf' : Buffer) (v : Z) (offset : nat) :
  writeUInt32BE buf v offset = Ok buf' ->
  (offset + 3 < length buf)%nat /\ length buf' = length buf /\
  forall i : nat, (i < offset \/ offset + 3 < i)%nat -> buf' !! i = buf !! i.
Proof.
  unfold writeUInt32BE. case_match; [discriminate|].
  destruct (buf !! offset) eqn:E0; [|discriminate].
  destruct (buf !! (offset + 3)%nat) eqn:E1; [|discriminate]. intros [= <-].
  split; [by eapply lookup_lt_Some|]. split; [by rewrite !length_insert|].
  intros i Hi. rewrite !list_lookup_insert_ne by lia. done.
Qed.

(** The same primitives run forward. *)
Lemma writeUInt16BE_eq (buf : Buffer) (v : Z) (offset : nat) :
  0 <= v <= 65535 -> (offset + 1 < length buf)%nat ->
  writeUInt16BE buf v offset
  = Ok (<[(offset + 1)%nat := byte_of v]> (<[offset := byte_of (Z.shiftr v 8)]> buf)).
Proof.
  intros Hv Hl. unfold writeUInt16BE.
  replace ((v >? 65535) || (v <? 0)) with false by lia.
  destruct (lookup_lt_is_Some_2 buf offset ltac:(lia)) as [b0 ->].
  by destruct (lookup_lt_is_Some_2 buf (offset + 1) ltac:(lia)) as [b1 ->].
Qed.

Lemma copy_eq (source target : Buffer) (ts ss se : nat) :
  (ss <= length source)%nat -> (ts < length target)%nat -> (ss < se)%nat ->
  copy source target ts ss se
  = Ok (take ts target
          ++ take (Nat.min (se - ss) (Nat.min (length target - ts) (length source - ss)))
               (drop ss source)
          ++ drop (ts + Nat.min (se - ss) (Nat.min (length target - ts) (length source - ss)))
               target).
Proof.
  intros H1 H2 H3. unfold copy.
  replace (length source <? ss)%nat with false by (symmetry; apply Nat.ltb_ge; lia).
  replace (length target <=? ts)%nat with false by (symmetry; apply Nat.leb_gt; lia).
  replace (se <=? ss)%nat with false by (symmetry; apply Nat.leb_gt; lia).
  reflexivity.
Qed.

Lemma writeUInt8_not_Diverge buf v offset : writeUInt8 buf v offset <> Diverge.
Proof. unfold writeUInt8. repeat case_match; discriminate. Qed.

Lemma writeUInt16BE_not_Diverge buf v offset : writeUInt16BE buf v offset <> Diverge.
Proof. unfold writeUInt16BE. repeat case_match; discriminate. Qed.

Lemma writeUInt32BE_not_Diverge buf v offset : writeUInt32BE buf v offset <> Diverge.
Proof. unfold writeUInt32BE. repeat case_match; discriminate. Qed.

Lemma copy_not_Diverge source target ts ss se : copy source target ts ss se <> Diverge.
Proof. unfold copy. repeat case_match; discriminate. Qed.

(** A copy keeps the length of the target and the bytes before [targetStart]. *)
Lemma copy_Ok (source target target' : Buffer) (ts ss se : nat) :
  copy source target ts ss se = Ok target' ->
  length target' = length target /\
  forall i : nat, (i < ts)%nat -> target' !! i = target !! i.
Proof.
  unfold copy. case_match; [discriminate|]. case_match.
  { intros [= <-]. done. }
  intros [= <-].
  apply orb_false_iff in H0 as [Ht Hs].
  apply Nat.leb_gt in Ht, Hs. apply Nat.ltb_ge in H.
  split.
  - rewrite !length_app, !length_take, !length_drop. lia.
  - intros i Hi. rewrite lookup_app_l by (rewrite length_take; lia).
    by rewrite lookup_take_lt.
Qed.

(** The first statement of [createDNSResponse] on a query that has a header. *)
Lemma copy_header (msg : Buffer) :
  (12 <= length msg)%nat ->
  copy msg (alloc 512) 0 0 12 = Ok (take 12 msg ++ replicate 500 x00).
Proof.
  intros Hlen. unfold copy.
  replace (length msg <? 0)%nat with false by (symmetry; apply Nat.ltb_ge; lia).
  unfold alloc. rewrite length_replicate.
  change (512 <=? 0)%nat with false. change (12 <=? 0)%nat with false.
  cbv beta iota zeta. change (false || false) with false. cbv iota.
  rewrite !Nat.sub_0_r, drop_0, take_0, Nat.add_0_l.
  replace (Nat.min 12 (Nat.min 512 (length msg))) with 12%nat by lia.
  rewrite drop_replicate. reflexivity.
Qed.

(** Copying a whole buffer into a fresh one of the same length. *)
Lemma copy_all (msg : Buffer) :
  copy msg (alloc (length msg)) 0 0 (length msg) = Ok msg.
Proof.
  unfold copy, alloc. rewrite length_replicate.
  destruct msg as [|b msg]; [reflexivity|].
  replace (length (b :: msg) <? 0)%nat with false by (symmetry; by apply Nat.ltb_ge; lia).
  replace (length (b :: msg) <=? 0)%nat with false by (symmetry; apply Nat.leb_gt; simpl; lia).
  simpl orb. cbv iota.
  rewrite !Nat.sub_0_r, !Nat.min_id. rewrite drop_0, firstn_all.
  rewrite drop_ge by (rewrite length_replicate; simpl; lia).
  by rewrite app_nil_r.
Qed.

(** * Termination

    Each [while] loop advances its offset on every turn and stops at the
    latest when a read leaves the buffer, so the fuel the model gives the
    loops is never used up. *)

Lemma copy_question_name_not_Diverge (originalMsg : Buffer) :
  forall (fuel : nat) (response : Buffer) (offset : nat),
    (length originalMsg <= fuel + offset)%nat ->
    copy_question_name (S fuel) originalMsg response offset <> Diverge.
Proof.
  induction fuel as [|fuel IH]; intros response offset Hfuel.
  - simpl. destruct (readUInt8 originalMsg offset) as [b| |] eqn:E; simpl;
      [|discriminate|by apply readUInt8_not_Diverge in E].
    apply readUInt8_lt in E. simpl in Hfuel. lia.
  - change (copy_question_name (S (S fuel)) originalMsg response offset)
      with (b ← readUInt8 originalMsg offset;
            if b =? 0 then Ok (response, offset)
            else b ← readUInt8 originalMsg offset;
                 response ← writeUInt8 response (Int b) offset;
                 copy_question_name (S fuel) originalMsg response (S offset)).
    destruct (readUInt8 originalMsg offset) as [b| |] eqn:E; simpl;
      [|discriminate|by apply readUInt8_not_Diverge in E].
    destruct (b =? 0); [discriminate|].
    destruct (writeUInt8 response (Int b) offset) as [r| |] eqn:W; simpl;
      [|discriminate|by apply writeUInt8_not_Diverge in W].
    apply IH. lia.
Qed.

Lemma write_ip_parts_not_Diverge (ipParts : list jsstring) :
  forall (response : Buffer) (offset : nat),
    write_ip_parts ipParts response offset <> Diverge.
Proof.
  induction ipParts as [|part rest IH]; intros response offset; simpl; [discriminate|].
  destruct (writeUInt8 response (parseInt part) offset) as [r| |] eqn:W; simpl;
    [apply IH|discriminate|by apply writeUInt8_not_Diverge in W].
Qed.

(** [createDNSResponse] always returns or throws. *)
Lemma createDNSResponse_not_Diverge query record originalMsg :
  createDNSResponse query record originalMsg <> Diverge.
Proof.
  unfold createDNSResponse.
  do 3 (apply bind_not_Diverge;
      [ first [ apply copy_not_Diverge | apply writeUInt8_not_Diverge
              | apply writeUInt16BE_not_Diverge | apply writeUInt32BE_not_Diverge
              | apply readUInt16BE_not_Diverge | apply readUInt8_not_Diverge ]
      | intros ? _ ]).
  apply bind_not_Diverge; [apply copy_question_name_not_Diverge; lia|].
  intros [response offset] _.
  do 6 (apply bind_not_Diverge;
      [ first [ apply copy_not_Diverge | apply writeUInt8_not_Diverge
              | apply writeUInt16BE_not_Diverge | apply writeUInt32BE_not_Diverge
              | apply readUInt16BE_not_Diverge | apply readUInt8_not_Diverge ]
      | intros ? _ ]).
  apply bind_not_Diverge; [|by intros [? ?] _].
  case_decide; [|discriminate].
  apply bind_not_Diverge; [apply writeUInt16BE_not_Diverge|intros ? _].
  apply write_ip_parts_not_Diverge.
Qed.

Lemma createDNSErrorResponse_not_Diverge originalMsg :
  createDNSErrorResponse originalMsg <> Diverge.
Proof.
  unfold createDNSErrorResponse.
  do 2 (apply bind_not_Diverge;
      [ first [ apply copy_not_Diverge | apply writeUInt8_not_Diverge
              | apply writeUInt16BE_not_Diverge | apply writeUInt32BE_not_Diverge
              | apply readUInt16BE_not_Diverge | apply readUInt8_not_Diverge ]
      | intros ? _ ]).
  discriminate.
Qed.

Section ServerTermination.
Variable utf8Slice : list byte -> jsstring.
Variable toLowerCase : jsstring -> jsstring.

Lemma parse_labels_not_Diverge (msg : Buffer) :
  forall (fuel offset : nat) (labels : list jsstring),
    (length msg <= fuel + offset)%nat ->
    parse_labels utf8Slice (S fuel) msg offset labels <> Diverge.
Proof.
  induction fuel as [|fuel IH]; intros offset labels Hfuel.
  - simpl. destruct (readUInt8 msg offset) as [b| |] eqn:E; simpl;
      [|discriminate|by apply readUInt8_not_Diverge in E].
    apply readUInt8_lt in E. simpl in Hfuel. lia.
  - change (parse_labels utf8Slice (S (S fuel)) msg offset labels)
      with (len ← readUInt8 msg offset;
            if len =? 0 then Ok (labels, S offset)
            else parse_labels utf8Slice (S fuel) msg (offset + Z.to_nat len + 1)
                   (labels ++ [toString_utf8 utf8Slice msg (offset + 1)
                                 (offset + 1 + Z.to_nat len)])).
    destruct (readUInt8 msg offset) as [b| |] eqn:E; simpl;
      [|discriminate|by apply readUInt8_not_Diverge in E].
    destruct (b =? 0); [discriminate|].
    apply IH. lia.
Qed.

(** [parseDNSQuery] always returns or throws. *)
Lemma parseDNSQuery_not_Diverge (msg : Buffer) :
  parseDNSQuery utf8Slice msg <> Diverge.
Proof.
  unfold parseDNSQuery.
  do 6 (apply bind_not_Diverge; [apply readUInt16BE_not_Diverge|intros ? _]).
  apply bind_not_Diverge; [apply parse_labels_not_Diverge; lia|].
  intros [labels offset] _.
  do 2 (apply bind_not_Diverge; [apply readUInt16BE_not_Diverge|intros ? _]).
  discriminate.
Qed.

(** [handleDNSQuery] always returns or throws. *)
Lemma handleDNSQuery_not_Diverge dnsRecords msg rinfo :
  handleDNSQuery utf8Slice toLowerCase dnsRecords msg rinfo <> Diverge.
Proof.
  unfold handleDNSQuery.
  destruct (parseDNSQuery utf8Slice msg) as [q| |] eqn:P; simpl.
  - destruct (dnsRecords !! toLowerCase (domain q)) as [rec|]; [|discriminate].
    destruct (createDNSResponse q rec msg) as [r| |] eqn:C; simpl; [discriminate| |].
    + destruct (createDNSErrorResponse msg) as [e'| |] eqn:Er; simpl; try discriminate.
      by apply createDNSErrorResponse_not_Diverge in Er.
    + by apply createDNSResponse_not_Diverge in C.
  - destruct (createDNSErrorResponse msg) as [e'| |] eqn:Er; simpl; try discriminate.
    by apply createDNSErrorResponse_not_Diverge in Er.
  - by apply parseDNSQuery_not_Diverge in P.
Qed.

End ServerTermination.

(** * The record store *)

Section RecordStore.
Variable toLowerCase : jsstring -> jsstring.

Lemma addRecord_lookup dnsRecords domain type value ttl :
  lookup_record toLowerCase (addRecord toLowerCase dnsRecords domain type value ttl) domain
  = Some {| rtype := type; value := value; ttl := default 300 ttl |}.
Proof. unfold lookup_record, addRecord. apply lookup_insert_eq. Qed.

Lemma removeRecord_lookup dnsRecords domain :
  lookup_record toLowerCase (removeRecord toLowerCase dnsRecords domain).1 domain = None.
Proof. unfold lookup_record, removeRecord. apply lookup_delete_eq. Qed.

(** C9. For every record store, the empty one included: adding the same
    (domain, type, value, ttl) twice leaves every lookup as after adding it
    once (the two maps are equal); removing a domain that has no record
    (after case folding) returns false and leaves the map as it was;
    removing a domain that has one returns true (and the record is gone).
    Each part stands on its own condition only. *)
Theorem add_idempotent_remove_reports dnsRecords domain type value ttl other absent present :
  lookup_record toLowerCase
    (addRecord toLowerCase (addRecord toLowerCase dnsRecords domain type value ttl)
       domain type value ttl) other
    = lookup_record toLowerCase (addRecord toLowerCase dnsRecords domain type value ttl) other
  /\ addRecord toLowerCase (addRecord toLowerCase dnsRecords domain type value ttl)
       domain type value ttl
     = addRecord toLowerCase dnsRecords domain type value ttl
  /\ (lookup_record toLowerCase dnsRecords absent = None ->
      removeRecord toLowerCase dnsRecords absent = (dnsRecords, false))
  /\ (is_Some (lookup_record toLowerCase dnsRecords present) ->
      (removeRecord toLowerCase dnsRecords present).2 = true /\
      lookup_record toLowerCase (removeRecord toLowerCase dnsRecords present).1 present
        = None).
Proof.
  unfold lookup_record, addRecord, removeRecord.
  split; [by rewrite insert_insert_eq|].
  split; [by rewrite insert_insert_eq|].
  split.
  - intros Habsent. f_equal.
    + by apply delete_id.
    + apply bool_decide_eq_false. rewrite Habsent. by intros [? ?].
  - intros Hpresent. cbn [fst snd]. split.
    + by apply bool_decide_eq_true.
    + apply lookup_delete_eq.
Qed.

End RecordStore.

(** On the empty store and on the store of Scenario A. *)
Lemma add_idempotent_remove_reports_witness :
  addRecord ascii_toLowerCase
    (addRecord ascii_toLowerCase ∅ (js "new.local") (js "A") (js "10.0.0.5") (Some 60))
    (js "new.local") (js "A") (js "10.0.0.5") (Some 60)
  = addRecord ascii_toLowerCase ∅ (js "new.local") (js "A") (js "10.0.0.5") (Some 60) /\
  removeRecord ascii_toLowerCase ∅ (js "none.local") = (∅, false) /\
  removeRecord ascii_toLowerCase svc_store (js "none.local") = (svc_store, false) /\
  (removeRecord ascii_toLowerCase svc_store (js "SVC.Local")).2 = true.
Proof.
  pose proof (add_idempotent_remove_reports ascii_toLowerCase ∅
                (js "new.local") (js "A") (js "10.0.0.5") (Some 60) (js "new.local")
                (js "none.local") (js "none.local")) as (_ & Hadd & Hempty & _).
  pose proof (add_idempotent_remove_reports ascii_toLowerCase svc_store
                (js "new.local") (js "A") (js "10.0.0.5") (Some 60) (js "new.local")
                (js "none.local") (js "SVC.Local")) as (_ & _ & Habsent & Hpresent).
  split; [exact Hadd|].
  split; [apply Hempty; reflexivity|].
  split; [apply Habsent; vm_compute; reflexivity|].
  apply Hpresent. vm_compute. eauto.
Defined.

(** * Serialize-error *)

(** C5 fails on a datagram shorter than four bytes: writing the flags at
    offset 2 throws, and no response is built. *)
Lemma createDNSErrorResponse_short_datagram :
  ~ exists response,
      createDNSErrorResponse tiny_datagram = Ok response /\
      error_response_of tiny_datagram response.
Proof. intros (response & H & _). vm_compute in H. discriminate. Qed.

(** C5, amended. For every datagram of at least four bytes the synthesized
    error response has the length of the original and equals it at every
    offset except bytes 2-3, which hold 0x8183 (response, name error); so
    the transaction id in bytes 0-1 is kept. *)
Theorem createDNSErrorResponse_frame (msg : Buffer) :
  (4 <= length msg)%nat ->
  exists response,
    createDNSErrorResponse msg = Ok response /\ error_response_of msg response.
Proof.
  intros Hlen. unfold createDNSErrorResponse. rewrite copy_all. simpl.
  unfold writeUInt16BE. simpl.
  destruct (lookup_lt_is_Some_2 msg 2 ltac:(lia)) as [b2 ->].
  destruct (lookup_lt_is_Some_2 msg 3 ltac:(lia)) as [b3 ->].
  eexists; split; [reflexivity|]. repeat split.
  - by rewrite !length_insert.
  - intros i H2 H3. by rewrite !list_lookup_insert_ne.
  - unfold readUInt16BE. simpl.
    rewrite list_lookup_insert_ne by lia.
    rewrite list_lookup_insert_eq by lia.
    rewrite list_lookup_insert_eq by (rewrite length_insert; lia).
    reflexivity.
Qed.

Lemma createDNSErrorResponse_frame_witness :
  (4 <= length svc_query)%nat /\
  exists response,
    createDNSErrorResponse svc_query = Ok response /\ error_response_of svc_query response.
Proof.
  assert (H : (4 <= length svc_query)%nat) by (vm_compute; lia).
  exact (conj H (createDNSErrorResponse_frame svc_query H)).
Defined.

Lemma createDNSErrorResponse_length (msg response : Buffer) :
  createDNSErrorResponse msg = Ok response -> length response = length msg.
Proof.
  unfold createDNSErrorResponse. rewrite copy_all. simpl.
  intros (r & W & [= <-])%bind_Ok. by apply writeUInt16BE_Ok in W as (_ & -> & _).
Qed.

Lemma createDNSErrorResponse_txid (msg response : Buffer) :
  createDNSErrorResponse msg = Ok response -> take 2 response = take 2 msg.
Proof.
  unfold createDNSErrorResponse. rewrite copy_all. simpl.
  intros (r & W & [= <-])%bind_Ok. apply writeUInt16BE_Ok in W as (Hl & Hlen & Hframe & _).
  apply list_eq. intros i. destruct (decide (i < 2)%nat).
  - rewrite !lookup_take_lt by lia. apply Hframe; lia.
  - rewrite !lookup_take_ge by lia. done.
Qed.

Lemma createDNSErrorResponse_flags (msg : Buffer) :
  (4 <= length msg)%nat ->
  exists response,
    createDNSErrorResponse msg = Ok response /\ error_response_of msg response.
Proof.
  intros Hlen. unfold createDNSErrorResponse. rewrite copy_all. simpl.
  unfold writeUInt16BE. simpl.
  destruct (lookup_lt_is_Some_2 msg 2 ltac:(lia)) as [b2 ->].
  destruct (lookup_lt_is_Some_2 msg 3 ltac:(lia)) as [b3 ->].
  eexists; split; [reflexivity|]. repeat split.
  - by rewrite !length_insert.
  - intros i H2 H3. by rewrite !list_lookup_insert_ne.
  - unfold readUInt16BE. simpl.
    rewrite list_lookup_insert_ne by lia.
    rewrite list_lookup_insert_eq by lia.
    rewrite list_lookup_insert_eq by (rewrite length_insert; lia).
    reflexivity.
Qed.

Lemma createDNSErrorResponse_Ok (msg : Buffer) :
  (4 <= length msg)%nat -> exists response, createDNSErrorResponse msg = Ok response.
Proof. intros (r & H & _)%createDNSErrorResponse_flags. eauto. Qed.

(** * Serialize-answer: what every successful call guarantees *)

Lemma agree_below_refl n r : agree_below n r r.
Proof. by split. Qed.

Lemma agree_below_trans n m r1 r2 r3 :
  (n <= m)%nat -> agree_below n r1 r2 -> agree_below m r2 r3 -> agree_below n r1 r3.
Proof.
  intros Hnm [L1 F1] [L2 F2]. split; [congruence|].
  intros i Hi. rewrite F2 by lia. by apply F1.
Qed.

Lemma agree_below_mono n m r r' :
  (n <= m)%nat -> agree_below m r r' -> agree_below n r r'.
Proof. intros Hnm [L F]. split; [done|]. intros i Hi. apply F. lia. Qed.

Lemma writeUInt8_agree buf buf' v offset :
  writeUInt8 buf v offset = Ok buf' -> agree_below offset buf buf'.
Proof. intros (_ & L & F)%writeUInt8_Ok. split; [done|]. intros i Hi. apply F. lia. Qed.

Lemma writeUInt16BE_agree buf buf' v offset :
  writeUInt16BE buf v offset = Ok buf' -> agree_below offset buf buf'.
Proof. intros (_ & L & F & _)%writeUInt16BE_Ok. split; [done|]. intros i Hi. apply F; lia. Qed.

Lemma writeUInt32BE_agree buf buf' v offset :
  writeUInt32BE buf v offset = Ok buf' -> agree_below offset buf buf'.
Proof. intros (_ & L & F)%writeUInt32BE_Ok. split; [done|]. intros i Hi. apply F; lia. Qed.

Lemma copy_agree source target target' ts ss se :
  copy source target ts ss se = Ok target' -> agree_below ts target target'.
Proof. intros [L F]%copy_Ok. by split. Qed.

Lemma copy_question_name_agree (originalMsg : Buffer) :
  forall (fuel : nat) (response response' : Buffer) (offset offset' : nat),
    copy_question_name fuel originalMsg response offset = Ok (response', offset') ->
    (offset <= offset')%nat /\ agree_below offset response response'.
Proof.
  induction fuel as [|fuel IH]; intros response response' offset offset'; [discriminate|].
  simpl. intros (b & Hb & H)%bind_Ok. rewrite Hb in H. simpl in H.
  destruct (b =? 0).
  - injection H as <- <-. split; [lia|apply agree_below_refl].
  - apply bind_Ok in H as (r & W & H). apply IH in H as [Hle Hag].
    split; [lia|]. apply writeUInt8_agree in W.
    eapply agree_below_trans; [|exact W|exact Hag]. lia.
Qed.

Lemma write_ip_parts_agree (ipParts : list jsstring) :
  forall (response response' : Buffer) (offset offset' : nat),
    write_ip_parts ipParts response offset = Ok (response', offset') ->
    offset' = (offset + length ipParts)%nat /\ agree_below offset response response'.
Proof.
  induction ipParts as [|part rest IH]; intros response response' offset offset'; simpl.
  - intros [= <- <-]. split; [lia|apply agree_below_refl].
  - intros (r & W & H)%bind_Ok. apply IH in H as [-> Hag].
    split; [lia|]. apply writeUInt8_agree in W.
    eapply agree_below_trans; [|exact W|exact Hag]. lia.
Qed.

(** The header of every answer: the first twelve bytes of the query with the
    flags set to 0x8180 and the answer count to 1; and the datagram fits the
    512 bytes allocated for it. *)
Lemma createDNSResponse_header (query : DNSQuery) (record : DNSRecord)
    (originalMsg response : Buffer) :
  createDNSResponse query record originalMsg = Ok response ->
  (12 <= length originalMsg)%nat ->
  (27 <= length response <= 512)%nat /\
  take 2 response = take 2 originalMsg /\
  readUInt16BE response 2 = Ok 0x8180 /\
  take 2 (drop 4 response) = take 2 (drop 4 originalMsg) /\
  readUInt16BE response 6 = Ok 1 /\
  take 4 (drop 8 response) = take 4 (drop 8 originalMsg).
Proof.
  unfold createDNSResponse. intros H Hlen.
  apply bind_Ok in H as (r1 & H1 & H).
  apply bind_Ok in H as (r2 & H2 & H).
  apply bind_Ok in H as (r3 & H3 & H).
  apply bind_Ok in H as ([r4 o4] & H4 & H).
  apply bind_Ok in H as (r5 & H5 & H).
  apply bind_Ok in H as (r6 & H6 & H).
  apply bind_Ok in H as (r7 & H7 & H).
  apply bind_Ok in H as (r8 & H8 & H).
  apply bind_Ok in H as (r9 & H9 & H).
  apply bind_Ok in H as (r10 & H10 & H).
  apply bind_Ok in H as ([r11 o11] & H11 & H).
  injection H as <-.
  (* the header after the first three statements *)
  assert (Hr3 : length r3 = 512%nat /\
                (forall i : nat, (i < 12)%nat -> i <> 2%nat -> i <> 3%nat -> i <> 6%nat -> i <> 7%nat ->
                            r3 !! i = originalMsg !! i) /\
                readUInt16BE r3 2 = Ok 0x8180 /\ readUInt16BE r3 6 = Ok 1).
  { rewrite copy_header in H1 by lia. apply Ok_inj in H1. subst r1.
    apply writeUInt16BE_Ok in H2 as (_ & L2 & F2 & E2 & E3).
    apply writeUInt16BE_Ok in H3 as (_ & L3 & F3 & E6 & E7).
    rewrite L3, L2. rewrite !length_app, !length_take, !length_replicate.
    split; [lia|]. split; [|split].
    - intros i Hi N2 N3 N6 N7. rewrite F3, F2 by lia.
      rewrite lookup_app_l by (rewrite length_take; lia).
      by rewrite lookup_take_lt.
    - unfold readUInt16BE. rewrite !F3 by lia.
      rewrite E2. rewrite E3. reflexivity.
    - unfold readUInt16BE. rewrite E6, E7. reflexivity. }
  destruct Hr3 as (L3 & F3 & Fl3 & An3).
  (* everything after that writes at offset 12 or beyond *)
  apply copy_question_name_agree in H4 as [Ho4 A4].
  apply writeUInt8_agree in H5. apply copy_agree in H6.
  apply writeUInt16BE_agree in H7, H8, H9. apply writeUInt32BE_agree in H10.
  assert (A11 : (o4 + 15 <= o11)%nat /\ agree_below 12 r10 r11).
  { case_decide.
    - apply bind_Ok in H11 as (r & W & H11). apply write_ip_parts_agree in H11 as [-> A].
      split; [lia|]. apply writeUInt16BE_agree in W.
      apply (agree_below_mono 12) in W, A; [|lia..].
      by eapply agree_below_trans; [|exact W|exact A].
    - apply Ok_inj in H11. injection H11 as <- <-. split; [lia|apply agree_below_refl]. }
  destruct A11 as [Ho11 A11].
  apply (agree_below_mono 12) in H5, H6, H7, H8, H9, H10; [|lia..].
  assert (A : agree_below 12 r3 r11).
  { repeat (eapply agree_below_trans; [reflexivity|eassumption|]).
    apply agree_below_refl. }
  destruct A as [L11 F11].
  assert (Hlook : forall i : nat, (i < 12)%nat -> slice0 r11 o11 !! i = r3 !! i).
  { intros i Hi. unfold slice0. rewrite lookup_take_lt by lia. by apply F11. }
  assert (Hrange : forall (k n : nat), (k + n <= 12)%nat ->
            (forall i : nat, (k <= i < k + n)%nat ->
                             i <> 2%nat /\ i <> 3%nat /\ i <> 6%nat /\ i <> 7%nat) ->
            take n (drop k (slice0 r11 o11)) = take n (drop k originalMsg)).
  { intros k n Hkn Hne. apply list_eq. intros i. destruct (decide (i < n)%nat).
    - rewrite !lookup_take_lt, !lookup_drop by lia. rewrite Hlook by lia.
      destruct (Hne (k + i)%nat) as (? & ? & ? & ?); [lia|]. by apply F3; [lia|..].
    - rewrite !lookup_take_ge by lia. done. }
  split; [|split; [|split; [|split; [|split]]]].
  - unfold slice0. rewrite length_take. lia.
  - apply (Hrange 0%nat 2%nat); [lia|]. intros; lia.
  - unfold readUInt16BE in *. rewrite !Hlook by lia. exact Fl3.
  - apply (Hrange 4%nat 2%nat); [lia|]. intros; lia.
  - unfold readUInt16BE in *. rewrite !Hlook by lia. exact An3.
  - apply (Hrange 8%nat 4%nat); [lia|]. intros; lia.
Qed.

(** The answer never outgrows the 512 bytes allocated for it. *)
Lemma createDNSResponse_length (query : DNSQuery) (record : DNSRecord)
    (originalMsg response : Buffer) :
  createDNSResponse query record originalMsg = Ok response ->
  (length response <= 512)%nat.
Proof.
  unfold createDNSResponse. intros H.
  apply bind_Ok in H as (r1 & H1 & H). apply copy_agree in H1 as [L1 _].
  apply bind_Ok in H as (r2 & H2 & H). apply writeUInt16BE_agree in H2 as [L2 _].
  apply bind_Ok in H as (r3 & H3 & H). apply writeUInt16BE_agree in H3 as [L3 _].
  apply bind_Ok in H as ([r4 o4] & H4 & H).
  apply copy_question_name_agree in H4 as [_ [L4 _]].
  apply bind_Ok in H as (r5 & H5 & H). apply writeUInt8_agree in H5 as [L5 _].
  apply bind_Ok in H as (r6 & H6 & H). apply copy_agree in H6 as [L6 _].
  apply bind_Ok in H as (r7 & H7 & H). apply writeUInt16BE_agree in H7 as [L7 _].
  apply bind_Ok in H as (r8 & H8 & H). apply writeUInt16BE_agree in H8 as [L8 _].
  apply bind_Ok in H as (r9 & H9 & H). apply writeUInt16BE_agree in H9 as [L9 _].
  apply bind_Ok in H as (r10 & H10 & H). apply writeUInt32BE_agree in H10 as [L10 _].
  apply bind_Ok in H as ([r11 o11] & H11 & H). apply Ok_inj in H. subst response.
  assert (L11 : length r11 = length r10).
  { case_decide.
    - apply bind_Ok in H11 as (r & W & H11).
      apply write_ip_parts_agree in H11 as [_ [-> _]].
      by apply writeUInt16BE_agree in W as [-> _].
    - apply Ok_inj in H11. by injection H11 as <- _. }
  unfold slice0. rewrite length_take.
  assert (length r1 = 512%nat) by (rewrite L1; unfold alloc; apply length_replicate).
  lia.
Qed.

(** * The dispatcher *)

Section Dispatcher.
Variable utf8Slice : list byte -> jsstring.
Variable toLowerCase : jsstring -> jsstring.

(** The four ways through [handleDNSQuery]. *)
Lemma handleDNSQuery_malformed dnsRecords msg rinfo e :
  parseDNSQuery utf8Slice msg = Throw e ->
  handleDNSQuery utf8Slice toLowerCase dnsRecords msg rinfo
  = (errorResponse ← createDNSErrorResponse msg;
     Ok (ServerSend errorResponse (port rinfo) (address rinfo))).
Proof. intros P. unfold handleDNSQuery. by rewrite P. Qed.

Lemma handleDNSQuery_miss dnsRecords msg rinfo query :
  parseDNSQuery utf8Slice msg = Ok query ->
  dnsRecords !! toLowerCase (domain query) = None ->
  handleDNSQuery utf8Slice toLowerCase dnsRecords msg rinfo
  = Ok (ForwardDNSQuery msg rinfo query).
Proof. intros P L. unfold handleDNSQuery. rewrite P. simpl. by rewrite L. Qed.

Lemma handleDNSQuery_hit dnsRecords msg rinfo query record response :
  parseDNSQuery utf8Slice msg = Ok query ->
  dnsRecords !! toLowerCase (domain query) = Some record ->
  createDNSResponse query record msg = Ok response ->
  handleDNSQuery utf8Slice toLowerCase dnsRecords msg rinfo
  = Ok (ServerSend response (port rinfo) (address rinfo)).
Proof. intros P L C. unfold handleDNSQuery. rewrite P. simpl. rewrite L, C. done. Qed.

Lemma handleDNSQuery_hit_throws dnsRecords msg rinfo query record e :
  parseDNSQuery utf8Slice msg = Ok query ->
  dnsRecords !! toLowerCase (domain query) = Some record ->
  createDNSResponse query record msg = Throw e ->
  handleDNSQuery utf8Slice toLowerCase dnsRecords msg rinfo
  = (errorResponse ← createDNSErrorResponse msg;
     Ok (ServerSend errorResponse (port rinfo) (address rinfo))).
Proof. intros P L C. unfold handleDNSQuery. rewrite P. simpl. rewrite L, C. done. Qed.

(** On a datagram of four bytes or more that does not parse, the handler
    sends the synthesized error response to the sender and returns. *)
Lemma malformed_query_answered dnsRecords msg rinfo e :
  parseDNSQuery utf8Slice msg = Throw e ->
  (4 <= length msg)%nat ->
  exists response,
    handleDNSQuery utf8Slice toLowerCase dnsRecords msg rinfo
      = Ok (ServerSend response (port rinfo) (address rinfo)) /\
    error_response_of msg response.
Proof.
  intros P Hlen. destruct (createDNSErrorResponse_flags msg Hlen) as (r & E & S).
  exists r. split; [|exact S]. rewrite (handleDNSQuery_malformed _ _ _ _ P). by rewrite E.
Qed.

(** A query that parses has a header. *)
Lemma parseDNSQuery_length msg query :
  parseDNSQuery utf8Slice msg = Ok query -> (12 <= length msg)%nat.
Proof.
  unfold parseDNSQuery. intros H.
  do 5 (apply bind_Ok in H as (? & _ & H)).
  apply bind_Ok in H as (? & R & _). apply readUInt16BE_lt in R. lia.
Qed.

End Dispatcher.

(** C7 fails for the error response: a 513-byte datagram whose labels run
    past its end is answered with a 513-byte error response. *)
Lemma error_response_exceeds_512 :
  exists response,
    handleDNSQuery ascii_utf8Slice ascii_toLowerCase svc_store oversized_datagram sample_rinfo
      = Ok (ServerSend response (port sample_rinfo) (address sample_rinfo)) /\
    createDNSErrorResponse oversized_datagram = Ok response /\
    ~ (length response <= 512)%nat.
Proof.
  destruct (createDNSErrorResponse_Ok oversized_datagram) as [response E].
  { unfold oversized_datagram. rewrite length_replicate. lia. }
  exists response. split; [|split; [exact E|]].
  - rewrite (handleDNSQuery_malformed _ _ _ _ _ RangeError) by (vm_compute; reflexivity).
    by rewrite E.
  - apply createDNSErrorResponse_length in E. rewrite E.
    unfold oversized_datagram. rewrite length_replicate. lia.
Qed.

(** C7, amended. The serialize-answer output is at most 512 bytes long; the
    synthesized error response is exactly as long as the datagram it answers
    (so at most 512 bytes when, and only when, that datagram is). *)
Theorem response_lengths (query : DNSQuery) (record : DNSRecord)
    (originalMsg answer failedMsg errorResponse : Buffer) :
  createDNSResponse query record originalMsg = Ok answer ->
  createDNSErrorResponse failedMsg = Ok errorResponse ->
  (length answer <= 512)%nat /\ length errorResponse = length failedMsg.
Proof.
  intros Ha He. split.
  - by eapply createDNSResponse_length.
  - by apply createDNSErrorResponse_length.
Qed.

Lemma response_lengths_witness :
  exists answer errorResponse,
    createDNSResponse svc_parsed svc_record svc_query = Ok answer /\
    createDNSErrorResponse svc_query = Ok errorResponse /\
    (length answer <= 512)%nat /\ length errorResponse = length svc_query.
Proof.
  destruct (createDNSResponse svc_parsed svc_record svc_query) as [answer| |] eqn:Ha;
    [|vm_compute in Ha; discriminate..].
  destruct (createDNSErrorResponse svc_query) as [errorResponse| |] eqn:He;
    [|vm_compute in He; discriminate..].
  exists answer, errorResponse.
  exact (conj eq_refl (conj eq_refl
           (response_lengths svc_parsed svc_record svc_query answer svc_query
              errorResponse Ha He))).
Defined.

(** C3 fails on a datagram shorter than four bytes: parsing throws, and so
    does building the error response in the [catch] block, so the exception
    leaves [handleDNSQuery] and nothing is sent. *)
Theorem tiny_datagram_escapes_handler
    (utf8Slice : list byte -> jsstring) (toLowerCase : jsstring -> jsstring)
    (dnsRecords : gmap jsstring DNSRecord) (rinfo : RemoteInfo) :
  parseDNSQuery utf8Slice tiny_datagram = Throw RangeError /\
  createDNSErrorResponse tiny_datagram = Throw RangeError /\
  handleDNSQuery utf8Slice toLowerCase dnsRecords tiny_datagram rinfo = Throw RangeError.
Proof. repeat split; reflexivity. Qed.

(** The same on every datagram shorter than four bytes. *)
Lemma short_datagram_escapes_handler
    (utf8Slice : list byte -> jsstring) (toLowerCase : jsstring -> jsstring)
    (dnsRecords : gmap jsstring DNSRecord) (msg : Buffer) (rinfo : RemoteInfo) :
  (length msg < 4)%nat ->
  handleDNSQuery utf8Slice toLowerCase dnsRecords msg rinfo = Throw RangeError.
Proof.
  intros Hlen.
  assert (Hparse : parseDNSQuery utf8Slice msg = Throw RangeError).
  { unfold parseDNSQuery.
    destruct (readUInt16BE msg 0) as [id|e|] eqn:E0.
    - rewrite bind_Ok_l, (readUInt16BE_short msg 2) by lia. reflexivity.
    - by apply readUInt16BE_Throw in E0 as ->.
    - by apply readUInt16BE_not_Diverge in E0. }
  rewrite (handleDNSQuery_malformed _ _ _ _ _ _ Hparse).
  unfold createDNSErrorResponse. rewrite copy_all, bind_Ok_l.
  unfold writeUInt16BE. cbn [Z.gtb Z.ltb Z.compare orb Pos.compare Pos.compare_cont].
  destruct (msg !! 2%nat); [|reflexivity].
  by rewrite (proj2 (lookup_ge_None msg (2 + 1)) ltac:(lia)).
Qed.


(** C4 fails for every record that is not of type A: the type field of the
    answer is the constant 1 in both arms of the conditional.  Here
    [svc.local] is stored as an AAAA record (type code 28) and the answer to
    a query for it carries type 1 at offset 29, after the two-byte name
    pointer at offset 27; the record ends after the TTL, with no data length
    and no data. *)
Theorem aaaa_record_answered_as_type_1 :
  lookup_record ascii_toLowerCase aaaa_store (js "svc.local")
    = Some {| rtype := js "AAAA"; value := js "::1"; ttl := 300 |} /\
  handleDNSQuery ascii_utf8Slice ascii_toLowerCase aaaa_store svc_query sample_rinfo
    = Ok (ServerSend
            (bytes [0x12; 0x34; 0x81; 0x80; 0; 1; 0; 1; 0; 0; 0; 0;
                    3; 115; 118; 99; 5; 108; 111; 99; 97; 108; 0; 0; 1; 0; 1;
                    0xC0; 0x0C; 0; 1; 0; 1; 0; 0; 1; 44])
            (port sample_rinfo) (address sample_rinfo)) /\
  getTypeString 28 = js "AAAA" /\
  forall response to_port to_address,
    handleDNSQuery ascii_utf8Slice ascii_toLowerCase aaaa_store svc_query sample_rinfo
      = Ok (ServerSend response to_port to_address) ->
    readUInt16BE response 29 = Ok 1.
Proof.
  assert (H : handleDNSQuery ascii_utf8Slice ascii_toLowerCase aaaa_store svc_query sample_rinfo
    = Ok (ServerSend
            (bytes [0x12; 0x34; 0x81; 0x80; 0; 1; 0; 1; 0; 0; 0; 0;
                    3; 115; 118; 99; 5; 108; 111; 99; 97; 108; 0; 0; 1; 0; 1;
                    0xC0; 0x0C; 0; 1; 0; 1; 0; 0; 1; 44])
            (port sample_rinfo) (address sample_rinfo))) by (vm_compute; reflexivity).
  split; [vm_compute; reflexivity|]. split; [exact H|]. split; [reflexivity|].
  intros response to_port to_address H'. rewrite H in H'.
  apply Ok_inj in H'. injection H' as <- _ _. vm_compute. reflexivity.
Qed.

(** * The forwarder *)

(** When the deadline passes first, the client gets the synthesized error
    response, and an upstream reply that arrives later is not delivered (the
    socket is closed). *)
Lemma timer_then_reply (msg late : Buffer) :
  (4 <= length msg)%nat ->
  exists errorResponse,
    createDNSErrorResponse msg = Ok errorResponse /\
    run msg [TimerFired] =
      {| socket_open := false; timer_armed := false;
         to_client := [errorResponse]; uncaught := None |} /\
    run msg [TimerFired; UpstreamMessage late] = run msg [TimerFired].
Proof.
  intros (e & E)%createDNSErrorResponse_Ok. exists e. split; [exact E|].
  unfold run. simpl. unfold step. simpl. rewrite E. simpl. done.
Qed.

(** C2 fails when the upstream reply comes first: the reply is relayed and
    the socket closed, but the timer is still armed, and when it fires its
    callback calls [close()] on the closed socket, which throws.  The
    exception is not caught. *)
Theorem reply_then_timer_throws (msg response : Buffer) :
  run msg [UpstreamMessage response] =
    {| socket_open := false; timer_armed := true;
       to_client := [response]; uncaught := None |} /\
  run msg [UpstreamMessage response; TimerFired] =
    {| socket_open := false; timer_armed := false;
       to_client := [response]; uncaught := Some ERR_SOCKET_DGRAM_NOT_RUNNING |}.
Proof. split; reflexivity. Qed.

(** * Writing into the zero-filled tail of a buffer

    [createDNSResponse] fills its 512 zero bytes from left to right; each
    primitive turns [w ++ zeros] into [(w ++ new) ++ zeros]. *)

Lemma writeUInt8_append (w : Buffer) (n : nat) (v : Z) (offset : nat) :
  offset = length w -> (1 <= n)%nat -> 0 <= v <= 255 ->
  writeUInt8 (w ++ replicate n x00) (Int v) offset
  = Ok ((w ++ [byte_of v]) ++ replicate (n - 1) x00).
Proof.
  intros -> Hn Hv. unfold writeUInt8.
  replace ((v >? 255) || (v <? 0)) with false by lia.
  destruct n as [|n]; [lia|]. rewrite replicate_S.
  rewrite list_lookup_middle by done.
  rewrite insert_app_r_alt, Nat.sub_diag by lia. simpl.
  by rewrite Nat.sub_0_r, <- app_assoc.
Qed.

Lemma writeUInt16BE_append (w : Buffer) (n : nat) (v : Z) (offset : nat) :
  offset = length w -> (2 <= n)%nat -> 0 <= v <= 65535 ->
  writeUInt16BE (w ++ replicate n x00) v offset
  = Ok ((w ++ be16 v) ++ replicate (n - 2) x00).
Proof.
  intros -> Hn Hv.
  rewrite writeUInt16BE_eq by (rewrite ?length_app, ?length_replicate; lia).
  destruct n as [|[|n]]; [lia..|]. rewrite !replicate_S.
  rewrite (insert_app_r_alt _ _ (length w)), Nat.sub_diag by lia.
  rewrite (insert_app_r_alt _ _ (length w + 1)) by lia.
  replace (length w + 1 - length w)%nat with 1%nat by lia. simpl.
  by rewrite Nat.sub_0_r, <- app_assoc.
Qed.

Lemma writeUInt32BE_append (w : Buffer) (n : nat) (v : Z) (offset : nat) :
  offset = length w -> (4 <= n)%nat -> 0 <= v <= 4294967295 ->
  writeUInt32BE (w ++ replicate n x00) v offset
  = Ok ((w ++ be32 v) ++ replicate (n - 4) x00).
Proof.
  intros -> Hn Hv. unfold writeUInt32BE.
  replace ((v >? 4294967295) || (v <? 0)) with false by lia.
  destruct n as [|[|[|[|n]]]]; [lia..|]. rewrite !replicate_S.
  rewrite list_lookup_middle by done.
  rewrite (lookup_app_r _ _ (length w + 3)) by lia.
  replace (length w + 3 - length w)%nat with 3%nat by lia. simpl lookup.
  rewrite (insert_app_r_alt _ _ (length w)), Nat.sub_diag by lia.
  rewrite (insert_app_r_alt _ _ (length w + 1)) by lia.
  rewrite (insert_app_r_alt _ _ (length w + 2)) by lia.
  rewrite (insert_app_r_alt _ _ (length w + 3)) by lia.
  replace (length w + 1 - length w)%nat with 1%nat by lia.
  replace (length w + 2 - length w)%nat with 2%nat by lia.
  replace (length w + 3 - length w)%nat with 3%nat by lia. simpl.
  by rewrite Nat.sub_0_r, <- app_assoc.
Qed.

Lemma copy_append (source w chunk : Buffer) (n k offset : nat) :
  offset = length w -> take k (drop offset source) = chunk -> length chunk = k ->
  (0 < k <= n)%nat ->
  copy source (w ++ replicate n x00) offset offset (offset + k)
  = Ok ((w ++ chunk) ++ replicate (n - k) x00).
Proof.
  intros -> Hchunk Hk Hkn.
  assert (Hsrc : (length w + k <= length source)%nat).
  { rewrite <- Hchunk, length_take, length_drop in Hk. lia. }
  rewrite copy_eq by (rewrite ?length_app, ?length_replicate; lia).
  rewrite length_app, length_replicate.
  replace (Nat.min (length w + k - length w)
             (Nat.min (length w + n - length w) (length source - length w)))
    with k by lia.
  rewrite Hchunk, take_app_length, drop_app_add', drop_replicate, <- app_assoc by done.
  reflexivity.
Qed.

Lemma answer_header_length (hdr : Buffer) : length (answer_header hdr) = length hdr.
Proof. unfold answer_header. by rewrite !length_insert. Qed.

(** The copy loop on a run of non-zero octets followed by a zero. *)
Lemma copy_question_name_octets (octets : Buffer) :
  forall (pre post w : Buffer) (n fuel offset : nat),
    Forall (fun b : byte => b <> x00) octets ->
    offset = length w ->
    length pre = length w -> (length octets <= n)%nat -> (length octets < fuel)%nat ->
    copy_question_name fuel (pre ++ octets ++ x00 :: post) (w ++ replicate n x00) offset
    = Ok ((w ++ octets) ++ replicate (n - length octets) x00,
          (length w + length octets)%nat).
Proof.
  induction octets as [|b octets IH]; intros pre post w n fuel offset Hnz -> Hpre Hn Hfuel.
  - destruct fuel as [|fuel]; [simpl in Hfuel; lia|]. simpl copy_question_name.
    unfold readUInt8. rewrite <- Hpre, list_lookup_middle by done. simpl.
    by rewrite app_nil_r, Nat.sub_0_r, Nat.add_0_r.
  - destruct fuel as [|fuel]; [simpl in Hfuel; lia|]. simpl copy_question_name.
    apply Forall_cons in Hnz as [Hb Hnz].
    unfold readUInt8. rewrite <- Hpre, list_lookup_middle by done. rewrite !bind_Ok_l.
    destruct (u8 b =? 0) eqn:E.
    { exfalso. apply Hb. apply u8_inj. apply Z.eqb_eq in E. rewrite E. reflexivity. }
    rewrite Hpre.
    rewrite writeUInt8_append by (simpl in Hn; pose proof (u8_range b); lia).
    rewrite bind_Ok_l, byte_of_u8.
    replace (S (length w)) with (length (w ++ [b])) by (rewrite length_app; simpl; lia).
    rewrite (cons_middle b pre), (app_assoc pre [b]).
    rewrite IH; [|done|done|rewrite !length_app; simpl; lia|simpl in Hn; lia|simpl in Hfuel; lia].
    rewrite <- ?app_assoc. simpl. rewrite ?length_app. simpl.
    replace (n - 1 - length octets)%nat with (n - S (length octets))%nat by lia.
    replace (length w + 1 + length octets)%nat with (length w + S (length octets))%nat by lia.
    reflexivity.
Qed.

(** * Dotted quads *)

Lemma split_no_separator (sep : Z) (p : jsstring) :
  Forall (fun c => c <> sep) p -> split sep p = [p].
Proof.
  induction p as [|c p IH]; intros H; [reflexivity|].
  apply Forall_cons in H as [Hc Hp]. simpl.
  replace (c =? sep) with false by lia. by rewrite IH.
Qed.

Lemma split_app (sep : Z) (p s : jsstring) :
  Forall (fun c => c <> sep) p -> split sep (p ++ sep :: s) = p :: split sep s.
Proof.
  induction p as [|c p IH]; intros H; simpl.
  - by rewrite Z.eqb_refl.
  - apply Forall_cons in H as [Hc Hp].
    replace (c =? sep) with false by lia. by rewrite IH.
Qed.

Lemma digit_not_white_space (c : Z) : 48 <= c <= 57 -> is_white_space c = false.
Proof.
  intros Hc. unfold is_white_space. apply orb_false_iff. split; [|lia].
  apply bool_decide_eq_false. rewrite !elem_of_cons, elem_of_nil. lia.
Qed.

Lemma parse_digits_decimal (s : jsstring) :
  forall acc : option Z,
    Forall (fun c => 48 <= c <= 57) s ->
    parse_digits 10 s acc
    = match s with
      | [] => acc
      | _ => Some (foldl (fun acc c => 10 * acc + (c - 48)) (default 0 acc) s)
      end.
Proof.
  induction s as [|c s IH]; intros acc H; [reflexivity|].
  apply Forall_cons in H as [Hc Hs]. simpl.
  unfold digit_value. replace ((48 <=? c) && (c <=? 57)) with true by lia.
  replace (c - 48 <? 10) with true by lia.
  rewrite IH by done. by destruct s.
Qed.

Lemma foldl_digits_nonneg (s : jsstring) :
  forall acc : Z,
    0 <= acc -> Forall (fun c => 48 <= c <= 57) s ->
    0 <= foldl (fun acc c => 10 * acc + (c - 48)) acc s.
Proof.
  induction s as [|c s IH]; intros acc Hacc H; [done|].
  apply Forall_cons in H as [Hc Hs]. simpl. apply IH; [lia|done].
Qed.

(** [parseInt] reads a decimal numeral as its value. *)
Lemma parseInt_decimal (s : jsstring) (n : Z) :
  decimal_octet s n -> parseInt s = Int n /\ 0 <= n <= 255.
Proof.
  intros (Hne & Hd & Hv & Hmax). split.
  2: { split; [|done]. rewrite <- Hv. by apply foldl_digits_nonneg. }
  destruct s as [|c s]; [done|]. clear Hne.
  pose proof Hd as Hd'. apply Forall_cons in Hd' as [Hc Hs].
  unfold parseInt. cbn [skip_white_space]. rewrite digit_not_white_space by done.
  replace (c =? 45) with false by lia. replace (c =? 43) with false by lia.
  cbn [orb].
  assert (Hhex : match c :: s with
                 | c0 :: c1 :: _ => (c0 =? 48) && ((c1 =? 120) || (c1 =? 88))
                 | _ => false
                 end = false).
  { destruct s as [|c1 s]; [done|]. apply Forall_cons in Hs as [Hc1 _]. lia. }
  rewrite Hhex. rewrite parse_digits_decimal by done.
  unfold digits_value in Hv. simpl default. rewrite Hv. f_equal. lia.
Qed.

Lemma decimal_octet_no_dot (s : jsstring) (n : Z) :
  decimal_octet s n -> Forall (fun c => c <> 46) s.
Proof. intros (_ & Hd & _). eapply Forall_impl; [exact Hd|]. simpl. lia. Qed.

(** The parts of a dotted quad and what [parseInt] makes of them. *)
Lemma dotted_quad_parts (s : jsstring) (a b c d : Z) :
  dotted_quad s a b c d ->
  exists sa sb sc sd,
    split 46 s = [sa; sb; sc; sd] /\
    parseInt sa = Int a /\ parseInt sb = Int b /\ parseInt sc = Int c /\ parseInt sd = Int d /\
    0 <= a <= 255 /\ 0 <= b <= 255 /\ 0 <= c <= 255 /\ 0 <= d <= 255.
Proof.
  intros (sa & sb & sc & sd & -> & Ha & Hb & Hc & Hd).
  exists sa, sb, sc, sd.
  pose proof (decimal_octet_no_dot _ _ Ha). pose proof (decimal_octet_no_dot _ _ Hb).
  pose proof (decimal_octet_no_dot _ _ Hc). pose proof (decimal_octet_no_dot _ _ Hd).
  apply parseInt_decimal in Ha as [-> ?], Hb as [-> ?], Hc as [-> ?], Hd as [-> ?].
  split; [|done]. simpl app.
  by rewrite !split_app, split_no_separator.
Qed.

(** The four address octets go into the buffer one after the other. *)
Lemma write_ip_parts_octets (sa sb sc sd : jsstring) (a b c d : Z)
    (w : Buffer) (n offset : nat) :
  parseInt sa = Int a -> parseInt sb = Int b -> parseInt sc = Int c -> parseInt sd = Int d ->
  0 <= a <= 255 -> 0 <= b <= 255 -> 0 <= c <= 255 -> 0 <= d <= 255 ->
  offset = length w -> (4 <= n)%nat ->
  write_ip_parts [sa; sb; sc; sd] (w ++ replicate n x00) offset
  = Ok ((w ++ [byte_of a; byte_of b; byte_of c; byte_of d]) ++ replicate (n - 4) x00,
        (offset + 4)%nat).
Proof.
  intros Pa Pb Pc Pd Ha Hb Hc Hd -> Hn. cbn [write_ip_parts].
  rewrite Pa, Pb, Pc, Pd.
  rewrite writeUInt8_append by (done || lia). rewrite bind_Ok_l.
  rewrite writeUInt8_append by (rewrite ?length_app; simpl; lia || done). rewrite bind_Ok_l.
  rewrite writeUInt8_append by (rewrite ?length_app; simpl; lia || done). rewrite bind_Ok_l.
  rewrite writeUInt8_append by (rewrite ?length_app; simpl; lia || done). rewrite bind_Ok_l.
  rewrite <- !app_assoc. simpl.
  replace (n - 1 - 1 - 1 - 1)%nat with (n - 4)%nat by lia.
  replace (S (S (S (S (length w))))) with (length w + 4)%nat by lia.
  reflexivity.
Qed.

(** * Serialize-answer on a question without zero octets *)

Lemma writeUInt16BE_header (h : Buffer) (n : nat) (v : Z) (offset : nat) :
  (offset + 1 < length h)%nat -> 0 <= v <= 65535 ->
  writeUInt16BE (h ++ replicate n x00) v offset
  = Ok (<[(offset + 1)%nat := byte_of v]> (<[offset := byte_of (Z.shiftr v 8)]> h)
          ++ replicate n x00).
Proof.
  intros Hoff Hv. rewrite writeUInt16BE_eq by (rewrite ?length_app; lia).
  by rewrite !insert_app_l by (rewrite ?length_insert; lia).
Qed.

(** The question echo on a query whose first question is [octets], a zero
    octet and [qtype_qclass]: when the answer section starts, the buffer holds
    the header with flags and answer count rewritten and the first question
    as it came; nothing of what follows the first question is in it. *)
Lemma createDNSResponse_question (query : DNSQuery) (record : DNSRecord)
    (hdr octets qtype_qclass rest : Buffer) :
  length hdr = 12%nat ->
  Forall (fun o : byte => o <> x00) octets ->
  (length octets <= 254)%nat ->
  length qtype_qclass = 4%nat ->
  createDNSResponse query record (hdr ++ octets ++ x00 :: qtype_qclass ++ rest)
  = answer_section record
      ((answer_header hdr ++ octets ++ x00 :: qtype_qclass)
         ++ replicate (495 - length octets) x00)
      (17 + length octets).
Proof.
  intros Hhdr Hnz Hoct Hqt.
  unfold createDNSResponse.
  rewrite copy_header by (rewrite length_app; lia).
  rewrite take_app_length' by done. rewrite bind_Ok_l.
  rewrite writeUInt16BE_header by lia. rewrite bind_Ok_l.
  rewrite writeUInt16BE_header by (rewrite ?length_insert; lia). rewrite bind_Ok_l.
  change (<[(6 + 1)%nat:=byte_of 1]> (<[6%nat:=byte_of (Z.shiftr 1 8)]>
            (<[(2 + 1)%nat:=byte_of 33152]> (<[2%nat:=byte_of (Z.shiftr 33152 8)]> hdr))))
    with (answer_header hdr).
  rewrite (copy_question_name_octets octets hdr (qtype_qclass ++ rest) (answer_header hdr))
    by (done || rewrite ?answer_header_length, ?length_app; cbn [length]; lia).
  rewrite bind_Ok_l. cbv beta iota zeta.
  rewrite writeUInt8_append by (buffer_length answer_header_length || lia). rewrite bind_Ok_l.
  assert (Hchunk : take 4 (drop (S (length (answer_header hdr) + length octets))
                             (hdr ++ octets ++ x00 :: qtype_qclass ++ rest)) = qtype_qclass).
  { rewrite (app_assoc hdr octets), (cons_middle x00), (app_assoc (hdr ++ octets)).
    rewrite drop_app_length' by buffer_length answer_header_length. by rewrite take_app_length'. }
  rewrite (copy_append _ _ qtype_qclass) by (first [buffer_length answer_header_length | done]).
  rewrite bind_Ok_l. fold (answer_section record).
  rewrite <- !app_assoc. cbn [app]. change (byte_of 0) with x00.
  rewrite answer_header_length, Hhdr.
  replace (500 - length octets - 1 - 4)%nat with (495 - length octets)%nat by lia.
  replace (S (12 + length octets) + 4)%nat with (17 + length octets)%nat by lia.
  by rewrite !app_assoc.
Qed.

(** The answer to such a query built from an A record with a dotted-quad
    value: the header, the first question, and the resource record. *)
Lemma createDNSResponse_A (query : DNSQuery) (record : DNSRecord)
    (hdr octets qtype_qclass rest : Buffer) (a b c d : Z) :
  length hdr = 12%nat ->
  Forall (fun o : byte => o <> x00) octets ->
  (length octets <= 254)%nat ->
  length qtype_qclass = 4%nat ->
  rtype record = js "A" ->
  dotted_quad (value record) a b c d ->
  0 <= ttl record <= 4294967295 ->
  createDNSResponse query record (hdr ++ octets ++ x00 :: qtype_qclass ++ rest)
  = Ok (answer_header hdr ++ octets ++ x00 :: qtype_qclass
          ++ a_record (ttl record) a b c d).
Proof.
  intros Hhdr Hnz Hoct Hqt Htype Hquad Httl.
  destruct (dotted_quad_parts _ _ _ _ _ Hquad)
    as (sa & sb & sc & sd & Hsplit & Pa & Pb & Pc & Pd & Ha & Hb & Hc & Hd).
  rewrite createDNSResponse_question by done. unfold answer_section.
  rewrite writeUInt16BE_append by (buffer_length answer_header_length || lia). rewrite bind_Ok_l.
  assert (Hone : (if decide (rtype record = js "A") then 1 else 1) = 1) by (by case_decide).
  rewrite Hone.
  rewrite writeUInt16BE_append by (buffer_length answer_header_length || lia). rewrite bind_Ok_l.
  rewrite writeUInt16BE_append by (buffer_length answer_header_length || lia). rewrite bind_Ok_l.
  rewrite writeUInt32BE_append by (buffer_length answer_header_length || lia). rewrite bind_Ok_l.
  destruct (decide (rtype record = js "A")) as [_|N]; [|done].
  rewrite writeUInt16BE_append by (buffer_length answer_header_length || lia). rewrite bind_Ok_l.
  rewrite Hsplit.
  rewrite (write_ip_parts_octets sa sb sc sd a b c d) by (done || buffer_length answer_header_length).
  rewrite bind_Ok_l. cbv beta iota zeta.
  unfold slice0. rewrite take_app_length' by buffer_length answer_header_length.
  rewrite <- !app_assoc. reflexivity.
Qed.

(** * Parsing a well-formed query *)

Lemma encode_name_cons (l : list byte) (ls : list (list byte)) :
  encode_name (l :: ls) = (byte_of (Z.of_nat (length l)) :: l) ++ encode_name ls.
Proof. unfold encode_name, name_octets. simpl. by rewrite <- !app_assoc. Qed.

Lemma encode_name_length (labels : list (list byte)) :
  (length labels < length (encode_name labels))%nat.
Proof.
  induction labels as [|l ls IH]; [simpl; lia|].
  rewrite encode_name_cons, length_app. simpl. lia.
Qed.

Lemma readUInt16BE_app_l (h rest : Buffer) (offset : nat) :
  (offset + 1 < length h)%nat -> readUInt16BE (h ++ rest) offset = readUInt16BE h offset.
Proof. intros H. unfold readUInt16BE. by rewrite !lookup_app_l by lia. Qed.

Lemma readUInt16BE_app_r (pre l : Buffer) (offset i : nat) :
  offset = (length pre + i)%nat -> readUInt16BE (pre ++ l) offset = readUInt16BE l i.
Proof.
  intros ->. unfold readUInt16BE. rewrite !lookup_app_r by lia.
  by replace (length pre + i - length pre)%nat with i by lia;
     replace (length pre + i + 1 - length pre)%nat with (i + 1)%nat by lia.
Qed.

Lemma readUInt16BE_Ok_2 (l : Buffer) (offset : nat) :
  (offset + 1 < length l)%nat -> exists v, readUInt16BE l offset = Ok v.
Proof.
  intros H. unfold readUInt16BE.
  destruct (lookup_lt_is_Some_2 l offset ltac:(lia)) as [b0 ->].
  destruct (lookup_lt_is_Some_2 l (offset + 1) ltac:(lia)) as [b1 ->]. eauto.
Qed.

Section Parse.
Variable utf8Slice : list byte -> jsstring.

Lemma parse_labels_encoded (labels : list (list byte)) :
  forall (pre post : Buffer) (acc : list jsstring) (fuel offset : nat),
    Forall (fun l : list byte => (1 <= length l <= 255)%nat) labels ->
    offset = length pre -> (length labels < fuel)%nat ->
    parse_labels utf8Slice fuel (pre ++ encode_name labels ++ post) offset acc
    = Ok (acc ++ map utf8Slice labels, (offset + length (encode_name labels))%nat).
Proof.
  induction labels as [|l ls IH]; intros pre post acc fuel offset Hl -> Hfuel.
  - destruct fuel as [|fuel]; [simpl in Hfuel; lia|]. cbn [parse_labels].
    unfold readUInt8. change (encode_name []) with [x00]. cbn [app].
    rewrite list_lookup_middle by done. rewrite bind_Ok_l. cbn [Z.eqb u8 Byte.to_N Z.of_N].
    rewrite app_nil_r. cbn [length]. do 2 f_equal. lia.
  - destruct fuel as [|fuel]; [simpl in Hfuel; lia|]. cbn [parse_labels].
    apply Forall_cons in Hl as [Hlen Hls].
    rewrite encode_name_cons. unfold readUInt8.
    rewrite <- (app_assoc (_ :: l)). cbn [app].
    rewrite list_lookup_middle by done. rewrite bind_Ok_l.
    rewrite u8_byte_of by lia.
    replace (Z.of_nat (length l) =? 0) with false by lia.
    rewrite Nat2Z.id.
    assert (Hlabel : toString_utf8 utf8Slice
              (pre ++ byte_of (Z.of_nat (length l)) :: l ++ encode_name ls ++ post)
              (length pre + 1) (length pre + 1 + length l) = utf8Slice l).
    { unfold toString_utf8. rewrite !length_app. cbn [length]. rewrite !length_app.
      replace (_ <=? _)%nat with false by (symmetry; apply Nat.leb_gt; lia).
      replace (Nat.min (length pre + 1 + length l)
                 (length pre + S (length l + (length (encode_name ls) + length post))))
        with (length pre + 1 + length l)%nat by lia.
      replace (_ <=? _)%nat with false by (symmetry; apply Nat.leb_gt; lia).
      replace (length pre + 1 + length l - (length pre + 1))%nat with (length l) by lia.
      rewrite (cons_middle _ pre), (app_assoc pre).
      rewrite drop_app_length' by (rewrite length_app; cbn [length]; lia).
      by rewrite take_app_length. }
    rewrite Hlabel.
    rewrite (cons_middle _ pre), (app_assoc pre), (app_assoc (pre ++ _) l).
    rewrite IH by (done || rewrite ?length_app; cbn [length] in *; lia).
    rewrite <- app_assoc. cbn [map app length]. rewrite length_app.
    f_equal. f_equal. lia.
Qed.

(** A well-formed query parses: the domain is the labels joined by dots,
    type and class are the two fields after the name. *)
Lemma parseDNSQuery_well_formed (msg hdr : Buffer) (labels : list (list byte))
    (qtype_qclass rest : Buffer) :
  msg = hdr ++ encode_name labels ++ qtype_qclass ++ rest ->
  length hdr = 12%nat ->
  Forall (fun l : list byte => (1 <= length l <= 255)%nat) labels ->
  length qtype_qclass = 4%nat ->
  exists query,
    parseDNSQuery utf8Slice msg = Ok query /\
    domain query = join (js ".") (map utf8Slice labels) /\
    readUInt16BE qtype_qclass 0 = Ok (type query) /\
    readUInt16BE qtype_qclass 2 = Ok (class query) /\
    readUInt16BE hdr 0 = Ok (hdr_id (header query)) /\
    readUInt16BE hdr 4 = Ok (hdr_qdcount (header query)).
Proof.
  intros -> Hhdr Hl Hqt. unfold parseDNSQuery.
  rewrite !readUInt16BE_app_l by lia.
  destruct (readUInt16BE_Ok_2 hdr 0 ltac:(lia)) as [id ->].
  destruct (readUInt16BE_Ok_2 hdr 2 ltac:(lia)) as [flags ->].
  destruct (readUInt16BE_Ok_2 hdr 4 ltac:(lia)) as [qd ->].
  destruct (readUInt16BE_Ok_2 hdr 6 ltac:(lia)) as [an ->].
  destruct (readUInt16BE_Ok_2 hdr 8 ltac:(lia)) as [ns ->].
  destruct (readUInt16BE_Ok_2 hdr 10 ltac:(lia)) as [ar ->].
  rewrite !bind_Ok_l.
  rewrite (parse_labels_encoded labels hdr (qtype_qclass ++ rest) [] _ 12 Hl);
    [|done|rewrite !length_app; pose proof (encode_name_length labels); lia].
  rewrite bind_Ok_l. cbv beta iota zeta.
  rewrite (app_assoc hdr).
  rewrite (readUInt16BE_app_r _ _ (12 + length (encode_name labels)) 0)
    by (rewrite length_app; lia).
  rewrite (readUInt16BE_app_r _ _ (12 + length (encode_name labels) + 2) 2)
    by (rewrite length_app; lia).
  rewrite !readUInt16BE_app_l by lia.
  destruct (readUInt16BE_Ok_2 qtype_qclass 0 ltac:(lia)) as [ty ->].
  destruct (readUInt16BE_Ok_2 qtype_qclass 2 ltac:(lia)) as [cl ->].
  rewrite !bind_Ok_l. eexists. split; [reflexivity|]. cbn. done.
Qed.

End Parse.

(** * Reading the answer back *)

Lemma u8_byte_of_mod (z : Z) : u8 (byte_of z) = z mod 256.
Proof.
  unfold byte_of. pose proof (Z.mod_pos_bound z 256 ltac:(lia)) as Hm.
  destruct (Byte.of_N (Z.to_N (z mod 256))) as [b|] eqn:E.
  - apply Byte.to_of_N in E. unfold u8. rewrite E. lia.
  - apply Byte.of_N_None_iff in E. lia.
Qed.

Lemma readUInt32BE_be32 (v : Z) (rest : Buffer) :
  0 <= v <= 4294967295 -> readUInt32BE (be32 v ++ rest) 0 = Ok v.
Proof.
  intros Hv. unfold readUInt32BE, be32. cbn [app lookup list_lookup Nat.add].
  rewrite !u8_byte_of_mod, !Z.shiftr_div_pow2 by lia.
  change (2 ^ 24) with 16777216. change (2 ^ 16) with 65536. change (2 ^ 8) with 256.
  f_equal. Z.to_euclidean_division_equations. lia.
Qed.

Lemma readUInt32BE_app_r (pre l : Buffer) (offset i : nat) :
  offset = (length pre + i)%nat -> readUInt32BE (pre ++ l) offset = readUInt32BE l i.
Proof.
  intros ->. unfold readUInt32BE. rewrite !lookup_app_r by lia.
  replace (length pre + i - length pre)%nat with i by lia.
  replace (length pre + i + 1 - length pre)%nat with (i + 1)%nat by lia.
  replace (length pre + i + 2 - length pre)%nat with (i + 2)%nat by lia.
  by replace (length pre + i + 3 - length pre)%nat with (i + 3)%nat by lia.
Qed.

(** The fields of the resource record of an A answer. *)
Lemma a_record_fields (ttl a b c d : Z) :
  0 <= ttl <= 4294967295 ->
  0 <= a <= 255 -> 0 <= b <= 255 -> 0 <= c <= 255 -> 0 <= d <= 255 ->
  readUInt16BE (a_record ttl a b c d) 0 = Ok 0xC00C /\
  readUInt16BE (a_record ttl a b c d) 2 = Ok 1 /\
  readUInt16BE (a_record ttl a b c d) 4 = Ok 1 /\
  readUInt32BE (a_record ttl a b c d) 6 = Ok ttl /\
  readUInt16BE (a_record ttl a b c d) 10 = Ok 4 /\
  map u8 (drop 12 (a_record ttl a b c d)) = [a; b; c; d] /\
  length (a_record ttl a b c d) = 16%nat.
Proof.
  intros Httl Ha Hb Hc Hd. repeat split; try reflexivity.
  - unfold a_record.
    rewrite (readUInt32BE_app_r [xc0; x0c; x00; x01; x00; x01] _ 6 0) by done.
    by apply readUInt32BE_be32.
  - unfold a_record, be32. cbn [app drop map]. by rewrite !u8_byte_of by lia.
Qed.

Section Decode.
Variable utf8Slice : list byte -> jsstring.

(** A response made of a header, a question and the resource record of an
    A answer reads back as that record. *)
Lemma decode_answer_a_record (h : Buffer) (labels : list (list byte))
    (qtype_qclass : Buffer) (ttl a b c d : Z) :
  length h = 12%nat ->
  Forall (fun l : list byte => (1 <= length l <= 255)%nat) labels ->
  length qtype_qclass = 4%nat ->
  0 <= ttl <= 4294967295 ->
  0 <= a <= 255 -> 0 <= b <= 255 -> 0 <= c <= 255 -> 0 <= d <= 255 ->
  decode_answer utf8Slice (h ++ encode_name labels ++ qtype_qclass ++ a_record ttl a b c d)
  = Ok {| rr_name := 0xC00C; rr_type := 1; rr_class := 1; rr_ttl := ttl;
          rr_rdata := [a; b; c; d] |}.
Proof.
  intros Hh Hl Hqt Httl Ha Hb Hc Hd. unfold decode_answer.
  rewrite (parse_labels_encoded utf8Slice labels h (qtype_qclass ++ a_record ttl a b c d)
             [] _ 12 Hl);
    [|done|rewrite !length_app; pose proof (encode_name_length labels); lia].
  rewrite bind_Ok_l. cbv beta iota zeta.
  destruct (a_record_fields ttl a b c d Httl Ha Hb Hc Hd)
    as (F0 & F2 & F4 & F6 & F10 & Fdata & Flen).
  set (en := encode_name labels). set (rr := a_record ttl a b c d) in *.
  rewrite (app_assoc h), (app_assoc (h ++ en)).
  assert (Hpre : length ((h ++ en) ++ qtype_qclass) = (12 + length en + 4)%nat)
    by (rewrite !length_app; lia).
  rewrite (readUInt16BE_app_r _ _ (12 + length en + 4) 0) by lia.
  rewrite (readUInt16BE_app_r _ _ (12 + length en + 4 + 2) 2) by lia.
  rewrite (readUInt16BE_app_r _ _ (12 + length en + 4 + 4) 4) by lia.
  rewrite (readUInt32BE_app_r _ _ (12 + length en + 4 + 6) 6) by lia.
  rewrite (readUInt16BE_app_r _ _ (12 + length en + 4 + 10) 10) by lia.
  rewrite (drop_app_add' _ _ (12 + length en + 4) 12) by done.
  rewrite F0, F2, F4, F6, F10, !bind_Ok_l, Fdata.
  rewrite decide_True; [done|].
  rewrite length_drop, Flen. reflexivity.
Qed.

End Decode.

(** * Queries for host names: answer and round trip *)

Lemma name_octets_nonzero (labels : list (list byte)) :
  Forall (fun l : list byte => (1 <= length l <= 255)%nat) labels ->
  no_zero_octet labels ->
  Forall (fun o : byte => o <> x00) (name_octets labels).
Proof.
  unfold no_zero_octet, name_octets.
  induction labels as [|l ls IH]; intros Hl Hz; [constructor|].
  apply Forall_cons in Hl as [Hlen Hl]. apply Forall_cons in Hz as [Hzl Hz].
  cbn [map concat]. apply Forall_app. split; [|by apply IH].
  constructor; [|done].
  intros E. apply (f_equal u8) in E. rewrite u8_byte_of in E by lia.
  change (u8 x00) with 0 in E. lia.
Qed.

Lemma well_formed_query_octets (msg hdr : Buffer) (labels : list (list byte))
    (qtype_qclass rest : Buffer) :
  well_formed_query msg hdr labels qtype_qclass rest ->
  msg = hdr ++ name_octets labels ++ x00 :: qtype_qclass ++ rest /\
  (length (name_octets labels) <= 254)%nat /\
  Forall (fun l : list byte => (1 <= length l <= 255)%nat) labels.
Proof.
  intros [-> Hh Hl Hn Hq]. split; [|split].
  - unfold encode_name. by rewrite <- app_assoc.
  - unfold encode_name in Hn. rewrite length_app in Hn. simpl in Hn. lia.
  - eapply Forall_impl; [exact Hl|]. simpl. lia.
Qed.

Section HostNames.
Variable utf8Slice : list byte -> jsstring.
Variable toLowerCase : jsstring -> jsstring.

(** X16. On the well-formed queries whose name has no zero octet inside a
    label: a query for a stored A record with a dotted-quad value is
    answered with its own transaction id, flags 0x8180, answer count 1, and
    an answer that reads back as the address and TTL of the record. *)
Lemma host_name_query_answered (dnsRecords : gmap jsstring DNSRecord)
    (msg hdr : Buffer) (labels : list (list byte)) (qtype_qclass rest : Buffer)
    (rinfo : RemoteInfo) (record : DNSRecord) (a b c d : Z) :
  well_formed_query msg hdr labels qtype_qclass rest ->
  no_zero_octet labels ->
  lookup_record toLowerCase dnsRecords (join (js ".") (map utf8Slice labels)) = Some record ->
  rtype record = js "A" ->
  dotted_quad (value record) a b c d ->
  0 <= ttl record <= 4294967295 ->
  exists response,
    handleDNSQuery utf8Slice toLowerCase dnsRecords msg rinfo
      = Ok (ServerSend response (port rinfo) (address rinfo)) /\
    response = answer_header hdr ++ encode_name labels ++ qtype_qclass
                 ++ a_record (ttl record) a b c d /\
    take 2 response = take 2 msg /\
    readUInt16BE response 2 = Ok 0x8180 /\
    readUInt16BE response 6 = Ok 1 /\
    decode_answer utf8Slice response
      = Ok {| rr_name := 0xC00C; rr_type := 1; rr_class := 1; rr_ttl := ttl record;
              rr_rdata := [a; b; c; d] |}.
Proof.
  intros Hwf Hz Hlook Htype Hquad Httl.
  destruct (well_formed_query_octets _ _ _ _ _ Hwf) as (Hmsg & Hoct & Hl).
  pose proof Hwf as [Hlayout Hh _ _ Hq].
  destruct (parseDNSQuery_well_formed utf8Slice msg hdr labels qtype_qclass rest
              Hlayout Hh Hl Hq) as (query & Hparse & Hdom & _).
  pose proof (createDNSResponse_A query record hdr (name_octets labels) qtype_qclass rest
                a b c d Hh (name_octets_nonzero _ Hl Hz) Hoct Hq Htype Hquad Httl) as Hresp.
  rewrite <- Hmsg in Hresp.
  eexists. split.
  { eapply handleDNSQuery_hit; [exact Hparse| |exact Hresp].
    unfold lookup_record in Hlook. by rewrite Hdom. }
  destruct (createDNSResponse_header _ _ _ _ Hresp) as (_ & Hid & Hflags & _ & Han & _).
  { rewrite Hlayout, length_app. lia. }
  split; [|split; [exact Hid|split; [exact Hflags|split; [exact Han|]]]].
  - unfold encode_name. by rewrite <- !app_assoc.
  - destruct (dotted_quad_parts _ _ _ _ _ Hquad)
      as (_ & _ & _ & _ & _ & _ & _ & _ & _ & Ha & Hb & Hc & Hd).
    rewrite <- (decode_answer_a_record utf8Slice (answer_header hdr) labels qtype_qclass
                  (ttl record) a b c d)
      by (done || by rewrite answer_header_length).
    f_equal. unfold encode_name. by rewrite <- !app_assoc.
Qed.

(** X17. On the same queries the answer round-trips: parsing the response
    built from an A record with a dotted-quad value gives back the domain,
    type and class of the query. *)
Lemma host_name_round_trip (query0 : DNSQuery) (record : DNSRecord)
    (msg hdr : Buffer) (labels : list (list byte)) (qtype_qclass rest : Buffer)
    (a b c d : Z) :
  well_formed_query msg hdr labels qtype_qclass rest ->
  no_zero_octet labels ->
  rtype record = js "A" ->
  dotted_quad (value record) a b c d ->
  0 <= ttl record <= 4294967295 ->
  exists query response query',
    parseDNSQuery utf8Slice msg = Ok query /\
    createDNSResponse query0 record msg = Ok response /\
    parseDNSQuery utf8Slice response = Ok query' /\
    domain query' = domain query /\ type query' = type query /\
    class query' = class query.
Proof.
  intros Hwf Hz Htype Hquad Httl.
  destruct (well_formed_query_octets _ _ _ _ _ Hwf) as (Hmsg & Hoct & Hl).
  pose proof Hwf as [Hlayout Hh _ _ Hq].
  destruct (parseDNSQuery_well_formed utf8Slice msg hdr labels qtype_qclass rest
              Hlayout Hh Hl Hq) as (query & Hparse & Hdom & Hty & Hcl & _).
  pose proof (createDNSResponse_A query0 record hdr (name_octets labels) qtype_qclass rest
                a b c d Hh (name_octets_nonzero _ Hl Hz) Hoct Hq Htype Hquad Httl) as Hresp.
  rewrite <- Hmsg in Hresp.
  destruct (parseDNSQuery_well_formed utf8Slice
              (answer_header hdr ++ encode_name labels ++ qtype_qclass
                 ++ a_record (ttl record) a b c d)
              (answer_header hdr) labels qtype_qclass (a_record (ttl record) a b c d)
              eq_refl ltac:(by rewrite answer_header_length) Hl Hq)
    as (query' & Hparse' & Hdom' & Hty' & Hcl' & _).
  replace (name_octets labels ++ x00 :: qtype_qclass ++ a_record (ttl record) a b c d)
    with (encode_name labels ++ qtype_qclass ++ a_record (ttl record) a b c d) in Hresp
    by (unfold encode_name; by rewrite <- !app_assoc).
  eexists query, _, query'. split; [exact Hparse|]. split; [exact Hresp|].
  split; [exact Hparse'|]. split; [congruence|]. split; congruence.
Qed.

End HostNames.

Lemma svc_query_well_formed :
  well_formed_query svc_query (query_header 1)
    [bytes [115; 118; 99]; bytes [108; 111; 99; 97; 108]] (bytes [0; 1; 0; 1]) [].
Proof.
  split; [reflexivity|reflexivity| |vm_compute; lia|reflexivity].
  repeat constructor; cbn; lia.
Qed.

Lemma dotted_quad_127_0_0_1 : dotted_quad (js "127.0.0.1") 127 0 0 1.
Proof.
  exists (js "127"), (js "0"), (js "0"), (js "1"). split; [reflexivity|].
  repeat split; try done; try (vm_compute; congruence);
    repeat constructor; vm_compute; congruence.
Qed.

(** Scenario A of the specification, as an instance of the two lemmas. *)
Lemma host_name_query_answered_example :
  exists response,
    handleDNSQuery ascii_utf8Slice ascii_toLowerCase svc_store svc_query sample_rinfo
      = Ok (ServerSend response (port sample_rinfo) (address sample_rinfo)) /\
    decode_answer ascii_utf8Slice response
      = Ok {| rr_name := 0xC00C; rr_type := 1; rr_class := 1; rr_ttl := 300;
              rr_rdata := [127; 0; 0; 1] |}.
Proof.
  destruct (host_name_query_answered ascii_utf8Slice ascii_toLowerCase svc_store
              svc_query _ _ _ _ sample_rinfo svc_record 127 0 0 1 svc_query_well_formed)
    as (response & H & _ & _ & _ & _ & D).
  - repeat constructor; vm_compute; congruence.
  - vm_compute. reflexivity.
  - reflexivity.
  - exact dotted_quad_127_0_0_1.
  - vm_compute. split; congruence.
  - exists response. split; [exact H|exact D].
Defined.

Lemma host_name_round_trip_example :
  exists query response query',
    parseDNSQuery ascii_utf8Slice svc_query = Ok query /\
    createDNSResponse svc_parsed svc_record svc_query = Ok response /\
    parseDNSQuery ascii_utf8Slice response = Ok query' /\
    domain query' = domain query /\ type query' = type query /\ class query' = class query.
Proof.
  apply (host_name_round_trip ascii_utf8Slice svc_parsed svc_record svc_query _ _ _ _
           127 0 0 1 svc_query_well_formed).
  - repeat constructor; vm_compute; congruence.
  - reflexivity.
  - exact dotted_quad_127_0_0_1.
  - vm_compute. split; congruence.
Defined.

(** * A zero octet inside a label *)

Lemma zero_label_query_well_formed :
  well_formed_query zero_label_query (query_header 1) [zero_label] (bytes [0; 1; 0; 1]) [].
Proof.
  split; [reflexivity|reflexivity| |vm_compute; lia|reflexivity].
  repeat constructor; cbn; lia.
Qed.

(** C1 fails on a well-formed query whose name has a zero octet inside a
    label.  The loop that copies the question name stops at the first zero
    octet instead of walking the labels as the parser does, so the question
    section of the response breaks off there, and a reader that walks
    the question finds no resource record behind it.  Here the label is
    [<0>ab], the store holds an A record for it with value 10.0.0.5 and TTL
    60; the response has the transaction id, the flags and the answer count
    of the claim, but its question ends at offset 17 + 4, where a reader
    finds type 256 and TTL 0x3C00040A, and the record cannot be read back. *)
Theorem zero_octet_label_answer_unreadable :
  well_formed_query zero_label_query (query_header 1) [zero_label] (bytes [0; 1; 0; 1]) [] /\
  (exists query,
     parseDNSQuery ascii_utf8Slice zero_label_query = Ok query /\
     hdr_qdcount (header query) = 1 /\
     lookup_record ascii_toLowerCase zero_label_store (domain query)
       = Some {| rtype := js "A"; value := js "10.0.0.5"; ttl := 60 |}) /\
  dotted_quad (js "10.0.0.5") 10 0 0 5 /\
  handleDNSQuery ascii_utf8Slice ascii_toLowerCase zero_label_store zero_label_query sample_rinfo
    = Ok (ServerSend zero_label_response (port sample_rinfo) (address sample_rinfo)) /\
  take 2 zero_label_response = take 2 zero_label_query /\
  readUInt16BE zero_label_response 2 = Ok 0x8180 /\
  readUInt16BE zero_label_response 6 = Ok 1 /\
  parse_labels ascii_utf8Slice (S (length zero_label_response)) zero_label_response 12 []
    = Ok ([ascii_utf8Slice zero_label], 17%nat) /\
  readUInt16BE zero_label_response (17 + 4 + 2) = Ok 256 /\
  readUInt32BE zero_label_response (17 + 4 + 6) = Ok 0x3C00040A /\
  decode_answer ascii_utf8Slice zero_label_response = Throw RangeError.
Proof.
  split; [exact zero_label_query_well_formed|].
  split; [eexists; split; [vm_compute; reflexivity|split; vm_compute; reflexivity]|].
  split.
  { exists (js "10"), (js "0"), (js "0"), (js "5"). split; [reflexivity|].
    repeat split; try done; try (vm_compute; congruence);
      repeat constructor; vm_compute; congruence. }
  repeat split; vm_compute; reflexivity.
Qed.

(** C6 fails on the same query: the response parses to query type 192, not
    to the type 1 of the query (and to class 3072, not 1). *)
Theorem zero_octet_label_round_trip_fails :
  well_formed_query zero_label_query (query_header 1) [zero_label] (bytes [0; 1; 0; 1]) [] /\
  exists query query',
    parseDNSQuery ascii_utf8Slice zero_label_query = Ok query /\
    createDNSResponse query {| rtype := js "A"; value := js "10.0.0.5"; ttl := 60 |}
      zero_label_query = Ok zero_label_response /\
    parseDNSQuery ascii_utf8Slice zero_label_response = Ok query' /\
    domain query' = domain query /\
    type query = 1 /\ type query' = 192.
Proof.
  split; [exact zero_label_query_well_formed|].
  eexists _, _. split; [vm_compute; reflexivity|].
  split; [vm_compute; reflexivity|].
  split; [vm_compute; reflexivity|].
  repeat split.
Qed.

(** * More than one question *)

(** Whatever [answer_section] returns keeps the buffer below [offset] and
    has the name pointer C0 0C at [offset]. *)
Lemma answer_section_prefix (record : DNSRecord) (buf response : Buffer) (offset : nat) :
  answer_section record buf offset = Ok response ->
  (forall i : nat, (i < offset)%nat -> response !! i = buf !! i) /\
  response !! offset = Some xc0 /\ response !! (offset + 1)%nat = Some x0c.
Proof.
  unfold answer_section. intros H.
  apply bind_Ok in H as (r1 & H1 & H).
  apply bind_Ok in H as (r2 & H2 & H). apply writeUInt16BE_agree in H2.
  apply bind_Ok in H as (r3 & H3 & H). apply writeUInt16BE_agree in H3.
  apply bind_Ok in H as (r4 & H4 & H). apply writeUInt32BE_agree in H4.
  apply bind_Ok in H as ([r5 o5] & H5 & H). apply Ok_inj in H. subst response.
  assert (A5 : (offset + 10 <= o5)%nat /\ agree_below (offset + 2) r4 r5).
  { case_decide.
    - apply bind_Ok in H5 as (r & W & H5). apply write_ip_parts_agree in H5 as [-> A].
      split; [lia|]. apply writeUInt16BE_agree in W.
      apply (agree_below_mono (offset + 2)) in W, A; [|lia..].
      by eapply agree_below_trans; [|exact W|exact A].
    - apply Ok_inj in H5. injection H5 as <- <-. split; [lia|apply agree_below_refl]. }
  destruct A5 as [Ho5 A5].
  apply (agree_below_mono (offset + 2)) in H2, H3, H4; [|lia..].
  assert (A : agree_below (offset + 2) r1 r5).
  { repeat (eapply agree_below_trans; [reflexivity|eassumption|]). apply agree_below_refl. }
  destruct A as [_ F].
  apply writeUInt16BE_Ok in H1 as (_ & _ & F1 & E0 & E1).
  unfold slice0. split; [|split].
  - intros i Hi. rewrite lookup_take_lt, F by lia. apply F1; lia.
  - rewrite lookup_take_lt, F by lia. exact E0.
  - rewrite lookup_take_lt, F by lia. exact E1.
Qed.

Lemma two_question_query_well_formed :
  well_formed_query two_question_query (query_header 2)
    [bytes [115; 118; 99]; bytes [108; 111; 99; 97; 108]] (bytes [0; 1; 0; 1]) api_question.
Proof.
  split; [reflexivity|reflexivity| |vm_compute; lia|reflexivity].
  repeat constructor; cbn; lia.
Qed.

(** C8 fails in its second half, on a query with two questions.  The first
    question alone is matched, as the claim says.  But the response keeps
    the question count 2 of the copied header while the loop under "Copy
    question section" copies one name and four bytes: after the header come
    the fifteen bytes of the first question and at once the sixteen of the
    answer record.  The bytes of the second question are not in the
    response, and walking a second question where the count says there is
    one runs into the answer record and past the end of the datagram. *)
Theorem second_question_dropped_count_kept :
  well_formed_query two_question_query (query_header 2)
    [bytes [115; 118; 99]; bytes [108; 111; 99; 97; 108]] (bytes [0; 1; 0; 1]) api_question /\
  exists query response,
    parseDNSQuery ascii_utf8Slice two_question_query = Ok query /\
    hdr_qdcount (header query) = 2 /\
    domain query = js "svc.local" /\
    handleDNSQuery ascii_utf8Slice ascii_toLowerCase svc_store two_question_query sample_rinfo
      = Ok (ServerSend response (port sample_rinfo) (address sample_rinfo)) /\
    response = answer_header (query_header 2) ++ svc_question ++ a_record 300 127 0 0 1 /\
    readUInt16BE response 4 = Ok 2 /\
    take (length (svc_question ++ api_question)) (drop 12 two_question_query)
      = svc_question ++ api_question /\
    take (length (svc_question ++ api_question)) (drop 12 response)
      <> svc_question ++ api_question /\
    parse_labels ascii_utf8Slice (S (length response)) response (12 + length svc_question) []
      = Throw RangeError.
Proof.
  split; [exact two_question_query_well_formed|].
  eexists _, _. split; [vm_compute; reflexivity|]. split; [reflexivity|].
  split; [reflexivity|].
  split; [vm_compute; reflexivity|]. split; [vm_compute; reflexivity|].
  split; [reflexivity|]. split; [reflexivity|].
  split; [vm_compute; discriminate|]. vm_compute. reflexivity.
Qed.

Section FirstQuestion.
Variable utf8Slice : list byte -> jsstring.

(** The same on every well-formed query, whatever its question count,
    whose first name has no zero octet inside a label: the domain that is
    looked up is that of the first question, and the response is the one
    built for the datagram cut off after its first question; after the
    header it holds the bytes of the first question only, followed at once
    by the name pointer that opens the answer record. *)
Lemma only_first_question_echoed (query query' : DNSQuery) (record : DNSRecord)
    (msg hdr : Buffer) (labels : list (list byte)) (qtype_qclass rest : Buffer) :
  well_formed_query msg hdr labels qtype_qclass rest ->
  no_zero_octet labels ->
  (exists parsed,
     parseDNSQuery utf8Slice msg = Ok parsed /\
     domain parsed = join (js ".") (map utf8Slice labels)) /\
  createDNSResponse query record msg
    = createDNSResponse query' record (hdr ++ encode_name labels ++ qtype_qclass) /\
  forall response,
    createDNSResponse query record msg = Ok response ->
    take (16 + length (encode_name labels)) response
      = answer_header hdr ++ encode_name labels ++ qtype_qclass /\
    take 2 (drop (16 + length (encode_name labels)) response) = [xc0; x0c].
Proof.
  intros Hwf Hz.
  destruct (well_formed_query_octets _ _ _ _ _ Hwf) as (Hmsg & Hoct & Hl).
  pose proof Hwf as [Hlayout Hh _ _ Hq].
  pose proof (name_octets_nonzero _ Hl Hz) as Hnz.
  split; [|split].
  - destruct (parseDNSQuery_well_formed utf8Slice msg hdr labels qtype_qclass rest
                Hlayout Hh Hl Hq) as (parsed & Hparse & Hdom & _). eauto.
  - rewrite Hmsg. rewrite createDNSResponse_question by done.
    unfold encode_name. rewrite <- (app_nil_r qtype_qclass) at 2.
    rewrite <- (app_assoc (name_octets labels)). cbn [app].
    by rewrite createDNSResponse_question.
  - intros response Hresp. rewrite Hmsg in Hresp.
    rewrite createDNSResponse_question in Hresp by done.
    apply answer_section_prefix in Hresp as (F & E0 & E1).
    assert (Hen : length (encode_name labels) = S (length (name_octets labels)))
      by (unfold encode_name; rewrite length_app; simpl; lia).
    assert (HW : length (answer_header hdr ++ name_octets labels ++ x00 :: qtype_qclass)
                 = (17 + length (name_octets labels))%nat).
    { rewrite !length_app, answer_header_length. cbn [length]. lia. }
    rewrite Hen.
    replace (16 + S (length (name_octets labels)))%nat
      with (17 + length (name_octets labels))%nat by lia.
    split.
    + replace (answer_header hdr ++ encode_name labels ++ qtype_qclass)
        with (answer_header hdr ++ name_octets labels ++ x00 :: qtype_qclass)
        by (unfold encode_name; by rewrite <- !app_assoc).
      apply list_eq. intros i.
      destruct (decide (i < 17 + length (name_octets labels))%nat) as [Hi|Hi].
      * rewrite lookup_take_lt, F by lia. by rewrite lookup_app_l by lia.
      * rewrite lookup_take_ge by lia. symmetry. apply lookup_ge_None. lia.
    + apply list_eq. intros [|[|i]].
      * rewrite lookup_take_lt, lookup_drop, Nat.add_0_r by lia. exact E0.
      * rewrite lookup_take_lt, lookup_drop by lia. exact E1.
      * by rewrite lookup_take_ge by lia.
Qed.

End FirstQuestion.

(** * An A record whose value is not a dotted quad *)

Lemma write_ip_parts_in_range (ipParts : list jsstring) :
  forall (response response' : Buffer) (offset offset' : nat),
    write_ip_parts ipParts response offset = Ok (response', offset') ->
    forall (part : jsstring) (n : Z),
      part ∈ ipParts -> parseInt part = Int n -> 0 <= n <= 255.
Proof.
  induction ipParts as [|p rest IH]; intros response response' offset offset' H part n Hin Hn.
  - by apply elem_of_nil in Hin.
  - simpl in H. apply bind_Ok in H as (r & W & H).
    apply elem_of_cons in Hin as [->|Hin]; [|by eapply IH].
    rewrite Hn in W. unfold writeUInt8 in W.
    destruct ((n >? 255) || (n <? 0)) eqn:E; [discriminate|]. lia.
Qed.

(** An answer is built from an A record only if every part of its value that
    starts with an integer has it within 0-255. *)
Lemma createDNSResponse_parts_in_range (query : DNSQuery) (record : DNSRecord)
    (originalMsg response : Buffer) (part : jsstring) (n : Z) :
  createDNSResponse query record originalMsg = Ok response ->
  rtype record = js "A" ->
  part ∈ split 46 (value record) -> parseInt part = Int n -> 0 <= n <= 255.
Proof.
  unfold createDNSResponse. intros H Htype Hin Hn.
  do 3 (apply bind_Ok in H as (? & _ & H)).
  apply bind_Ok in H as ([? ?] & _ & H).
  do 6 (apply bind_Ok in H as (? & _ & H)).
  apply bind_Ok in H as ([r o] & H & _).
  rewrite decide_True in H by done.
  apply bind_Ok in H as (? & _ & H).
  by eapply write_ip_parts_in_range.
Qed.

Lemma localhost_not_dotted_quad (a b c d : Z) : ~ dotted_quad (js "localhost") a b c d.
Proof.
  intros (sa & sb & sc & sd & E & _).
  assert (H : 46 ∈ js "localhost") by (rewrite E; set_solver).
  vm_compute in H.
  repeat (apply elem_of_cons in H as [H|H]; [discriminate|]).
  by apply elem_of_nil in H.
Qed.

(** C10 fails for a value without digits: [parseInt("localhost")] is [NaN],
    [writeUInt8(NaN, offset)] throws nothing and stores 0, and the client
    gets an answer flagged as successful, not the error response. *)
Lemma non_numeric_value_is_answered :
  (forall a b c d, ~ dotted_quad (js "localhost") a b c d) /\
  lookup_record ascii_toLowerCase localhost_store (js "svc.local")
    = Some {| rtype := js "A"; value := js "localhost"; ttl := 300 |} /\
  exists response errorResponse,
    handleDNSQuery ascii_utf8Slice ascii_toLowerCase localhost_store svc_query sample_rinfo
      = Ok (ServerSend response (port sample_rinfo) (address sample_rinfo)) /\
    createDNSErrorResponse svc_query = Ok errorResponse /\
    readUInt16BE response 2 = Ok 0x8180 /\
    response <> errorResponse.
Proof.
  split; [exact localhost_not_dotted_quad|]. split; [vm_compute; reflexivity|].
  eexists _, _. split; [vm_compute; reflexivity|]. split; [vm_compute; reflexivity|].
  split; [vm_compute; reflexivity|]. vm_compute. discriminate.
Qed.

(** * The type field of the answer, for every record *)

(** Whatever the type of the stored record, the 16-bit field after the name
    pointer of the answer holds 1. *)
Lemma answer_section_type_field (record : DNSRecord) (buf response : Buffer) (offset : nat) :
  answer_section record buf offset = Ok response ->
  readUInt16BE response (offset + 2) = Ok 1.
Proof.
  unfold answer_section. intros H.
  apply bind_Ok in H as (r1 & _ & H).
  apply bind_Ok in H as (r2 & H2 & H).
  apply bind_Ok in H as (r3 & H3 & H). apply writeUInt16BE_agree in H3.
  apply bind_Ok in H as (r4 & H4 & H). apply writeUInt32BE_agree in H4.
  apply bind_Ok in H as ([r5 o5] & H5 & H). apply Ok_inj in H. subst response.
  assert (A5 : (offset + 10 <= o5)%nat /\ agree_below (offset + 4) r4 r5).
  { case_decide.
    - apply bind_Ok in H5 as (r & W & H5). apply write_ip_parts_agree in H5 as [-> A].
      split; [lia|]. apply writeUInt16BE_agree in W.
      apply (agree_below_mono (offset + 4)) in W, A; [|lia..].
      by eapply agree_below_trans; [|exact W|exact A].
    - apply Ok_inj in H5. injection H5 as <- <-. split; [lia|apply agree_below_refl]. }
  destruct A5 as [Ho5 A5].
  apply (agree_below_mono (offset + 4)) in H3, H4; [|lia..].
  assert (A : agree_below (offset + 4) r2 r5).
  { repeat (eapply agree_below_trans; [reflexivity|eassumption|]). apply agree_below_refl. }
  destruct A as [_ F].
  assert (Hone : (if decide (rtype record = js "A") then 1 else 1) = 1) by (by case_decide).
  rewrite Hone in H2.
  apply writeUInt16BE_Ok in H2 as (_ & _ & _ & E0 & E1).
  unfold readUInt16BE, slice0.
  rewrite !lookup_take_lt, !F by lia. rewrite E0, E1. reflexivity.
Qed.

(** * The scenarios of the specification *)

(** Scenario B: the store is empty, a query for [example.test] is forwarded,
    the upstream never replies, and when the timer fires the client gets the
    error-flagged response with the transaction id of the query. *)
Lemma scenario_B_forwarded_then_timed_out :
  let msg := query_header 1
               ++ bytes [7; 101; 120; 97; 109; 112; 108; 101; 4; 116; 101; 115; 116; 0;
                         0; 1; 0; 1] in
  (exists query,
     handleDNSQuery ascii_utf8Slice ascii_toLowerCase ∅ msg sample_rinfo
       = Ok (ForwardDNSQuery msg sample_rinfo query) /\
     domain query = js "example.test") /\
  exists errorResponse,
    to_client (run msg [TimerFired]) = [errorResponse] /\
    uncaught (run msg [TimerFired]) = None /\
    take 2 errorResponse = take 2 msg /\
    readUInt16BE errorResponse 2 = Ok 0x8183.
Proof.
  intros msg. split.
  - eexists. split; vm_compute; reflexivity.
  - eexists. repeat split; vm_compute; reflexivity.
Qed.

(** Scenario C: add, look up, remove, look up. *)
Lemma scenario_C_add_lookup_remove :
  let store := addRecord ascii_toLowerCase ∅ (js "new.local") (js "A") (js "10.0.0.5")
                 (Some 60) in
  lookup_record ascii_toLowerCase store (js "new.local")
    = Some {| rtype := js "A"; value := js "10.0.0.5"; ttl := 60 |} /\
  (removeRecord ascii_toLowerCase store (js "new.local")).2 = true /\
  lookup_record ascii_toLowerCase (removeRecord ascii_toLowerCase store (js "new.local")).1
    (js "new.local") = None.
Proof. repeat split; vm_compute; reflexivity. Qed.

(** * Further properties of the parser *)

Lemma readUInt8_agree (buf buf' : Buffer) (offset : nat) :
  buf' !! offset = buf !! offset -> readUInt8 buf' offset = readUInt8 buf offset.
Proof. unfold readUInt8. by intros ->. Qed.

Lemma readUInt16BE_agree (buf buf' : Buffer) (offset : nat) :
  buf' !! offset = buf !! offset -> buf' !! (offset + 1)%nat = buf !! (offset + 1)%nat ->
  readUInt16BE buf' offset = readUInt16BE buf offset.
Proof. unfold readUInt16BE. by intros -> ->. Qed.

Section ParsePrefix.
Variable utf8Slice : list byte -> jsstring.

(** More fuel does not change what the label loop returns. *)
Lemma parse_labels_fuel_mono (msg : Buffer) :
  forall (fuel fuel' offset : nat) (labels : list jsstring),
    parse_labels utf8Slice fuel msg offset labels <> Diverge ->
    (fuel <= fuel')%nat ->
    parse_labels utf8Slice fuel' msg offset labels
    = parse_labels utf8Slice fuel msg offset labels.
Proof.
  induction fuel as [|fuel IH]; intros fuel' offset labels Hnd Hle; [done|].
  destruct fuel' as [|fuel']; [lia|]. cbn [parse_labels] in *.
  destruct (readUInt8 msg offset) as [len| |]; [|done..].
  rewrite !bind_Ok_l in *. destruct (len =? 0); [done|].
  apply IH; [done|lia].
Qed.

Lemma parse_labels_fuel_irrelevant (msg : Buffer) (f1 f2 offset : nat)
    (labels : list jsstring) :
  parse_labels utf8Slice f1 msg offset labels <> Diverge ->
  parse_labels utf8Slice f2 msg offset labels <> Diverge ->
  parse_labels utf8Slice f1 msg offset labels = parse_labels utf8Slice f2 msg offset labels.
Proof.
  intros H1 H2.
  rewrite <- (parse_labels_fuel_mono msg f1 (Nat.max f1 f2)) by (done || lia).
  by rewrite <- (parse_labels_fuel_mono msg f2 (Nat.max f1 f2)) by (done || lia).
Qed.

(** The loop returns the offset after the zero length it stopped at. *)
Lemma parse_labels_offset (msg : Buffer) :
  forall (fuel offset : nat) (labels labels' : list jsstring) (offset' : nat),
    parse_labels utf8Slice fuel msg offset labels = Ok (labels', offset') ->
    (offset < offset' <= length msg)%nat /\ msg !! (offset' - 1)%nat = Some x00.
Proof.
  induction fuel as [|fuel IH]; intros offset labels labels' offset'; [discriminate|].
  cbn [parse_labels]. intros (len & Hread & H)%bind_Ok.
  destruct (len =? 0) eqn:E.
  - apply Ok_inj in H. injection H as _ <-.
    apply readUInt8_Ok in Hread as (b & Hb & ->).
    split; [apply lookup_lt_Some in Hb; lia|].
    replace (S offset - 1)%nat with offset by lia. rewrite Hb. f_equal.
    apply u8_inj. apply Z.eqb_eq in E. by rewrite E.
  - apply IH in H as [H ?]. split; [lia|done].
Qed.

(** The loop looks at nothing at or beyond the offset it returns. *)
Lemma parse_labels_agree (msg msg' : Buffer) :
  forall (fuel offset : nat) (labels labels' : list jsstring) (offset' : nat),
    parse_labels utf8Slice fuel msg offset labels = Ok (labels', offset') ->
    (forall i : nat, (i < offset')%nat -> msg' !! i = msg !! i) ->
    parse_labels utf8Slice fuel msg' offset labels = Ok (labels', offset').
Proof.
  induction fuel as [|fuel IH]; intros offset labels labels' offset' H Hagree; [discriminate|].
  pose proof (parse_labels_offset _ _ _ _ _ _ H) as [[Hlt Hle] _].
  cbn [parse_labels] in *. apply bind_Ok in H as (len & Hread & H).
  rewrite (readUInt8_agree msg msg') by (apply Hagree; lia).
  rewrite Hread, bind_Ok_l. destruct (len =? 0) eqn:E; [done|].
  pose proof (parse_labels_offset _ _ _ _ _ _ H) as [[Hlt' Hle'] _].
  assert (Hlen' : (offset' <= length msg')%nat).
  { destruct (lookup_lt_is_Some_2 msg (offset' - 1) ltac:(lia)) as [b Hb].
    rewrite <- Hagree in Hb by lia. apply lookup_lt_Some in Hb. lia. }
  assert (Hlabel : toString_utf8 utf8Slice msg' (offset + 1) (offset + 1 + Z.to_nat len)
                   = toString_utf8 utf8Slice msg (offset + 1) (offset + 1 + Z.to_nat len)).
  { unfold toString_utf8.
    replace (length msg' <=? offset + 1)%nat with false by (symmetry; apply Nat.leb_gt; lia).
    replace (length msg <=? offset + 1)%nat with false by (symmetry; apply Nat.leb_gt; lia).
    replace (Nat.min (offset + 1 + Z.to_nat len) (length msg'))
      with (offset + 1 + Z.to_nat len)%nat by lia.
    replace (Nat.min (offset + 1 + Z.to_nat len) (length msg))
      with (offset + 1 + Z.to_nat len)%nat by lia.
    destruct (_ <=? _)%nat; [done|]. f_equal.
    apply list_eq. intros i.
    destruct (decide (i < offset + 1 + Z.to_nat len - (offset + 1))%nat).
    - rewrite !lookup_take_lt, !lookup_drop by done. apply Hagree. lia.
    - by rewrite !lookup_take_ge by lia. }
  rewrite Hlabel. by apply IH.
Qed.

(** All that a successful parse read lies below the end of the first
    question. *)
Lemma parseDNSQuery_reads_first_question (msg : Buffer) (query : DNSQuery) :
  parseDNSQuery utf8Slice msg = Ok query ->
  exists e : nat,
    (17 <= e <= length msg)%nat /\
    (forall msg' : Buffer,
       (forall i : nat, (i < e)%nat -> msg' !! i = msg !! i) ->
       parseDNSQuery utf8Slice msg' = Ok query) /\
    (forall (msg' : Buffer) (query' : DNSQuery),
       (forall i : nat, (i < length msg')%nat -> msg' !! i = msg !! i) ->
       parseDNSQuery utf8Slice msg' = Ok query' -> (e <= length msg')%nat).
Proof.
  unfold parseDNSQuery. intros H.
  apply bind_Ok in H as (id & H0 & H). apply bind_Ok in H as (fl & H2 & H).
  apply bind_Ok in H as (qd & H4 & H). apply bind_Ok in H as (an & H6 & H).
  apply bind_Ok in H as (ns & H8 & H). apply bind_Ok in H as (ar & H10 & H).
  apply bind_Ok in H as ([labels o] & HL & H).
  apply bind_Ok in H as (ty & Hty & H). apply bind_Ok in H as (cl & Hcl & H).
  pose proof (parse_labels_offset _ _ _ _ _ _ HL) as [[Ho _] _].
  pose proof (readUInt16BE_lt _ _ _ Hcl) as Hend.
  exists (o + 4)%nat. split; [lia|]. split.
  - intros msg' Hagree.
    rewrite !(readUInt16BE_agree msg msg') by (apply Hagree; lia).
    rewrite H0, H2, H4, H6, H8, H10, !bind_Ok_l.
    assert (HL' : parse_labels utf8Slice (S (length msg')) msg' 12 [] = Ok (labels, o)).
    { rewrite (parse_labels_fuel_irrelevant msg' _ (S (length msg))).
      - apply (parse_labels_agree msg); [done|]. intros i Hi. apply Hagree. lia.
      - apply parse_labels_not_Diverge. lia.
      - erewrite (parse_labels_agree msg); [done|exact HL|].
        intros i Hi. apply Hagree. lia. }
    rewrite HL', bind_Ok_l. cbv beta iota zeta.
    rewrite !(readUInt16BE_agree msg msg') by (apply Hagree; lia).
    by rewrite Hty, Hcl, !bind_Ok_l.
  - intros msg' query' Hagree H'.
    do 6 (apply bind_Ok in H' as (? & _ & H')).
    apply bind_Ok in H' as ([labels' o'] & HL' & H').
    apply bind_Ok in H' as (? & _ & H'). apply bind_Ok in H' as (? & Hcl' & _).
    apply readUInt16BE_lt in Hcl'.
    pose proof (parse_labels_offset _ _ _ _ _ _ HL') as [[Ho' Hole'] _].
    assert (HL2 : parse_labels utf8Slice (S (length msg')) msg 12 [] = Ok (labels', o')).
    { apply (parse_labels_agree msg'); [done|]. intros i Hi. symmetry. apply Hagree. lia. }
    rewrite (parse_labels_fuel_irrelevant msg _ (S (length msg))) in HL2.
    + rewrite HL in HL2. apply Ok_inj in HL2. injection HL2 as _ <-. lia.
    + by rewrite HL2.
    + by rewrite HL.
Qed.

(** Every exception of the parser is a range error. *)
Lemma parseDNSQuery_Throw (msg : Buffer) (e : js_error) :
  parseDNSQuery utf8Slice msg = Throw e -> e = RangeError.
Proof.
  assert (Hlab : forall fuel offset labels,
             parse_labels utf8Slice fuel msg offset labels = Throw e -> e = RangeError).
  { induction fuel as [|fuel IH]; intros offset labels; [discriminate|].
    cbn [parse_labels]. unfold readUInt8. destruct (msg !! offset); [|by intros [= <-]].
    rewrite bind_Ok_l. destruct (_ =? 0); [discriminate|]. apply IH. }
  unfold parseDNSQuery.
  repeat (match goal with
          | |- context [readUInt16BE ?b ?o ≫= _] =>
              let E := fresh "E" in
              destruct (readUInt16BE b o) as [?|?|] eqn:E;
              [rewrite bind_Ok_l
              |apply readUInt16BE_Throw in E as ->; by intros [= <-]
              |by apply readUInt16BE_not_Diverge in E]
          end).
  destruct (parse_labels utf8Slice _ msg 12 []) as [[labels o]|e'|] eqn:EL; [|..].
  - rewrite bind_Ok_l. cbv beta iota zeta.
    repeat (match goal with
            | |- context [readUInt16BE ?b ?o ≫= _] =>
                let E := fresh "E" in
                destruct (readUInt16BE b o) as [?|?|] eqn:E;
                [rewrite bind_Ok_l
                |apply readUInt16BE_Throw in E as ->; by intros [= <-]
                |by apply readUInt16BE_not_Diverge in E]
            end).
    discriminate.
  - intros [= <-]. by apply Hlab in EL.
  - discriminate.
Qed.

End ParsePrefix.

Section ParserTheorems.
Variable utf8Slice : list byte -> jsstring.

(** X1. Whatever follows a datagram that parses is ignored: with any bytes
    appended, [parseDNSQuery] returns the same query. *)
Theorem parseDNSQuery_ignores_what_follows (msg rest : Buffer) (query : DNSQuery) :
  parseDNSQuery utf8Slice msg = Ok query ->
  parseDNSQuery utf8Slice (msg ++ rest) = Ok query.
Proof.
  intros H. destruct (parseDNSQuery_reads_first_question utf8Slice msg query H)
    as (e & He & Hsame & _).
  apply Hsame. intros i Hi. apply lookup_app_l. lia.
Qed.

(** X2. A datagram that parses has at least 17 bytes, and there is an offset
    [e] (the end of its first question) such that the first [e] bytes alone
    parse to the same query while every shorter prefix makes the parser throw
    a range error. *)
Theorem parseDNSQuery_truncated_throws (msg : Buffer) (query : DNSQuery) :
  parseDNSQuery utf8Slice msg = Ok query ->
  exists e : nat,
    (17 <= e <= length msg)%nat /\
    parseDNSQuery utf8Slice (take e msg) = Ok query /\
    forall n : nat, (n < e)%nat -> parseDNSQuery utf8Slice (take n msg) = Throw RangeError.
Proof.
  intros H. destruct (parseDNSQuery_reads_first_question utf8Slice msg query H)
    as (e & He & Hsame & Hmin).
  exists e. split; [done|]. split.
  - apply Hsame. intros i Hi. by apply lookup_take_lt.
  - intros n Hn.
    destruct (parseDNSQuery utf8Slice (take n msg)) as [query'|err|] eqn:E.
    + apply Hmin in E.
      * rewrite length_take in E. lia.
      * intros i Hi. rewrite length_take in Hi. apply lookup_take_lt. lia.
    + by apply parseDNSQuery_Throw in E as ->.
    + by apply parseDNSQuery_not_Diverge in E.
Qed.

End ParserTheorems.

Lemma svc_query_parses : parseDNSQuery ascii_utf8Slice svc_query = Ok svc_parsed.
Proof. vm_compute. reflexivity. Qed.

Lemma parseDNSQuery_ignores_what_follows_witness :
  parseDNSQuery ascii_utf8Slice svc_query = Ok svc_parsed /\
  parseDNSQuery ascii_utf8Slice (svc_query ++ api_question) = Ok svc_parsed.
Proof.
  exact (conj svc_query_parses
           (parseDNSQuery_ignores_what_follows ascii_utf8Slice svc_query api_question
              svc_parsed svc_query_parses)).
Defined.

Lemma parseDNSQuery_truncated_throws_witness :
  parseDNSQuery ascii_utf8Slice svc_query = Ok svc_parsed /\
  exists e : nat,
    (17 <= e <= length svc_query)%nat /\
    parseDNSQuery ascii_utf8Slice (take e svc_query) = Ok svc_parsed /\
    forall n : nat, (n < e)%nat ->
      parseDNSQuery ascii_utf8Slice (take n svc_query) = Throw RangeError.
Proof.
  exact (conj svc_query_parses
           (parseDNSQuery_truncated_throws ascii_utf8Slice svc_query svc_parsed
              svc_query_parses)).
Defined.

(** * The error response carries the question *)

Section ErrorEcho.
Variable utf8Slice : list byte -> jsstring.

(** The label loop looks only at the bytes from where it starts to where it
    stops. *)
Lemma parse_labels_agree_from (msg msg' : Buffer) :
  forall (fuel offset : nat) (labels labels' : list jsstring) (offset' : nat),
    parse_labels utf8Slice fuel msg offset labels = Ok (labels', offset') ->
    (offset' <= length msg')%nat ->
    (forall i : nat, (offset <= i < offset')%nat -> msg' !! i = msg !! i) ->
    parse_labels utf8Slice fuel msg' offset labels = Ok (labels', offset').
Proof.
  induction fuel as [|fuel IH]; intros offset labels labels' offset' H Hlen' Hagree;
    [discriminate|].
  pose proof (parse_labels_offset _ _ _ _ _ _ _ H) as [[Hlt Hle] _].
  cbn [parse_labels] in *. apply bind_Ok in H as (len & Hread & H).
  rewrite (readUInt8_agree msg msg') by (apply Hagree; lia).
  rewrite Hread, bind_Ok_l. destruct (len =? 0) eqn:E; [done|].
  pose proof (parse_labels_offset _ _ _ _ _ _ _ H) as [[Hlt' Hle'] _].
  assert (Hlabel : toString_utf8 utf8Slice msg' (offset + 1) (offset + 1 + Z.to_nat len)
                   = toString_utf8 utf8Slice msg (offset + 1) (offset + 1 + Z.to_nat len)).
  { unfold toString_utf8.
    replace (length msg' <=? offset + 1)%nat with false by (symmetry; apply Nat.leb_gt; lia).
    replace (length msg <=? offset + 1)%nat with false by (symmetry; apply Nat.leb_gt; lia).
    replace (Nat.min (offset + 1 + Z.to_nat len) (length msg'))
      with (offset + 1 + Z.to_nat len)%nat by lia.
    replace (Nat.min (offset + 1 + Z.to_nat len) (length msg))
      with (offset + 1 + Z.to_nat len)%nat by lia.
    destruct (_ <=? _)%nat; [done|]. f_equal.
    apply list_eq. intros i.
    destruct (decide (i < offset + 1 + Z.to_nat len - (offset + 1))%nat).
    - rewrite !lookup_take_lt, !lookup_drop by done. apply Hagree. lia.
    - by rewrite !lookup_take_ge by lia. }
  rewrite Hlabel. apply IH; [done..|]. intros i Hi. apply Hagree. lia.
Qed.

(** X3. The synthesized error response to a query that parses parses itself,
    to the same transaction id, counts, domain, type and class; only the
    flags read 0x8183. *)
Theorem error_response_parses_to_the_query (msg : Buffer) (query : DNSQuery) :
  parseDNSQuery utf8Slice msg = Ok query ->
  exists errorResponse,
    createDNSErrorResponse msg = Ok errorResponse /\
    parseDNSQuery utf8Slice errorResponse
    = Ok {| header := {| hdr_id := hdr_id (header query); hdr_flags := 0x8183;
                         hdr_qdcount := hdr_qdcount (header query);
                         hdr_ancount := hdr_ancount (header query);
                         hdr_nscount := hdr_nscount (header query);
                         hdr_arcount := hdr_arcount (header query) |};
            domain := domain query; type := type query; class := class query;
            typeString := typeString query |}.
Proof.
  intros Hparse.
  pose proof (parseDNSQuery_length _ _ _ Hparse) as Hlen.
  destruct (createDNSErrorResponse_flags msg ltac:(lia)) as (r & Hr & HL & Hframe & Hflags).
  exists r. split; [exact Hr|].
  unfold parseDNSQuery in *.
  apply bind_Ok in Hparse as (id & H0 & H). apply bind_Ok in H as (fl & H2 & H).
  apply bind_Ok in H as (qd & H4 & H). apply bind_Ok in H as (an & H6 & H).
  apply bind_Ok in H as (ns & H8 & H). apply bind_Ok in H as (ar & H10 & H).
  apply bind_Ok in H as ([labels o] & HLab & H).
  apply bind_Ok in H as (ty & Hty & H). apply bind_Ok in H as (cl & Hcl & H).
  apply Ok_inj in H. subst query. cbn [header domain type class typeString hdr_id
    hdr_qdcount hdr_ancount hdr_nscount hdr_arcount].
  pose proof (parse_labels_offset _ _ _ _ _ _ _ HLab) as [[Ho Hole] _].
  rewrite (readUInt16BE_agree msg r 0), H0, bind_Ok_l by (apply Hframe; lia).
  rewrite Hflags, bind_Ok_l.
  rewrite (readUInt16BE_agree msg r 4), H4, bind_Ok_l by (apply Hframe; lia).
  rewrite (readUInt16BE_agree msg r 6), H6, bind_Ok_l by (apply Hframe; lia).
  rewrite (readUInt16BE_agree msg r 8), H8, bind_Ok_l by (apply Hframe; lia).
  rewrite (readUInt16BE_agree msg r 10), H10, bind_Ok_l by (apply Hframe; lia).
  rewrite HL.
  rewrite (parse_labels_agree_from msg r _ _ _ _ _ HLab)
    by (lia || (intros i Hi; apply Hframe; lia)).
  rewrite bind_Ok_l. cbv beta iota zeta.
  rewrite (readUInt16BE_agree msg r o), Hty, bind_Ok_l by (apply Hframe; lia).
  rewrite (readUInt16BE_agree msg r (o + 2)), Hcl, bind_Ok_l by (apply Hframe; lia).
  reflexivity.
Qed.

End ErrorEcho.

Lemma error_response_parses_to_the_query_witness :
  parseDNSQuery ascii_utf8Slice svc_query = Ok svc_parsed /\
  exists errorResponse,
    createDNSErrorResponse svc_query = Ok errorResponse /\
    (parseDNSQuery ascii_utf8Slice errorResponse ≫= fun q => Ok (domain q, type q))
    = Ok (js "svc.local", 1).
Proof.
  split; [exact svc_query_parses|].
  destruct (error_response_parses_to_the_query ascii_utf8Slice svc_query svc_parsed
              svc_query_parses) as (r & Hr & Hp).
  exists r. split; [exact Hr|]. rewrite Hp. reflexivity.
Defined.

(** * The dispatcher: every datagram of four bytes or more has one outcome *)

Section DispatcherTheorems.
Variable utf8Slice : list byte -> jsstring.
Variable toLowerCase : jsstring -> jsstring.

(** X4. On a datagram of at least four bytes [handleDNSQuery] never throws:
    it either sends the sender an answer with the query's transaction id and
    flags 0x8180 (the query parsed and its folded name is stored), or sends
    the sender the error response (flags 0x8183, all else as received), or
    hands the datagram to the forwarder (the query parsed and its folded name
    is not stored). *)
Theorem handleDNSQuery_answers_or_forwards (dnsRecords : gmap jsstring DNSRecord)
    (msg : Buffer) (rinfo : RemoteInfo) :
  (4 <= length msg)%nat ->
  (exists query record response,
      parseDNSQuery utf8Slice msg = Ok query /\
      dnsRecords !! toLowerCase (domain query) = Some record /\
      handleDNSQuery utf8Slice toLowerCase dnsRecords msg rinfo
        = Ok (ServerSend response (port rinfo) (address rinfo)) /\
      take 2 response = take 2 msg /\ readUInt16BE response 2 = Ok 0x8180) \/
  (exists response,
      handleDNSQuery utf8Slice toLowerCase dnsRecords msg rinfo
        = Ok (ServerSend response (port rinfo) (address rinfo)) /\
      error_response_of msg response) \/
  (exists query,
      parseDNSQuery utf8Slice msg = Ok query /\
      dnsRecords !! toLowerCase (domain query) = None /\
      handleDNSQuery utf8Slice toLowerCase dnsRecords msg rinfo
        = Ok (ForwardDNSQuery msg rinfo query)).
Proof.
  intros Hlen.
  destruct (createDNSErrorResponse_flags msg Hlen) as (err & Herr & Hshape).
  destruct (parseDNSQuery utf8Slice msg) as [query|e|] eqn:Hparse.
  - destruct (dnsRecords !! toLowerCase (domain query)) as [record|] eqn:Hlookup.
    + destruct (createDNSResponse query record msg) as [response|e|] eqn:Hresponse.
      * left. exists query, record, response.
        pose proof (parseDNSQuery_length _ _ _ Hparse) as H12.
        destruct (createDNSResponse_header _ _ _ _ Hresponse H12) as (_ & Hid & Hflags & _).
        repeat split; [done| |done..].
        by apply handleDNSQuery_hit with query record.
      * right; left. exists err. split; [|done].
        rewrite (handleDNSQuery_hit_throws _ _ _ _ _ _ _ e Hparse Hlookup Hresponse).
        by rewrite Herr.
      * by apply createDNSResponse_not_Diverge in Hresponse.
    + right; right. exists query. repeat split; [done|].
      by apply handleDNSQuery_miss.
  - right; left. exists err. split; [|done].
    rewrite (handleDNSQuery_malformed _ _ _ _ _ _ Hparse). by rewrite Herr.
  - by apply parseDNSQuery_not_Diverge in Hparse.
Qed.

(** X5. [handleDNSQuery] lets an exception escape exactly on the datagrams
    shorter than four bytes, and the exception is then the range error of
    the error path's own write. *)
Theorem handleDNSQuery_throws_iff_short (dnsRecords : gmap jsstring DNSRecord)
    (msg : Buffer) (rinfo : RemoteInfo) :
  (exists e, handleDNSQuery utf8Slice toLowerCase dnsRecords msg rinfo = Throw e)
  <-> (length msg < 4)%nat.
Proof.
  split.
  - intros [e He]. destruct (decide (length msg < 4)%nat) as [|Hge]; [done|].
    destruct (createDNSErrorResponse_flags msg ltac:(lia)) as (err & Herr & _).
    revert He. unfold handleDNSQuery.
    destruct (parseDNSQuery utf8Slice msg) as [query| |]; cbn [try_catch mbind result_bind].
    + destruct (dnsRecords !! toLowerCase (domain query)) as [record|]; [|discriminate].
      destruct (createDNSResponse query record msg) as [response| |];
        cbn [try_catch mbind result_bind]; try discriminate.
      by rewrite Herr.
    + by rewrite Herr.
    + discriminate.
  - intros Hlen. exists RangeError. by apply short_datagram_escapes_handler.
Qed.

End DispatcherTheorems.

Lemma handleDNSQuery_answers_or_forwards_witness :
  (4 <= length svc_query)%nat /\
  exists response,
    handleDNSQuery ascii_utf8Slice ascii_toLowerCase svc_store svc_query sample_rinfo
      = Ok (ServerSend response (port sample_rinfo) (address sample_rinfo)) /\
    take 2 response = take 2 svc_query.
Proof.
  assert (Hlen : (4 <= length svc_query)%nat) by (vm_compute; lia).
  split; [exact Hlen|].
  destruct (handleDNSQuery_answers_or_forwards ascii_utf8Slice ascii_toLowerCase
              svc_store svc_query sample_rinfo Hlen)
    as [(q & r & response & _ & _ & H & Hid & _)|[(response & H & _ & Hsame & _)|(q & _ & _ & H)]].
  - exists response. by split.
  - exists response. split; [exact H|].
    apply list_eq. intros [|[|i]]; cbn [take lookup]; rewrite ?lookup_take_lt by lia;
      try (apply Hsame; lia). by rewrite !lookup_take_ge by lia.
  - vm_compute in H. discriminate.
Defined.

(** * The resource record, for every stored record *)

Lemma writeUInt8_append_stored (w : Buffer) (n : nat) (part : jsstring) (offset : nat) :
  offset = length w -> (1 <= n)%nat -> storable part ->
  writeUInt8 (w ++ replicate n x00) (parseInt part) offset
  = Ok ((w ++ [stored_octet part]) ++ replicate (n - 1) x00).
Proof.
  intros Hoff Hn. unfold storable, stored_octet.
  destruct (parseInt part) as [|z]; intros Hz; [|by apply writeUInt8_append].
  subst offset. unfold writeUInt8.
  destruct n as [|n]; [lia|]. rewrite replicate_S.
  rewrite list_lookup_middle by done.
  rewrite insert_app_r_alt, Nat.sub_diag by lia. simpl.
  by rewrite Nat.sub_0_r, <- app_assoc.
Qed.

Lemma write_ip_parts_stored (ipParts : list jsstring) :
  forall (w : Buffer) (n offset : nat),
    Forall storable ipParts -> offset = length w -> (length ipParts <= n)%nat ->
    write_ip_parts ipParts (w ++ replicate n x00) offset
    = Ok ((w ++ map stored_octet ipParts) ++ replicate (n - length ipParts) x00,
          (offset + length ipParts)%nat).
Proof.
  induction ipParts as [|part ipParts IH]; intros w n offset Hparts Hoff Hn.
  - cbn [write_ip_parts map length]. by rewrite app_nil_r, Nat.sub_0_r, Nat.add_0_r.
  - apply Forall_cons in Hparts as [Hpart Hparts]. cbn [length] in Hn.
    cbn [write_ip_parts]. rewrite writeUInt8_append_stored by (done || lia).
    rewrite bind_Ok_l, IH by (done || rewrite ?length_app; cbn [length]; lia).
    cbn [map length]. rewrite <- (app_assoc w). cbn [app].
    replace (n - 1 - length ipParts)%nat with (n - S (length ipParts))%nat by lia.
    by replace (S offset + length ipParts)%nat with (offset + S (length ipParts))%nat by lia.
Qed.

Lemma writeUInt32BE_range (buf buf' : Buffer) (v : Z) (offset : nat) :
  writeUInt32BE buf v offset = Ok buf' -> 0 <= v <= 4294967295.
Proof.
  unfold writeUInt32BE.
  destruct ((v >? 4294967295) || (v <? 0)) eqn:E; [discriminate|]. lia.
Qed.

Lemma createDNSResponse_ttl_in_range (query : DNSQuery) (record : DNSRecord)
    (originalMsg response : Buffer) :
  createDNSResponse query record originalMsg = Ok response ->
  0 <= ttl record <= 4294967295.
Proof.
  unfold createDNSResponse. intros H.
  do 3 (apply bind_Ok in H as (? & _ & H)).
  apply bind_Ok in H as ([? ?] & _ & H).
  do 5 (apply bind_Ok in H as (? & _ & H)).
  apply bind_Ok in H as (? & H & _).
  by eapply writeUInt32BE_range.
Qed.

(** X6. For a record of any type other than A, the answer to a query whose
    first question is [octets], a zero octet and four bytes is the header
    with flags 0x8180 and answer count 1, that question, and a resource
    record of ten bytes: the name pointer 0xC00C, type 1, class 1 and the
    TTL.  No data length and no data follow, and the record's value is not
    in the response. *)
Theorem createDNSResponse_other_type (query : DNSQuery) (record : DNSRecord)
    (hdr octets qtype_qclass rest : Buffer) :
  length hdr = 12%nat ->
  Forall (fun o : byte => o <> x00) octets ->
  (length octets <= 254)%nat ->
  length qtype_qclass = 4%nat ->
  rtype record <> js "A" ->
  0 <= ttl record <= 4294967295 ->
  createDNSResponse query record (hdr ++ octets ++ x00 :: qtype_qclass ++ rest)
  = Ok (answer_header hdr ++ octets ++ x00 :: qtype_qclass
          ++ be16 0xC00C ++ be16 1 ++ be16 1 ++ be32 (ttl record)).
Proof.
  intros Hhdr Hnz Hoct Hqt Htype Httl.
  rewrite createDNSResponse_question by done. unfold answer_section.
  rewrite writeUInt16BE_append by (buffer_length answer_header_length || lia). rewrite bind_Ok_l.
  assert (Hone : (if decide (rtype record = js "A") then 1 else 1) = 1) by (by case_decide).
  rewrite Hone.
  rewrite writeUInt16BE_append by (buffer_length answer_header_length || lia). rewrite bind_Ok_l.
  rewrite writeUInt16BE_append by (buffer_length answer_header_length || lia). rewrite bind_Ok_l.
  rewrite writeUInt32BE_append by (buffer_length answer_header_length || lia). rewrite bind_Ok_l.
  destruct (decide (rtype record = js "A")) as [|_]; [done|].
  rewrite bind_Ok_l. cbv beta iota zeta.
  unfold slice0. rewrite take_app_length' by buffer_length answer_header_length.
  rewrite <- !app_assoc. reflexivity.
Qed.

(** X7. For a record of type A the data length written is always 4, whatever
    the value: it is followed by one byte per dot-separated part of the
    value, the integer [parseInt] finds at the start of the part, or 0 when
    it finds none.  This holds whenever each such integer is within 0-255 and
    the bytes fit into the 512 of the buffer. *)
Theorem createDNSResponse_A_one_byte_per_part (query : DNSQuery) (record : DNSRecord)
    (hdr octets qtype_qclass rest : Buffer) :
  length hdr = 12%nat ->
  Forall (fun o : byte => o <> x00) octets ->
  (length octets <= 254)%nat ->
  length qtype_qclass = 4%nat ->
  rtype record = js "A" ->
  Forall storable (split 46 (value record)) ->
  (length (split 46 (value record)) <= 229)%nat ->
  0 <= ttl record <= 4294967295 ->
  createDNSResponse query record (hdr ++ octets ++ x00 :: qtype_qclass ++ rest)
  = Ok (answer_header hdr ++ octets ++ x00 :: qtype_qclass
          ++ be16 0xC00C ++ be16 1 ++ be16 1 ++ be32 (ttl record) ++ be16 4
          ++ map stored_octet (split 46 (value record))).
Proof.
  intros Hhdr Hnz Hoct Hqt Htype Hparts Hroom Httl.
  rewrite createDNSResponse_question by done. unfold answer_section.
  rewrite writeUInt16BE_append by (buffer_length answer_header_length || lia). rewrite bind_Ok_l.
  assert (Hone : (if decide (rtype record = js "A") then 1 else 1) = 1) by (by case_decide).
  rewrite Hone.
  rewrite writeUInt16BE_append by (buffer_length answer_header_length || lia). rewrite bind_Ok_l.
  rewrite writeUInt16BE_append by (buffer_length answer_header_length || lia). rewrite bind_Ok_l.
  rewrite writeUInt32BE_append by (buffer_length answer_header_length || lia). rewrite bind_Ok_l.
  destruct (decide (rtype record = js "A")) as [_|N]; [|done].
  rewrite writeUInt16BE_append by (buffer_length answer_header_length || lia). rewrite bind_Ok_l.
  rewrite write_ip_parts_stored by (done || buffer_length answer_header_length).
  rewrite bind_Ok_l. cbv beta iota zeta.
  unfold slice0. rewrite take_app_length'.
  - rewrite <- !app_assoc. reflexivity.
  - rewrite !length_app, length_map, answer_header_length. cbn [length be16 be32]. lia.
Qed.

Lemma createDNSResponse_other_type_witness :
  createDNSResponse svc_parsed {| rtype := js "AAAA"; value := js "::1"; ttl := 300 |}
    (query_header 1 ++ bytes [3; 115; 118; 99; 5; 108; 111; 99; 97; 108]
       ++ x00 :: bytes [0; 28; 0; 1] ++ [])
  = Ok (answer_header (query_header 1) ++ bytes [3; 115; 118; 99; 5; 108; 111; 99; 97; 108]
          ++ x00 :: bytes [0; 28; 0; 1]
          ++ be16 0xC00C ++ be16 1 ++ be16 1 ++ be32 300).
Proof.
  apply (createDNSResponse_other_type svc_parsed
           {| rtype := js "AAAA"; value := js "::1"; ttl := 300 |}).
  - reflexivity.
  - repeat constructor; discriminate.
  - vm_compute; lia.
  - reflexivity.
  - discriminate.
  - cbn [ttl]; lia.
Defined.

Lemma createDNSResponse_A_one_byte_per_part_witness :
  createDNSResponse svc_parsed {| rtype := js "A"; value := js "10.x.7"; ttl := 60 |}
    (query_header 1 ++ bytes [3; 115; 118; 99; 5; 108; 111; 99; 97; 108]
       ++ x00 :: bytes [0; 1; 0; 1] ++ [])
  = Ok (answer_header (query_header 1) ++ bytes [3; 115; 118; 99; 5; 108; 111; 99; 97; 108]
          ++ x00 :: bytes [0; 1; 0; 1]
          ++ be16 0xC00C ++ be16 1 ++ be16 1 ++ be32 60 ++ be16 4
          ++ bytes [10; 0; 7]).
Proof.
  apply (createDNSResponse_A_one_byte_per_part svc_parsed
           {| rtype := js "A"; value := js "10.x.7"; ttl := 60 |}).
  - reflexivity.
  - repeat constructor; discriminate.
  - vm_compute; lia.
  - reflexivity.
  - reflexivity.
  - change (split 46 (value {| rtype := js "A"; value := js "10.x.7"; ttl := 60 |}))
      with [js "10"; js "x"; js "7"].
    repeat constructor; vm_compute; try done; split; discriminate.
  - vm_compute; lia.
  - cbn [ttl]; lia.
Defined.

(** * A TTL that does not fit 32 bits *)

Section TtlOutOfRange.
Variable utf8Slice : list byte -> jsstring.
Variable toLowerCase : jsstring -> jsstring.

(** X8. A stored record whose TTL is negative or above 4294967295 is never
    served: every query that parses and names its domain is answered with
    the error response, because [writeUInt32BE] rejects the TTL. *)
Theorem ttl_out_of_range_yields_error_response (dnsRecords : gmap jsstring DNSRecord)
    (msg : Buffer) (rinfo : RemoteInfo) (query : DNSQuery) (record : DNSRecord) :
  parseDNSQuery utf8Slice msg = Ok query ->
  lookup_record toLowerCase dnsRecords (domain query) = Some record ->
  ttl record < 0 \/ 4294967295 < ttl record ->
  exists response,
    handleDNSQuery utf8Slice toLowerCase dnsRecords msg rinfo
      = Ok (ServerSend response (port rinfo) (address rinfo)) /\
    error_response_of msg response.
Proof.
  intros Hparse Hlook Httl. unfold lookup_record in Hlook.
  pose proof (parseDNSQuery_length _ _ _ Hparse) as Hlen.
  destruct (createDNSErrorResponse_flags msg ltac:(lia)) as (err & Herr & Hshape).
  exists err. split; [|done].
  destruct (createDNSResponse query record msg) as [response|e|] eqn:Hresp.
  - apply createDNSResponse_ttl_in_range in Hresp. lia.
  - erewrite handleDNSQuery_hit_throws by done. by rewrite Herr.
  - by apply createDNSResponse_not_Diverge in Hresp.
Qed.

End TtlOutOfRange.

(** The record the console stores for [add svc.local A 127.0.0.1 -5]. *)
Lemma ttl_out_of_range_yields_error_response_witness :
  exists response,
    handleDNSQuery ascii_utf8Slice ascii_toLowerCase
      (console_command ascii_toLowerCase ∅ (js "add svc.local A 127.0.0.1 -5")).1
      svc_query sample_rinfo
      = Ok (ServerSend response (port sample_rinfo) (address sample_rinfo)) /\
    error_response_of svc_query response.
Proof.
  apply (ttl_out_of_range_yields_error_response ascii_utf8Slice ascii_toLowerCase _
           svc_query sample_rinfo svc_parsed
           {| rtype := js "A"; value := js "127.0.0.1"; ttl := -5 |}).
  - vm_compute. reflexivity.
  - vm_compute. reflexivity.
  - left. cbn [ttl]. lia.
Defined.

(** * The forwarder over every order of events *)

(** After its process died nothing changes. *)
Lemma step_dead (msg : Buffer) (st : Forward) (ev : event) :
  uncaught st <> None -> step msg st ev = st.
Proof. intros H. unfold step, enabled. by destruct (uncaught st). Qed.

Lemma run_dead (msg : Buffer) (events : list event) :
  forall st : Forward, uncaught st <> None -> foldl (step msg) st events = st.
Proof.
  induction events as [|ev events IH]; intros st H; [done|].
  cbn [foldl]. rewrite step_dead by done. by apply IH.
Qed.

(** Once the exchange is over, replies and the timer do nothing. *)
Lemma step_exchange_over (msg : Buffer) (st : Forward) (ev : event) :
  exchange_over st -> ev <> SendFailed -> step msg st ev = st.
Proof.
  intros [H|[Hs Ht]] Hev; [by apply step_dead|].
  unfold step, enabled. destruct (uncaught st); [done|].
  destruct ev; by rewrite ?Hs, ?Ht.
Qed.

(** A send failure reported then leaves the exchange over. *)
Lemma step_send_failed_over (msg : Buffer) (st : Forward) :
  exchange_over st -> exchange_over (step msg st SendFailed).
Proof.
  intros Hover. unfold step, enabled.
  destruct (uncaught st) eqn:Hu; [done|].
  destruct Hover as [H|[Hs Ht]]; [congruence|].
  cbn [disarm callback].
  destruct (createDNSErrorResponse msg); cbn [mbind result_bind finish];
    unfold exchange_over, server_send, raise; cbn [socket_open timer_armed uncaught];
    (by right) || by left.
Qed.

Lemma run_exchange_over (msg : Buffer) (events : list event) :
  forall st : Forward,
    exchange_over st ->
    foldl (step msg) st events = foldl (step msg) st (send_failures events).
Proof.
  induction events as [|ev events IH]; intros st Hover; [done|].
  destruct ev as [response| |]; cbn [foldl send_failures].
  - rewrite step_exchange_over by done. by apply IH.
  - by apply IH, step_send_failed_over.
  - rewrite step_exchange_over by done. by apply IH.
Qed.

(** Once the timer is off the exchange is over. *)
Lemma step_timer_off (msg : Buffer) (st : Forward) (ev : event) :
  (timer_armed st = false -> exchange_over st) ->
  timer_armed (step msg st ev) = false -> exchange_over (step msg st ev).
Proof.
  intros Hinv. unfold step.
  destruct (enabled ev st) eqn:Hen; [|done].
  unfold enabled in Hen. destruct (uncaught st) eqn:Hu; [done|].
  destruct ev as [response| |]; cbn [disarm callback].
  - unfold upstream_close. cbn [server_send socket_open]. rewrite Hen.
    cbn [finish timer_armed]. intros Ht. destruct (Hinv Ht) as [H|[H _]]; congruence.
  - destruct (createDNSErrorResponse msg);
      cbn [mbind result_bind finish server_send raise timer_armed];
      intros Ht; (destruct (Hinv Ht) as [H|[Hs _]]; [congruence|]);
      unfold exchange_over; cbn [socket_open timer_armed uncaught];
      (by right) || (by left) || by (right; rewrite Hs, Ht).
  - intros _. unfold upstream_close. cbn [socket_open timer_armed to_client uncaught].
    destruct (socket_open st).
    + destruct (createDNSErrorResponse msg);
        cbn [mbind result_bind finish server_send raise socket_open timer_armed uncaught];
        unfold exchange_over; cbn [socket_open timer_armed uncaught]; (by right) || by left.
    + left. done.
Qed.

Lemma run_timer_off (msg : Buffer) (events : list event) :
  timer_armed (run msg events) = false -> exchange_over (run msg events).
Proof.
  unfold run. induction events as [|ev events IH] using rev_ind; [done|].
  rewrite foldl_app. cbn [foldl]. by apply step_timer_off.
Qed.

Lemma step_timer_fired (msg : Buffer) (st : Forward) :
  (timer_armed st = false -> exchange_over st) -> exchange_over (step msg st TimerFired).
Proof.
  intros Hinv.
  destruct (uncaught st) eqn:Hu.
  { assert (uncaught st <> None) as H by congruence.
    rewrite step_dead by done. by left. }
  destruct (timer_armed st) eqn:Ht; [|by rewrite step_exchange_over; auto].
  apply step_timer_off; [by rewrite Ht|].
  unfold step, enabled. rewrite Hu, Ht.
  cbn [disarm callback]. unfold upstream_close. cbn [socket_open timer_armed to_client uncaught].
  destruct (socket_open st); [|done].
  by destruct (createDNSErrorResponse msg).
Qed.

(** X9. Once the timer callback has been due, whatever came before it and
    whatever the datagram, a later upstream reply or timer event changes
    nothing: a late reply is not relayed.  Of the events that follow only
    the send failures reported count. *)
Theorem timer_ends_the_exchange (msg : Buffer) (before after : list event) :
  run msg (before ++ TimerFired :: after)
  = run msg (before ++ TimerFired :: send_failures after).
Proof.
  unfold run. rewrite !foldl_app. cbn [foldl].
  apply run_exchange_over, step_timer_fired, (run_timer_off msg before).
Qed.

Section ForwarderRuns.
Variable msg errorResponse : Buffer.
Hypothesis error_response : createDNSErrorResponse msg = Ok errorResponse.

Lemma step_send_failed (st : Forward) :
  uncaught st = None -> step msg st SendFailed = server_send errorResponse st.
Proof.
  intros Hu. unfold step, enabled. rewrite Hu. cbn [disarm callback].
  by rewrite error_response.
Qed.

Lemma run_after_timer (events : list event) :
  forall sent : list Buffer,
    let st := foldl (step msg)
                {| socket_open := false; timer_armed := false;
                   to_client := sent; uncaught := None |} events in
    to_client st = sent ++ sent_after_timer errorResponse events /\ uncaught st = None.
Proof.
  unfold sent_after_timer.
  induction events as [|ev events IH]; intros sent.
  { cbn. by rewrite app_nil_r. }
  destruct ev as [response| |]; cbn [foldl send_failures map].
  - rewrite step_exchange_over by (done || by right). apply IH.
  - rewrite step_send_failed by done. unfold server_send.
    cbn [socket_open timer_armed to_client uncaught]. cbv zeta.
    destruct (IH (sent ++ [errorResponse])) as [-> ->]. by rewrite <- app_assoc.
  - rewrite step_exchange_over by (done || by right). apply IH.
Qed.

Lemma run_after_reply (events : list event) :
  forall sent : list Buffer,
    let st := foldl (step msg)
                {| socket_open := false; timer_armed := true;
                   to_client := sent; uncaught := None |} events in
    to_client st = sent ++ sent_after_reply errorResponse events /\
    uncaught st = if existsb is_timer events then Some ERR_SOCKET_DGRAM_NOT_RUNNING else None.
Proof.
  induction events as [|ev events IH]; intros sent.
  { cbn. by rewrite app_nil_r. }
  destruct ev as [response| |]; cbn [foldl existsb is_timer orb sent_after_reply].
  - apply IH.
  - rewrite step_send_failed by done. unfold server_send.
    cbn [socket_open timer_armed to_client uncaught]. cbv zeta.
    destruct (IH (sent ++ [errorResponse])) as [-> ->]. by rewrite <- app_assoc.
  - change (step msg _ TimerFired)
      with {| socket_open := false; timer_armed := false; to_client := sent;
              uncaught := Some ERR_SOCKET_DGRAM_NOT_RUNNING |}.
    cbv zeta. rewrite run_dead by done. by rewrite app_nil_r.
Qed.

Lemma run_open (events : list event) :
  forall sent : list Buffer,
    let st := foldl (step msg)
                {| socket_open := true; timer_armed := true;
                   to_client := sent; uncaught := None |} events in
    to_client st = sent ++ sent_to_client errorResponse events /\
    uncaught st = if reply_precedes_timer events
                  then Some ERR_SOCKET_DGRAM_NOT_RUNNING else None.
Proof.
  induction events as [|ev events IH]; intros sent.
  { cbn. by rewrite app_nil_r. }
  destruct ev as [response| |]; cbn [foldl sent_to_client reply_precedes_timer].
  - change (step msg _ (UpstreamMessage response))
      with {| socket_open := false; timer_armed := true; to_client := sent ++ [response];
              uncaught := None |}.
    cbv zeta. destruct (run_after_reply events (sent ++ [response])) as [-> ->].
    by rewrite <- app_assoc.
  - rewrite step_send_failed by done. unfold server_send.
    cbn [socket_open timer_armed to_client uncaught]. cbv zeta.
    destruct (IH (sent ++ [errorResponse])) as [-> ->]. by rewrite <- app_assoc.
  - assert (Hstep : step msg {| socket_open := true; timer_armed := true;
                                to_client := sent; uncaught := None |} TimerFired
                    = {| socket_open := false; timer_armed := false;
                         to_client := sent ++ [errorResponse]; uncaught := None |}).
    { unfold step. cbn [enabled uncaught timer_armed disarm callback upstream_close socket_open
                        to_client].
      by rewrite error_response. }
    rewrite Hstep. cbv zeta.
    destruct (run_after_timer events (sent ++ [errorResponse])) as [-> ->].
    by rewrite <- app_assoc.
Qed.

(** X10. What the client is sent for a forwarded query, over every order of
    events: the error response for each send failure reported while the
    process lives, and one datagram more, the first upstream reply or the
    error response of the timer, whichever of the two comes first.  A late
    send failure is answered after the timer too; after a reply the timer
    sends nothing.  So once the timer has fired the client has been sent
    something. *)
Theorem forwarder_datagrams (events : list event) :
  to_client (run msg events) = sent_to_client errorResponse events /\
  (TimerFired ∈ events -> to_client (run msg events) <> []).
Proof.
  destruct (run_open events []) as [Hsent _]. cbv zeta in Hsent.
  change (foldl (step msg) _ events) with (run msg events) in Hsent.
  rewrite Hsent. cbn [app]. split; [done|].
  clear Hsent. induction events as [|ev events IH]; intros Hin.
  - by apply elem_of_nil in Hin.
  - destruct ev; cbn [sent_to_client]; done.
Qed.

(** X11. The forwarder dies with an uncaught exception exactly when an
    upstream reply is relayed before the timer fires: the reply closes the
    socket, the timer is never cleared, and its callback closes the socket
    again.  In every other order of events no exception leaves a callback. *)
Theorem forwarder_crashes_iff_reply_precedes_timer (events : list event) :
  uncaught (run msg events)
  = if reply_precedes_timer events then Some ERR_SOCKET_DGRAM_NOT_RUNNING else None.
Proof. by destruct (run_open events []) as [_ H]. Qed.

End ForwarderRuns.

Lemma svc_query_error_response :
  createDNSErrorResponse svc_query
  = Ok (<[3%nat := x83]> (<[2%nat := x81]> svc_query)).
Proof. vm_compute. reflexivity. Qed.

(** The timer, then the send failure reported late: two error responses. *)
Lemma forwarder_datagrams_witness :
  to_client (run svc_query [TimerFired; SendFailed])
  = [<[3%nat := x83]> (<[2%nat := x81]> svc_query);
     <[3%nat := x83]> (<[2%nat := x81]> svc_query)].
Proof.
  exact (proj1 (forwarder_datagrams svc_query _ svc_query_error_response
                  [TimerFired; SendFailed])).
Defined.

Lemma forwarder_crashes_iff_reply_precedes_timer_witness :
  uncaught (run svc_query [SendFailed; UpstreamMessage (bytes [1; 2]); TimerFired])
  = Some ERR_SOCKET_DGRAM_NOT_RUNNING.
Proof.
  exact (forwarder_crashes_iff_reply_precedes_timer svc_query _ svc_query_error_response
           [SendFailed; UpstreamMessage (bytes [1; 2]); TimerFired]).
Defined.

(** * Loading the configuration *)

Section ConfigTheorems.
Variable toLowerCase : jsstring -> jsstring.

(** X12. After [loadDNSConfig] has read a configuration, a name is stored
    exactly when some entry's name folds to it, and the record is that of
    the last such entry, with a TTL that is absent or 0 replaced by 300;
    the upstream list is the configured one, or 8.8.8.8 alone when there is
    none. *)
Theorem loadDNSConfig_last_entry_wins (config : Config) (key : jsstring) :
  (loadDNSConfig toLowerCase (Some config)).1 !! key
  = (entry ← last (filter (fun entry => toLowerCase entry.1 = key) (domains config));
     Some {| rtype := cfg_type entry.2; value := cfg_value entry.2;
             ttl := or_300 (cfg_ttl entry.2) |}) /\
  (loadDNSConfig toLowerCase (Some config)).2
  = match upstreamDNS config with Some servers => servers | None => [js "8.8.8.8"] end.
Proof.
  split; [|reflexivity].
  change ((loadDNSConfig toLowerCase (Some config)).1)
    with (load_domains toLowerCase (domains config) ∅).
  unfold load_domains.
  induction (domains config) as [|entry entries IH] using rev_ind; [done|].
  rewrite foldl_app, filter_app. cbn [foldl].
  destruct (decide (toLowerCase entry.1 = key)) as [Hkey|Hkey].
  - rewrite filter_cons_True, filter_nil by done. rewrite last_snoc. cbn [mbind option_bind].
    rewrite <- Hkey. apply lookup_insert_eq.
  - rewrite filter_cons_False, filter_nil, app_nil_r by done.
    by rewrite lookup_insert_ne.
Qed.

End ConfigTheorems.

(** * The console *)

Lemma trim_text (s : jsstring) (first final : Z) :
  head s = Some first -> is_white_space first = false ->
  last s = Some final -> is_white_space final = false ->
  trim s = s.
Proof.
  intros Hhead Hfirst Hlast Hfinal. unfold trim.
  destruct s as [|c s]; [done|]. injection Hhead as ->.
  cbn [skip_white_space]. rewrite Hfirst.
  apply last_Some in Hlast as [l Hl]. rewrite Hl, rev_unit.
  cbn [skip_white_space]. rewrite Hfinal.
  by rewrite <- rev_unit, rev_involutive.
Qed.

Lemma last_after_space (pre s : jsstring) (final : Z) :
  last s = Some final -> last (pre ++ 32 :: s) = Some final.
Proof.
  intros [l ->]%last_Some.
  change (pre ++ 32 :: l ++ [final]) with (pre ++ (32 :: l) ++ [final]).
  rewrite app_assoc. apply last_snoc.
Qed.

Lemma parseInt_digits (s : jsstring) :
  s <> [] -> Forall (fun c => 48 <= c <= 57) s -> parseInt s = Int (digits_value s).
Proof.
  intros Hne Hd. destruct s as [|c s]; [done|]. clear Hne.
  pose proof Hd as Hd'. apply Forall_cons in Hd' as [Hc Hs].
  unfold parseInt. cbn [skip_white_space]. rewrite digit_not_white_space by done.
  replace (c =? 45) with false by lia. replace (c =? 43) with false by lia.
  cbn [orb].
  assert (Hhex : match c :: s with
                 | c0 :: c1 :: _ => (c0 =? 48) && ((c1 =? 120) || (c1 =? 88))
                 | _ => false
                 end = false).
  { destruct s as [|c1 s]; [done|]. apply Forall_cons in Hs as [Hc1 _]. lia. }
  rewrite Hhex. rewrite parse_digits_decimal by done.
  unfold digits_value. simpl default. f_equal. lia.
Qed.

Section ConsoleTheorems.
Variable toLowerCase : jsstring -> jsstring.

(** X13. [add <domain> <type> <value>] stores the record under the folded
    domain with TTL 300, and with a fourth word of decimal digits (a number
    up to 4294967295, the largest TTL that can be served) the TTL is that
    number, except that 0 becomes 300.  The three words hold no space and
    the line ends in something other than white space. *)
Theorem console_add_stores (dnsRecords : gmap jsstring DNSRecord)
    (domain type value digits : jsstring) (final : Z) :
  Forall (fun c => c <> 32) domain ->
  Forall (fun c => c <> 32) type ->
  Forall (fun c => c <> 32) value ->
  last value = Some final -> is_white_space final = false ->
  digits <> [] -> Forall (fun c => 48 <= c <= 57) digits ->
  digits_value digits <= 4294967295 ->
  console_command toLowerCase dnsRecords
    (js "add" ++ 32 :: domain ++ 32 :: type ++ 32 :: value)
  = (addRecord toLowerCase dnsRecords domain type value (Some 300), AddedRecord) /\
  console_command toLowerCase dnsRecords
    (js "add" ++ 32 :: domain ++ 32 :: type ++ 32 :: value ++ 32 :: digits)
  = (addRecord toLowerCase dnsRecords domain type value
       (Some (if digits_value digits =? 0 then 300 else digits_value digits)),
     AddedRecord).
Proof.
  intros Hdomain Htype Hvalue Hlast Hfinal Hne Hdigits _.
  assert (Hadd : Forall (fun c => c <> 32) (js "add")) by (repeat constructor; discriminate).
  assert (Hdigits32 : Forall (fun c => c <> 32) digits).
  { eapply Forall_impl; [exact Hdigits|]. cbv beta. lia. }
  unfold console_command. split.
  - rewrite (trim_text _ 97 final) by (done || by repeat apply last_after_space).
    rewrite !split_app, split_no_separator by done.
    destruct (decide (js "add" = js "help")) as [E|_]; [discriminate E|].
    destruct (decide (js "add" = js "list")) as [E|_]; [discriminate E|].
    destruct (decide (js "add" = js "add")) as [_|N]; [|done].
    reflexivity.
  - destruct (last digits) as [d|] eqn:Hd; [|by apply last_None in Hd].
    assert (Hd' : 48 <= d <= 57).
    { apply last_Some in Hd as [l ->]. apply Forall_app in Hdigits as [_ H].
      exact (Forall_inv H). }
    rewrite (trim_text _ 97 d)
      by (done || (by repeat apply last_after_space) || by apply digit_not_white_space).
    rewrite !split_app, split_no_separator by done.
    destruct (decide (js "add" = js "help")) as [E|_]; [discriminate E|].
    destruct (decide (js "add" = js "list")) as [E|_]; [discriminate E|].
    destruct (decide (js "add" = js "add")) as [_|N]; [|done].
    cbn [length Nat.leb lookup list_lookup default].
    by rewrite parseInt_digits.
Qed.

(** X14. [remove <domain>], the word holding no space and the line ending in
    something other than white space, deletes the folded domain and nothing
    else, and reports whether it was stored. *)
Theorem console_remove_deletes (dnsRecords : gmap jsstring DNSRecord)
    (domain : jsstring) (final : Z) :
  Forall (fun c => c <> 32) domain ->
  last domain = Some final -> is_white_space final = false ->
  console_command toLowerCase dnsRecords (js "remove" ++ 32 :: domain)
  = (delete (toLowerCase domain) dnsRecords,
     RemoveCalled (bool_decide (is_Some (lookup_record toLowerCase dnsRecords domain)))).
Proof.
  intros Hdomain Hlast Hfinal.
  assert (Hremove : Forall (fun c => c <> 32) (js "remove"))
    by (repeat constructor; discriminate).
  unfold console_command.
  rewrite (trim_text _ 114 final) by (done || by repeat apply last_after_space).
  rewrite !split_app, split_no_separator by done.
  destruct (decide (js "remove" = js "help")) as [E|_]; [discriminate E|].
  destruct (decide (js "remove" = js "list")) as [E|_]; [discriminate E|].
  destruct (decide (js "remove" = js "add")) as [E|_]; [discriminate E|].
  destruct (decide (js "remove" = js "remove")) as [_|N]; [|done].
  destruct (decide (domain = [])) as [->|_]; [done|].
  reflexivity.
Qed.

(** X15. No line typed at the console changes what is stored under a key,
    unless its first word is [add] or [remove] and its second word folds to
    that key. *)
Theorem console_command_changes_one_key (dnsRecords : gmap jsstring DNSRecord)
    (input key : jsstring) :
  (console_command toLowerCase dnsRecords input).1 !! key <> dnsRecords !! key ->
  exists command domain args,
    split 32 (trim input) = command :: domain :: args /\
    (command = js "add" \/ command = js "remove") /\
    toLowerCase domain = key.
Proof.
  unfold console_command.
  destruct (split 32 (trim input)) as [|command args]; [done|].
  destruct (decide (command = js "help")); [done|].
  destruct (decide (command = js "list")); [done|].
  destruct (decide (command = js "add")) as [Hadd|].
  { destruct (3 <=? length args)%nat eqn:Hlen; [|done].
    destruct args as [|domain args]; [done|].
    cbn [fst lookup list_lookup default]. unfold addRecord. intros Hdiff.
    exists command, domain, args. repeat split; [by left|].
    destruct (decide (toLowerCase domain = key)); [done|].
    by rewrite lookup_insert_ne in Hdiff. }
  destruct (decide (command = js "remove")) as [Hremove|].
  { destruct args as [|domain args]; [done|].
    destruct (decide (domain = [])); [done|].
    unfold removeRecord. cbn [fst]. intros Hdiff.
    exists command, domain, args. repeat split; [by right|].
    destruct (decide (toLowerCase domain = key)); [done|].
    by rewrite lookup_delete_ne in Hdiff. }
  by destruct (bool_decide (command = js "quit") || bool_decide (command = js "exit")).
Qed.

End ConsoleTheorems.

Lemma console_add_stores_witness :
  console_command ascii_toLowerCase ∅ (js "add Svc.Local A 10.0.0.5")
  = (addRecord ascii_toLowerCase ∅ (js "Svc.Local") (js "A") (js "10.0.0.5") (Some 300),
     AddedRecord) /\
  console_command ascii_toLowerCase ∅ (js "add Svc.Local A 10.0.0.5 0")
  = (addRecord ascii_toLowerCase ∅ (js "Svc.Local") (js "A") (js "10.0.0.5") (Some 300),
     AddedRecord).
Proof.
  apply (console_add_stores ascii_toLowerCase ∅ (js "Svc.Local") (js "A") (js "10.0.0.5")
           (js "0") 53).
  - repeat constructor; discriminate.
  - repeat constructor; discriminate.
  - repeat constructor; discriminate.
  - reflexivity.
  - reflexivity.
  - discriminate.
  - repeat constructor; vm_compute; discriminate.
  - vm_compute; discriminate.
Defined.

Lemma console_remove_deletes_witness :
  console_command ascii_toLowerCase svc_store (js "remove SVC.local")
  = (delete (ascii_toLowerCase (js "SVC.local")) svc_store,
     RemoveCalled
       (bool_decide (is_Some (lookup_record ascii_toLowerCase svc_store (js "SVC.local"))))).
Proof.
  apply (console_remove_deletes ascii_toLowerCase svc_store (js "SVC.local") 108).
  - repeat constructor; discriminate.
  - reflexivity.
  - reflexivity.
Defined.

Lemma console_command_changes_one_key_witness :
  exists command domain args,
    split 32 (trim (js "add Svc.Local A 10.0.0.5")) = command :: domain :: args /\
    (command = js "add" \/ command = js "remove") /\
    ascii_toLowerCase domain = js "svc.local".
Proof.
  apply (console_command_changes_one_key ascii_toLowerCase ∅ (js "add Svc.Local A 10.0.0.5")
           (js "svc.local")).
  vm_compute. discriminate.
Defined.

(** * What a well-formed query parses to *)

Section WellFormedParse.
Variable utf8Slice : list byte -> jsstring.

(** X18. A well-formed query parses, whatever follows its first question:
    the six header fields are the six 16-bit words of the header, the domain
    is the labels of the first question joined by dots, type and class are
    the two words after the name, and the type string is that of the type. *)
Theorem well_formed_query_parses (msg hdr : Buffer) (labels : list (list byte))
    (qtype_qclass rest : Buffer) :
  well_formed_query msg hdr labels qtype_qclass rest ->
  exists query,
    parseDNSQuery utf8Slice msg = Ok query /\
    readUInt16BE hdr 0 = Ok (hdr_id (header query)) /\
    readUInt16BE hdr 2 = Ok (hdr_flags (header query)) /\
    readUInt16BE hdr 4 = Ok (hdr_qdcount (header query)) /\
    readUInt16BE hdr 6 = Ok (hdr_ancount (header query)) /\
    readUInt16BE hdr 8 = Ok (hdr_nscount (header query)) /\
    readUInt16BE hdr 10 = Ok (hdr_arcount (header query)) /\
    domain query = join (js ".") (map utf8Slice labels) /\
    readUInt16BE qtype_qclass 0 = Ok (type query) /\
    readUInt16BE qtype_qclass 2 = Ok (class query) /\
    typeString query = getTypeString (type query).
Proof.
  intros [Hlayout Hhdr Hlabels Hname Hqt].
  destruct (parseDNSQuery_well_formed utf8Slice msg hdr labels qtype_qclass rest)
    as (query & Hparse & Hdomain & Htype & Hclass & _); [done..| |done|].
  { eapply Forall_impl; [exact Hlabels|]. cbv beta. lia. }
  exists query. split; [exact Hparse|].
  unfold parseDNSQuery in Hparse.
  apply bind_Ok in Hparse as (id & H0 & H). apply bind_Ok in H as (fl & H2 & H).
  apply bind_Ok in H as (qd & H4 & H). apply bind_Ok in H as (an & H6 & H).
  apply bind_Ok in H as (ns & H8 & H). apply bind_Ok in H as (ar & H10 & H).
  apply bind_Ok in H as ([names o] & _ & H).
  apply bind_Ok in H as (ty & _ & H). apply bind_Ok in H as (cl & _ & H).
  apply Ok_inj in H. subst query.
  cbn [header domain type class typeString hdr_id hdr_flags hdr_qdcount hdr_ancount
       hdr_nscount hdr_arcount] in *.
  rewrite Hlayout in H0, H2, H4, H6, H8, H10.
  rewrite readUInt16BE_app_l in H0, H2, H4, H6, H8, H10 by lia.
  by repeat split.
Qed.

End WellFormedParse.

Lemma well_formed_query_parses_witness :
  exists query,
    parseDNSQuery ascii_utf8Slice svc_query = Ok query /\
    domain query = js "svc.local" /\ typeString query = js "A".
Proof.
  destruct (well_formed_query_parses ascii_utf8Slice svc_query _ _ _ _ svc_query_well_formed)
    as (query & Hparse & _ & _ & _ & _ & _ & _ & Hdomain & Htype & _ & Hstring).
  exists query. split; [exact Hparse|]. split; [exact Hdomain|].
  assert (Hone : Ok 1 = Ok (type query)) by exact Htype.
  apply Ok_inj in Hone. by rewrite Hstring, <- Hone.
Defined.

(** * Type strings *)

Lemma decimal_digits (fuel : nat) :
  forall (n : Z) (acc : jsstring),
    0 <= n < 10 ^ Z.of_nat fuel ->
    exists digits, decimal fuel n acc = digits ++ acc /\ digits_value digits = n.
Proof.
  induction fuel as [|fuel IH]; intros n acc Hn.
  { change (10 ^ Z.of_nat 0) with 1 in Hn. exists []. split; [done|]. cbn. lia. }
  cbn [decimal]. destruct (n <? 10) eqn:Hsmall.
  - exists [48 + n mod 10]. split; [done|]. unfold digits_value. cbn [foldl].
    rewrite Z.mod_small by lia. lia.
  - destruct (IH (n / 10) ((48 + n mod 10) :: acc)) as (digits & -> & Hvalue).
    { rewrite Nat2Z.inj_succ, Z.pow_succ_r in Hn by lia.
      split; [apply Z.div_pos; lia|apply Z.div_lt_upper_bound; lia]. }
    exists (digits ++ [48 + n mod 10]). split; [by rewrite <- app_assoc|].
    unfold digits_value in *. rewrite foldl_app. cbn [foldl]. rewrite Hvalue.
    pose proof (Z.div_mod n 10 ltac:(lia)). lia.
Qed.

(** X19. On the 16-bit type codes [getTypeString] is injective: queries of
    different types get different type strings, and no [TYPEn] string is one
    of the seven mnemonics. *)
Theorem getTypeString_injective (type type' : Z) :
  0 <= type <= 65535 -> 0 <= type' <= 65535 ->
  type <> type' -> getTypeString type <> getTypeString type'.
Proof.
  intros Hrange Hrange' Hdiff.
  destruct (decimal_digits 5 type [] ltac:(lia)) as (digits & Hdigits & Hvalue).
  destruct (decimal_digits 5 type' [] ltac:(lia)) as (digits' & Hdigits' & Hvalue').
  unfold getTypeString. rewrite Hdigits, Hdigits', !app_nil_r.
  change (js "TYPE") with [84; 89; 80; 69]. cbn [app].
  repeat match goal with
         | |- context [?x =? ?y] => destruct (Z.eqb_spec x y)
         end;
    try lia; try discriminate.
  intros [= E]. apply Hdiff. by rewrite <- Hvalue, <- Hvalue', E.
Qed.

Lemma getTypeString_injective_witness : getTypeString 28 <> getTypeString 255.
Proof. apply getTypeString_injective; lia. Defined.

(** * The record store decides between answering and forwarding *)

Section StoreAndDispatcher.
Variable utf8Slice : list byte -> jsstring.
Variable toLowerCase : jsstring -> jsstring.

(** X20. For a query that parses, and a name that folds to the same key as
    the query's domain: after [removeRecord] of that name the query is handed
    to the forwarder, and after [addRecord] under that name it is never
    forwarded; the sender gets one datagram, answer or error response. *)
Theorem add_and_remove_switch_forwarding (dnsRecords : gmap jsstring DNSRecord)
    (msg : Buffer) (rinfo : RemoteInfo) (query : DNSQuery)
    (name type value : jsstring) (ttl : option Z) :
  parseDNSQuery utf8Slice msg = Ok query ->
  toLowerCase name = toLowerCase (domain query) ->
  handleDNSQuery utf8Slice toLowerCase (removeRecord toLowerCase dnsRecords name).1 msg rinfo
  = Ok (ForwardDNSQuery msg rinfo query) /\
  exists response,
    handleDNSQuery utf8Slice toLowerCase (addRecord toLowerCase dnsRecords name type value ttl)
      msg rinfo
    = Ok (ServerSend response (port rinfo) (address rinfo)).
Proof.
  intros Hparse Hkey. split.
  - apply handleDNSQuery_miss; [done|].
    unfold removeRecord. cbn [fst]. rewrite Hkey. apply lookup_delete_eq.
  - pose proof (parseDNSQuery_length _ _ _ Hparse) as Hlen.
    assert (Hlookup : addRecord toLowerCase dnsRecords name type value ttl
                        !! toLowerCase (domain query)
                      = Some {| rtype := type; value := value; ttl := default 300 ttl |}).
    { unfold addRecord. rewrite Hkey. apply lookup_insert_eq. }
    destruct (createDNSResponse query
                {| rtype := type; value := value; ttl := default 300 ttl |} msg)
      as [response|e|] eqn:Hresponse.
    + exists response. by eapply handleDNSQuery_hit.
    + destruct (createDNSErrorResponse_Ok msg ltac:(lia)) as [errorResponse Herr].
      exists errorResponse. erewrite handleDNSQuery_hit_throws by done. by rewrite Herr.
    + by apply createDNSResponse_not_Diverge in Hresponse.
Qed.

End StoreAndDispatcher.

Lemma add_and_remove_switch_forwarding_witness :
  handleDNSQuery ascii_utf8Slice ascii_toLowerCase
    (removeRecord ascii_toLowerCase svc_store (js "SVC.Local")).1 svc_query sample_rinfo
  = Ok (ForwardDNSQuery svc_query sample_rinfo svc_parsed) /\
  exists response,
    handleDNSQuery ascii_utf8Slice ascii_toLowerCase
      (addRecord ascii_toLowerCase ∅ (js "SVC.Local") (js "A") (js "10.0.0.5") None)
      svc_query sample_rinfo
    = Ok (ServerSend response (port sample_rinfo) (address sample_rinfo)).
Proof.
  split.
  - apply (add_and_remove_switch_forwarding ascii_utf8Slice ascii_toLowerCase svc_store
             svc_query sample_rinfo svc_parsed (js "SVC.Local") [] [] None);
      [exact svc_query_parses|reflexivity].
  - apply (add_and_remove_switch_forwarding ascii_utf8Slice ascii_toLowerCase ∅
             svc_query sample_rinfo svc_parsed (js "SVC.Local") (js "A") (js "10.0.0.5") None);
      [exact svc_query_parses|reflexivity].
Defined.

(** * An A record whose value is not a dotted quad: what the client gets *)

Lemma copy_succeeds (source target : Buffer) (ts ss se : nat) :
  (ss <= length source)%nat ->
  exists target', copy source target ts ss se = Ok target' /\ length target' = length target.
Proof.
  intros Hss.
  assert (H : exists target', copy source target ts ss se = Ok target').
  { unfold copy. replace (length source <? ss)%nat with false by (symmetry; apply Nat.ltb_ge; lia).
    destruct ((length target <=? ts)%nat || (se <=? ss)%nat); eauto. }
  destruct H as [target' H]. exists target'. split; [done|].
  by apply copy_Ok in H as [? _].
Qed.

Lemma writeUInt8_succeeds (buf : Buffer) (v : number) (offset : nat) :
  (offset < length buf)%nat ->
  match v with NaN => True | Int z => 0 <= z <= 255 end ->
  exists buf', writeUInt8 buf v offset = Ok buf' /\ length buf' = length buf.
Proof.
  intros Hoff Hv. unfold writeUInt8.
  destruct (lookup_lt_is_Some_2 buf offset Hoff) as [b ->].
  destruct v as [|z].
  - eexists. split; [reflexivity|]. by rewrite length_insert.
  - replace ((z >? 255) || (z <? 0)) with false by lia.
    eexists. split; [reflexivity|]. by rewrite length_insert.
Qed.

Lemma writeUInt16BE_succeeds (buf : Buffer) (v : Z) (offset : nat) :
  (offset + 1 < length buf)%nat -> 0 <= v <= 65535 ->
  exists buf', writeUInt16BE buf v offset = Ok buf' /\ length buf' = length buf.
Proof.
  intros Hoff Hv. rewrite writeUInt16BE_eq by done.
  eexists. split; [reflexivity|]. by rewrite !length_insert.
Qed.

Lemma writeUInt32BE_succeeds (buf : Buffer) (v : Z) (offset : nat) :
  (offset + 3 < length buf)%nat -> 0 <= v <= 4294967295 ->
  exists buf', writeUInt32BE buf v offset = Ok buf' /\ length buf' = length buf.
Proof.
  intros Hoff Hv. unfold writeUInt32BE.
  replace ((v >? 4294967295) || (v <? 0)) with false by lia.
  destruct (lookup_lt_is_Some_2 buf offset ltac:(lia)) as [b0 ->].
  destruct (lookup_lt_is_Some_2 buf (offset + 3) ltac:(lia)) as [b3 ->].
  eexists. split; [reflexivity|]. by rewrite !length_insert.
Qed.

(** The loop that copies the name ends at the first zero octet, if the
    buffer reaches that far. *)
Lemma copy_question_name_succeeds (originalMsg : Buffer) (n : nat) :
  originalMsg !! n = Some x00 ->
  forall (fuel offset : nat) (response : Buffer),
    (offset <= n)%nat -> (n - offset < fuel)%nat -> (n < length response)%nat ->
    exists response' offset',
      copy_question_name fuel originalMsg response offset = Ok (response', offset') /\
      length response' = length response /\ (offset <= offset' <= n)%nat.
Proof.
  intros Hzero. induction fuel as [|fuel IH]; intros offset response Hle Hfuel Hroom; [lia|].
  cbn [copy_question_name].
  assert (Hlen : (n < length originalMsg)%nat) by (by eapply lookup_lt_Some).
  destruct (lookup_lt_is_Some_2 originalMsg offset ltac:(lia)) as [b Hb].
  assert (Hread : readUInt8 originalMsg offset = Ok (u8 b))
    by (unfold readUInt8; by rewrite Hb).
  rewrite !Hread, bind_Ok_l.
  destruct (u8 b =? 0) eqn:Hz.
  { exists response, offset. repeat split; [done|lia]. }
  assert (offset <> n).
  { intros ->. rewrite Hzero in Hb. injection Hb as <-. discriminate Hz. }
  rewrite bind_Ok_l.
  destruct (writeUInt8_succeeds response (Int (u8 b)) offset) as (r & -> & Hr);
    [lia|pose proof (u8_range b); lia|].
  rewrite bind_Ok_l.
  destruct (IH (S offset) r) as (r' & o' & -> & Hr' & Ho'); [lia..|].
  exists r', o'. repeat split; [congruence|lia..].
Qed.

Lemma write_ip_parts_succeeds (ipParts : list jsstring) :
  forall (response : Buffer) (offset : nat),
    Forall storable ipParts -> (offset + length ipParts <= length response)%nat ->
    exists response',
      write_ip_parts ipParts response offset = Ok (response', (offset + length ipParts)%nat) /\
      length response' = length response.
Proof.
  induction ipParts as [|part ipParts IH]; intros response offset Hparts Hroom.
  { exists response. cbn [write_ip_parts length]. by rewrite Nat.add_0_r. }
  apply Forall_cons in Hparts as [Hpart Hparts]. cbn [length] in Hroom.
  cbn [write_ip_parts].
  destruct (writeUInt8_succeeds response (parseInt part) offset) as (r & -> & Hr);
    [lia|exact Hpart|].
  rewrite bind_Ok_l.
  destruct (IH r (S offset) Hparts) as (r' & -> & Hr'); [lia|].
  exists r'. cbn [length].
  replace (offset + S (length ipParts))%nat with (S offset + length ipParts)%nat by lia.
  split; [done|congruence].
Qed.

(** An A record is serialized whenever the datagram has a zero octet at or
    after offset 12, the TTL fits 32 bits, every part of the value starts
    with no integer or with one within 0-255, and the 512 bytes hold it
    all. *)
Lemma createDNSResponse_succeeds (query : DNSQuery) (record : DNSRecord)
    (originalMsg : Buffer) (n : nat) :
  (12 <= n)%nat -> originalMsg !! n = Some x00 ->
  rtype record = js "A" ->
  Forall storable (split 46 (value record)) ->
  (n + 17 + length (split 46 (value record)) <= 512)%nat ->
  0 <= ttl record <= 4294967295 ->
  exists response, createDNSResponse query record originalMsg = Ok response.
Proof.
  intros Hn Hzero Htype Hparts Hroom Httl.
  assert (Hlen : (n < length originalMsg)%nat) by (by eapply lookup_lt_Some).
  unfold createDNSResponse. cbv zeta.
  destruct (copy_succeeds originalMsg (alloc 512) 0 0 12) as (r1 & -> & L1); [lia|].
  unfold alloc in L1. rewrite length_replicate in L1. rewrite bind_Ok_l.
  destruct (writeUInt16BE_succeeds r1 0x8180 2) as (r2 & -> & L2); [lia..|].
  rewrite bind_Ok_l.
  destruct (writeUInt16BE_succeeds r2 1 6) as (r3 & -> & L3); [lia..|].
  rewrite bind_Ok_l.
  destruct (copy_question_name_succeeds originalMsg n Hzero (S (length originalMsg)) 12 r3)
    as (r4 & o & -> & L4 & Ho); [lia..|].
  rewrite bind_Ok_l. cbv beta iota zeta.
  destruct (writeUInt8_succeeds r4 (Int 0) o) as (r5 & -> & L5); [lia..|].
  rewrite bind_Ok_l.
  destruct (copy_succeeds originalMsg r5 (S o) (S o) (S o + 4)) as (r6 & -> & L6); [lia|].
  rewrite bind_Ok_l.
  destruct (writeUInt16BE_succeeds r6 0xC00C (S o + 4)) as (r7 & -> & L7); [lia..|].
  rewrite bind_Ok_l.
  assert (Hone : (if decide (rtype record = js "A") then 1 else 1) = 1) by (by case_decide).
  rewrite Hone.
  destruct (writeUInt16BE_succeeds r7 1 (S o + 4 + 2)) as (r8 & -> & L8); [lia..|].
  rewrite bind_Ok_l.
  destruct (writeUInt16BE_succeeds r8 1 (S o + 4 + 2 + 2)) as (r9 & -> & L9); [lia..|].
  rewrite bind_Ok_l.
  destruct (writeUInt32BE_succeeds r9 (ttl record) (S o + 4 + 2 + 2 + 2))
    as (r10 & -> & L10); [lia..|].
  rewrite bind_Ok_l.
  rewrite decide_True by done.
  destruct (writeUInt16BE_succeeds r10 4 (S o + 4 + 2 + 2 + 2 + 4)) as (r11 & -> & L11);
    [lia..|].
  rewrite bind_Ok_l.
  destruct (write_ip_parts_succeeds (split 46 (value record)) r11
              (S o + 4 + 2 + 2 + 2 + 4 + 2) Hparts) as (r12 & -> & L12); [lia|].
  rewrite bind_Ok_l. eauto.
Qed.

Section BadOctet.
Variable utf8Slice : list byte -> jsstring.
Variable toLowerCase : jsstring -> jsstring.

(** C10, amended. For every stored record of type A, whatever its value,
    and every query that parses and names its domain, the handler returns
    normally having sent the client exactly one datagram that carries the
    transaction id of the query.  That datagram is the synthesized error
    response whenever some dot-separated part of the value starts with an
    integer outside 0-255.  A part that starts with no integer raises no
    exception: when every part starts with no integer or with one within
    0-255, the TTL fits 32 bits and datagram and parts fit the buffer, the
    datagram is the serializer's answer, flagged 0x8180. *)
Theorem bad_octet_yields_error_response (dnsRecords : gmap jsstring DNSRecord)
    (msg : Buffer) (rinfo : RemoteInfo) (query : DNSQuery) (record : DNSRecord) :
  parseDNSQuery utf8Slice msg = Ok query ->
  lookup_record toLowerCase dnsRecords (domain query) = Some record ->
  rtype record = js "A" ->
  exists response,
    handleDNSQuery utf8Slice toLowerCase dnsRecords msg rinfo
      = Ok (ServerSend response (port rinfo) (address rinfo)) /\
    take 2 response = take 2 msg /\
    ((exists part n, part ∈ split 46 (value record) /\ parseInt part = Int n /\
                     (n < 0 \/ 255 < n)) ->
     createDNSErrorResponse msg = Ok response) /\
    (Forall storable (split 46 (value record)) ->
     0 <= ttl record <= 4294967295 ->
     (length msg + length (split 46 (value record)) <= 500)%nat ->
     createDNSResponse query record msg = Ok response /\
     readUInt16BE response 2 = Ok 0x8180).
Proof.
  intros Hparse Hlook Htype. unfold lookup_record in Hlook.
  pose proof (parseDNSQuery_length _ _ _ Hparse) as Hlen.
  destruct (createDNSResponse query record msg) as [response|e|] eqn:Hresp.
  - exists response. split; [by eapply handleDNSQuery_hit|].
    destruct (createDNSResponse_header _ _ _ _ Hresp Hlen) as (_ & Hid & Hflags & _).
    split; [exact Hid|]. split; [|done].
    intros (part & n & Hin & Hn & Hbad).
    pose proof (createDNSResponse_parts_in_range _ _ _ _ _ _ Hresp Htype Hin Hn). lia.
  - destruct (createDNSErrorResponse_Ok msg ltac:(lia)) as [errorResponse Herr].
    exists errorResponse. split; [|split; [|split]].
    + erewrite handleDNSQuery_hit_throws by done. by rewrite Herr.
    + by apply createDNSErrorResponse_txid.
    + done.
    + intros Hparts Httl Hroom. exfalso.
      unfold parseDNSQuery in Hparse.
      do 6 (apply bind_Ok in Hparse as (? & _ & Hparse)).
      apply bind_Ok in Hparse as ([labels o] & Hlabels & Hparse).
      apply bind_Ok in Hparse as (? & _ & Hparse).
      apply bind_Ok in Hparse as (? & Hclass & _).
      apply readUInt16BE_lt in Hclass.
      apply parse_labels_offset in Hlabels as [[Ho _] Hzero].
      destruct (createDNSResponse_succeeds query record msg (o - 1))
        as [response Hok]; [lia|done..|lia|done|congruence].
  - by apply createDNSResponse_not_Diverge in Hresp.
Qed.

End BadOctet.

(** [svc.local] stored with the value 256.0.0.1, and with the value
    localhost. *)
Lemma bad_octet_yields_error_response_witness :
  (exists response,
     handleDNSQuery ascii_utf8Slice ascii_toLowerCase
       (addRecord ascii_toLowerCase ∅ (js "svc.local") (js "A") (js "256.0.0.1") None)
       svc_query sample_rinfo
       = Ok (ServerSend response (port sample_rinfo) (address sample_rinfo)) /\
     take 2 response = take 2 svc_query /\
     createDNSErrorResponse svc_query = Ok response) /\
  (exists response,
     handleDNSQuery ascii_utf8Slice ascii_toLowerCase localhost_store svc_query sample_rinfo
       = Ok (ServerSend response (port sample_rinfo) (address sample_rinfo)) /\
     readUInt16BE response 2 = Ok 0x8180).
Proof.
  split.
  - destruct (bad_octet_yields_error_response ascii_utf8Slice ascii_toLowerCase
                (addRecord ascii_toLowerCase ∅ (js "svc.local") (js "A") (js "256.0.0.1") None)
                svc_query sample_rinfo svc_parsed
                {| rtype := js "A"; value := js "256.0.0.1"; ttl := 300 |})
      as (response & H & Hid & Herr & _).
    + vm_compute. reflexivity.
    + vm_compute. reflexivity.
    + reflexivity.
    + exists response. split; [exact H|]. split; [exact Hid|].
      apply Herr. exists (js "256"), 256. split; [|split; [vm_compute; reflexivity|lia]].
      change (split 46 (js "256.0.0.1")) with [js "256"; js "0"; js "0"; js "1"].
      apply list_elem_of_here.
  - destruct (bad_octet_yields_error_response ascii_utf8Slice ascii_toLowerCase
                localhost_store svc_query sample_rinfo svc_parsed
                {| rtype := js "A"; value := js "localhost"; ttl := 300 |})
      as (response & H & _ & _ & Hanswer).
    + vm_compute. reflexivity.
    + vm_compute. reflexivity.
    + reflexivity.
    + exists response. split; [exact H|].
      apply Hanswer.
      * change (split 46 (js "localhost")) with [js "localhost"].
        by repeat constructor.
      * cbn [ttl]. lia.
      * vm_compute. lia.
Defined.
